(** * Token acquisition and credential cache of the MSAL authorization-code client

    A shallow embedding of three source files of the repository:

    - the node [Storage] class (in-memory cache sections, [setItem],
      [getItem], [removeItem], [containsKey], [getKeys], [clear]);
    - the [SPAClient] class ([createUrl], [acquireToken], [getValidToken],
      [getCachedRequest], [getCachedTokens], [getTokenResponse],
      [renewToken], [getRedirectUri], [getAccount], [logout],
      [cancelRequest]);
    - the node [ClientApplication] class ([createAuthority], its lazily
      created authority, [buildOauthClientConfiguration] and the three
      calls that go through it).

    A plain object used as a dictionary is the finite map of its own
    properties together with the object it inherits from, numbers are
    doubles, strings are sequences of UTF-8 bytes, methods that mutate
    [this] are state transformers, and exceptions are an explicit result.
    Helper classes that the files import but that are not among the sources
    are either parameters of the development or small models written after
    the specification; each of those says so in its comment. *)

From Stdlib Require Import ZArith QArith Qabs Ascii String List Bool Lia.
From stdpp Require Import base option strings list gmap pretty.

Local Close Scope Q_scope.
Local Open Scope string_scope.

(** ** JavaScript primitives shared by both classes *)

Module Js.

(** [x.length === 0] on a string. *)
Definition str_is_empty (s : string) : bool :=
  match s with
  | EmptyString => true
  | String _ _ => false
  end.

(** Truthiness of a string: every string but the empty one. *)
Definition truthy_string (s : string) : bool := negb (str_is_empty s).

(** Truthiness of an optional string ([undefined] and [null] are falsy). *)
Definition truthy_ostring (o : option string) : bool :=
  match o with
  | Some s => truthy_string s
  | None => false
  end.

(** Truthiness of an optional boolean flag such as [inMemory?: boolean]. *)
Definition truthy_obool (o : option bool) : bool :=
  match o with
  | Some b => b
  | None => false
  end.

(** [o || d] on an optional string. *)
Definition or_default (o : option string) (d : string) : string :=
  match o with
  | Some s => if truthy_string s then s else d
  | None => d
  end.

(** [s.length], the number of UTF-16 code units, of a string that is kept
    as UTF-8 bytes: one for every character of up to three bytes and two
    for every character of four bytes, so one for every byte that starts a
    character and one more for every byte that starts one of four. *)
Fixpoint str_length (s : string) : nat :=
  match s with
  | EmptyString => 0
  | String a rest =>
      let n := N_of_ascii a in
      ((if (n <? 128)%N || (192 <=? n)%N then 1 else 0)
       + (if (240 <=? n)%N then 1 else 0)
       + str_length rest)%nat
  end.

(** [Object.keys] of a string primitive: its indices, in decimal, in
    increasing order. *)
Definition keys_of_string (s : string) : list string :=
  map (fun i : nat => pretty i) (seq 0 (str_length s)).

(** *** Numbers

    A number of the language is a double.  A finite double is kept as the
    rational it denotes, in lowest terms; the two zeros are one value,
    which nothing below tells apart. *)
Inductive number :=
| NaN
| Infinity (negative : bool)
| Finite (q : Q).

(** [n / d / 2 ^ e] as a fraction, for positive [n] and [d]. *)
Definition scaled (n d e : Z) : Z * Z :=
  if (0 <=? e)%Z then (n, d * 2 ^ e)%Z else (n * 2 ^ (- e), d)%Z.

(** The double nearest to [n / d] for positive [n] and [d], the one with
    the even significand when two are equally near: the significand has 53
    bits, the exponent of its last bit is at least [-1074], and what
    reaches [2 ^ 1024] is infinite. *)
Definition round_positive (n d : Z) : number :=
  let e1 := (Z.log2 n - Z.log2 d - 52)%Z in
  let e2 :=
    let '(num, den) := scaled n d e1 in
    if (num / den <? 2 ^ 52)%Z then (e1 - 1)%Z else e1 in
  let e := Z.max e2 (-1074) in
  let '(num, den) := scaled n d e in
  let q := (num / den)%Z in
  let r := (num mod den)%Z in
  let q :=
    if (den <? 2 * r)%Z || ((2 * r =? den)%Z && Z.odd q) then (q + 1)%Z else q in
  if (0 <=? e)%Z
  then (if (2 ^ 1024 <=? q * 2 ^ e)%Z then Infinity false
        else Finite (inject_Z (q * 2 ^ e)))
  else Finite (Qred (Qmake q (Z.to_pos (2 ^ (- e))))).

Definition negate (n : number) : number :=
  match n with
  | NaN => NaN
  | Infinity negative => Infinity (negb negative)
  | Finite q => Finite (Qred (- q))
  end.

(** The double nearest to a rational. *)
Definition round (q : Q) : number :=
  match Qnum q with
  | Z0 => Finite 0
  | Zpos n => round_positive (Zpos n) (Zpos (Qden q))
  | Zneg n => negate (round_positive (Zpos n) (Zpos (Qden q)))
  end.

(** A whole number as a double. *)
Definition of_Z (z : Z) : number := round (inject_Z z).

Definition is_zero (q : Q) : bool := (Qnum q =? 0)%Z.

Definition is_negative (q : Q) : bool := (Qnum q <? 0)%Z.

(** [a + b] *)
Definition add (a b : number) : number :=
  match a, b with
  | NaN, _ | _, NaN => NaN
  | Infinity s, Infinity t => if Bool.eqb s t then Infinity s else NaN
  | Infinity s, Finite _ => Infinity s
  | Finite _, Infinity t => Infinity t
  | Finite p, Finite q => round (p + q)
  end.

(** [a * b] *)
Definition mul (a b : number) : number :=
  match a, b with
  | NaN, _ | _, NaN => NaN
  | Infinity s, Infinity t => Infinity (xorb s t)
  | Infinity s, Finite q | Finite q, Infinity s =>
      if is_zero q then NaN else Infinity (xorb s (is_negative q))
  | Finite p, Finite q => round (p * q)
  end.

(** [a > b]; a comparison with [NaN] is false. *)
Definition gt (a b : number) : bool :=
  match a, b with
  | NaN, _ | _, NaN => false
  | Infinity true, _ => false
  | _, Infinity false => false
  | Infinity false, _ => true
  | Finite _, Infinity true => true
  | Finite p, Finite q => negb (Qle_bool p q)
  end.

(** A number used as a condition: [NaN] and zero are falsy. *)
Definition truthy_number (n : number) : bool :=
  match n with
  | NaN => false
  | Infinity _ => true
  | Finite q => negb (is_zero q)
  end.

(** A [Date]: its time value in milliseconds, or the invalid date. *)
Inductive Date :=
| InvalidDate
| TimeValue (ms : Z).

(** [new Date(n)]: the time value is [n] without its fraction, and the
    date is invalid when [n] is not finite or beyond 8.64e15. *)
Definition new_Date (n : number) : Date :=
  match n with
  | Finite q =>
      if Qle_bool (Qabs q) (inject_Z 8640000000000000)
      then TimeValue (Z.quot (Qnum q) (Zpos (Qden q)))
      else InvalidDate
  | _ => InvalidDate
  end.

(** *** [Number] of a string

    Strings are sequences of UTF-8 bytes. *)

Definition code (a : ascii) : Z := Z.of_N (N_of_ascii a).

(** The value of a digit in a base up to sixteen. *)
Definition digit_value (base : Z) (a : ascii) : option Z :=
  let n := code a in
  let v :=
    if ((48 <=? n) && (n <=? 57))%Z then Some (n - 48)%Z
    else if ((97 <=? n) && (n <=? 102))%Z then Some (n - 87)%Z
    else if ((65 <=? n) && (n <=? 70))%Z then Some (n - 55)%Z
    else None in
  match v with
  | Some d => if (d <? base)%Z then Some d else None
  | None => None
  end.

(** The digits at the start of a string: their value on top of [acc],
    how many there are on top of [count], and the rest of the string. *)
Fixpoint digits (base : Z) (s : string) (acc count : Z) : Z * Z * string :=
  match s with
  | String a rest =>
      match digit_value base a with
      | Some d => digits base rest (base * acc + d)%Z (count + 1)%Z
      | None => (acc, count, s)
      end
  | EmptyString => (acc, count, s)
  end.

(** The white space and line terminators of the language that take one
    byte: tab, line feed, vertical tab, form feed, carriage return,
    space. *)
Definition space1 (a : ascii) : bool :=
  let n := code a in ((9 <=? n) && (n <=? 13) || (n =? 32))%Z.

(** Those that take two bytes: the no-break space U+00A0. *)
Definition space2 (a b : ascii) : bool :=
  ((code a =? 194) && (code b =? 160))%Z.

(** Those that take three bytes: U+1680, U+2000 to U+200A, the line and
    paragraph separators U+2028 and U+2029, U+202F, U+205F, U+3000 and
    the byte order mark U+FEFF. *)
Definition space3 (a b c : ascii) : bool :=
  let '(x, y, z) := (code a, code b, code c) in
  ((x =? 225) && (y =? 154) && (z =? 128)
   || (x =? 226) && (y =? 128)
      && ((128 <=? z) && (z <=? 138) || (z =? 168) || (z =? 169) || (z =? 175))
   || (x =? 226) && (y =? 129) && (z =? 159)
   || (x =? 227) && (y =? 128) && (z =? 128)
   || (x =? 239) && (y =? 187) && (z =? 191))%Z.

(** A string without the white space at its start. *)
Fixpoint skip_white_space (s : string) : string :=
  match s with
  | String a rest =>
      if space1 a then skip_white_space rest
      else
        match rest with
        | String b rest2 =>
            if space2 a b then skip_white_space rest2
            else
              match rest2 with
              | String c rest3 =>
                  if space3 a b c then skip_white_space rest3 else s
              | EmptyString => s
              end
        | EmptyString => s
        end
  | EmptyString => s
  end.

(** The rest of a string after a given start, if it starts so. *)
Fixpoint after (start s : string) : option string :=
  match start, s with
  | EmptyString, _ => Some s
  | String a start', String b s' =>
      if Ascii.eqb a b then after start' s' else None
  | String _ _, EmptyString => None
  end.

(** A literal in base 2, 8 or 16 at the start of a string: its prefix
    and at least one digit. *)
Definition non_decimal_literal (s : string) : option (number * string) :=
  let based (base : Z) (lower upper : string) : option (number * string) :=
    match (match after lower s with
           | Some r => Some r
           | None => after upper s
           end) with
    | Some r =>
        let '(value, count, rest) := digits base r 0 0 in
        if (0 <? count)%Z then Some (of_Z value, rest) else None
    | None => None
    end in
  match based 16%Z "0x" "0X" with
  | Some r => Some r
  | None =>
      match based 8%Z "0o" "0O" with
      | Some r => Some r
      | None => based 2%Z "0b" "0B"
      end
  end.

(** The double nearest to [m * 10 ^ e] for a significand [m] of [count]
    digits.  A value of at least [10 ^ 400] is infinite and one below
    [10 ^ -400] is zero, whatever its digits. *)
Definition decimal_value (m count e : Z) : number :=
  if (m =? 0)%Z then Finite 0
  else if (400 <=? e)%Z then Infinity false
  else if (e <=? - (count + 400))%Z then Finite 0
  else if (0 <=? e)%Z then round (inject_Z (m * 10 ^ e))
  else round (Qmake m (Z.to_pos (10 ^ (- e)))).

(** An exponent part at the start of a string: [e] or [E], a sign or
    none, and at least one digit. *)
Definition exponent_part (s : string) : option (Z * string) :=
  match s with
  | String a rest =>
      if Ascii.eqb a "e" || Ascii.eqb a "E"
      then
        let '(negative, rest) :=
          match rest with
          | String b rest' =>
              if Ascii.eqb b "-" then (true, rest')
              else if Ascii.eqb b "+" then (false, rest')
              else (false, rest)
          | EmptyString => (false, rest)
          end in
        let '(value, count, rest) := digits 10 rest 0 0 in
        if (0 <? count)%Z
        then Some (if negative then (- value)%Z else value, rest)
        else None
      else None
  | EmptyString => None
  end.

(** A decimal literal without a sign at the start of a string:
    [Infinity], or digits with a point among them or not, at least one
    digit in all, and an exponent part or none. *)
Definition unsigned_decimal_literal (s : string) : option (number * string) :=
  match after "Infinity" s with
  | Some rest => Some (Infinity false, rest)
  | None =>
      let '(whole, wholeCount, rest) := digits 10 s 0 0 in
      let '(significand, fractionCount, rest) :=
        match rest with
        | String a rest' =>
            if Ascii.eqb a "."
            then
              let '(all, count, rest'') := digits 10 rest' whole 0 in
              if ((0 <? wholeCount) || (0 <? count))%Z then (all, count, rest'')
              else (whole, 0%Z, rest)
            else (whole, 0%Z, rest)
        | EmptyString => (whole, 0%Z, rest)
        end in
      if (0 <? wholeCount + fractionCount)%Z
      then
        let '(exponent, rest) :=
          match exponent_part rest with
          | Some (x, rest') => (x, rest')
          | None => (0%Z, rest)
          end in
        Some (decimal_value significand (wholeCount + fractionCount)
                (exponent - fractionCount), rest)
      else None
  end.

(** A decimal literal with a sign or none. *)
Definition decimal_literal (s : string) : option (number * string) :=
  match s with
  | String a rest =>
      if Ascii.eqb a "-"
      then match unsigned_decimal_literal rest with
           | Some (value, rest') => Some (negate value, rest')
           | None => None
           end
      else if Ascii.eqb a "+" then unsigned_decimal_literal rest
      else unsigned_decimal_literal s
  | EmptyString => None
  end.

(** [Number(s)] for a string: white space around one numeric literal, or
    nothing but white space, which is zero; [NaN] for everything else. *)
Definition Number (s : string) : number :=
  let s := skip_white_space s in
  if str_is_empty s then Finite 0
  else
    let literal :=
      match non_decimal_literal s with
      | Some r => Some r
      | None => decimal_literal s
      end in
    match literal with
    | Some (value, rest) =>
        if str_is_empty (skip_white_space rest) then value else NaN
    | None => NaN
    end.

End Js.

(** ** The node [Storage] class *)

Module Storage.

(** The values of [CacheSchemaType] that [Storage] switches on.  The
    [type?: string] parameter is an [option]: [None] stands for an absent
    argument and for any string that is none of the three, both of which
    take the [default] branch. *)
Inductive CacheSchemaType := ACCOUNT | CREDENTIAL | APP_META_DATA.

Inductive CredentialType := ID_TOKEN | ACCESS_TOKEN | REFRESH_TOKEN.

(** What the side effects of the class leave behind: lines written with
    [console.log] and calls of registered change emitters.  The emitters
    are callbacks of whoever registered them; the class only calls them,
    and the model records each call. *)
Inductive Effect :=
| Logged (msg : string)
| Emitted (emitter : nat).

Definition msg_no_persistence : string :=
  "Node doesn't support granular cache persistence yet".
Definition msg_invalid_type : string := "Invalid Cache Type".

Section WithEntities.

(** The objects that come from outside the class.  The entity objects
    ([AccountEntity], [AccessTokenEntity], ...) come from the common
    package; the class only stores and returns them. *)
Variable Entity : Type.

(** [CacheHelper.getCredentialType], from the common package: the
    credential kind encoded in a key, [None] when the key matches none
    of the three [case]s of the inner [switch]. *)
Variable getCredentialType : string -> option CredentialType.

(** [value: string | object]. *)
Inductive Value :=
| VString (s : string)
| VObject (e : Entity).

Definition truthy (v : Value) : bool :=
  match v with
  | VString s => Js.truthy_string s
  | VObject _ => true
  end.

(** [Object.prototype], from which an object made by the literal [{}]
    inherits.  It is taken as the language defines it: [__proto__] is its
    only accessor, and its other members can be shadowed by an
    assignment. *)
Variable Object_prototype : Entity.

(** What [o[key]] reads on an object that the class did not make, for a
    key other than [__proto__]: the property of that name of the object
    itself or of the objects it inherits from, [None] for [undefined].
    On [Object_prototype] these are the members every plain object
    inherits ([toString], [constructor], ...). *)
Variable Get : Entity -> string -> option Value.

(** What [getItem] can return: a stored or inherited value, [null], or
    the fresh empty object [{}]. *)
Inductive Item :=
| INull
| IEmptyObject
| IValue (v : Value).

(** One section of the cache, a plain object: its own properties and the
    object it inherits from.  The objects a section can come to inherit
    from are ordinary ones: they inherit from [Object.prototype] in turn,
    so that [__proto__] is its accessor, and they have no setters and no
    read-only properties. *)
Record Section := mkSection {
  own : gmap string Value;
  prototype : Entity
}.

(** The object literal [{}]. *)
Definition empty_object : Section :=
  {| own := ∅; prototype := Object_prototype |}.

(** What a section reads under a key that is not an own property: for
    [__proto__] the object it inherits from, and else what that object has
    under the key. *)
Definition inherited (section : Section) (key : string) : option Value :=
  if String.eqb key "__proto__" then Some (VObject (prototype section))
  else Get (prototype section) key.

(** [section[key]]: the own property, or else what is inherited. *)
Definition read (section : Section) (key : string) : option Value :=
  match own section !! key with
  | Some v => Some v
  | None => inherited section key
  end.

(** [section[key] = value]: an own property is created or overwritten,
    except under [__proto__] when that is not an own property: then an
    object becomes what the section inherits from, and a string is
    dropped. *)
Definition write (key : string) (value : Value) (section : Section) : Section :=
  if String.eqb key "__proto__" && negb (bool_decide (is_Some (own section !! key)))
  then match value with
       | VObject e => {| own := own section; prototype := e |}
       | VString _ => section
       end
  else {| own := <[key := value]> (own section); prototype := prototype section |}.

(** [delete section[key]]: an own property is removed; what is inherited
    stays. *)
Definition remove (key : string) (section : Section) : Section :=
  {| own := delete key (own section); prototype := prototype section |}.

(** The cache object: its five sections, and its own keys as
    [Object.keys] lists them. *)
Record InMemoryCache := mkCache {
  accounts : Section;
  accessTokens : Section;
  refreshTokens : Section;
  appMetadata : Section;
  idTokens : Section;
  ownKeys : list string
}.

Record t := mkStorage {
  inMemoryCache : InMemoryCache;
  changeEmitters : list nat;
  effects : list Effect
}.

(** The names of the five sections, in the order of the object literal
    that initialises [inMemoryCache]. *)
Definition section_names : list string :=
  ["accounts"; "accessTokens"; "refreshTokens"; "appMetadata"; "idTokens"]%string.

Definition initial : t :=
  {| inMemoryCache :=
       mkCache empty_object empty_object empty_object empty_object empty_object
         section_names;
     changeEmitters := [];
     effects := [] |}.

Definition console_log (msg : string) (st : t) : t :=
  {| inMemoryCache := inMemoryCache st;
     changeEmitters := changeEmitters st;
     effects := effects st ++ [Logged msg] |}.

Definition registerChangeEmitter (func : nat) (st : t) : t :=
  {| inMemoryCache := inMemoryCache st;
     changeEmitters := changeEmitters st ++ [func];
     effects := effects st |}.

Definition emitChange (st : t) : t :=
  {| inMemoryCache := inMemoryCache st;
     changeEmitters := changeEmitters st;
     effects := effects st ++ map Emitted (changeEmitters st) |}.

Definition getCache (st : t) : InMemoryCache := inMemoryCache st.

Definition setCache (c : InMemoryCache) (st : t) : t :=
  emitChange {| inMemoryCache := c;
                changeEmitters := changeEmitters st;
                effects := effects st |}.

(** [Object.keys(cache)] *)
Definition cache_keys (c : InMemoryCache) : list string := ownKeys c.

Definition setItem (key : string) (value : Value)
    (type : option CacheSchemaType) (inMemory : option bool) (st : t) : t :=
  if negb (Js.truthy_obool inMemory) then console_log msg_no_persistence st
  else
    let cache := getCache st in
    let stored : option InMemoryCache :=
      match type with
      | Some ACCOUNT =>
          Some (mkCache (write key value (accounts cache)) (accessTokens cache)
                  (refreshTokens cache) (appMetadata cache) (idTokens cache)
                  (ownKeys cache))
      | Some CREDENTIAL =>
          match getCredentialType key with
          | Some ID_TOKEN =>
              Some (mkCache (accounts cache) (accessTokens cache)
                      (refreshTokens cache) (appMetadata cache)
                      (write key value (idTokens cache)) (ownKeys cache))
          | Some ACCESS_TOKEN =>
              Some (mkCache (accounts cache) (write key value (accessTokens cache))
                      (refreshTokens cache) (appMetadata cache) (idTokens cache)
                      (ownKeys cache))
          | Some REFRESH_TOKEN =>
              Some (mkCache (accounts cache) (accessTokens cache)
                      (write key value (refreshTokens cache))
                      (appMetadata cache) (idTokens cache) (ownKeys cache))
          | None => Some cache
          end
      | Some APP_META_DATA =>
          Some (mkCache (accounts cache) (accessTokens cache)
                  (refreshTokens cache) (write key value (appMetadata cache))
                  (idTokens cache) (ownKeys cache))
      | None => None
      end in
    match stored with
    | Some cache' => emitChange (setCache cache' st)
    | None => console_log msg_invalid_type st
    end.

(** [(section[key] as T) || null]. *)
Definition or_null (o : option Value) : Item :=
  match o with
  | Some v => if truthy v then IValue v else INull
  | None => INull
  end.

Definition getItem (key : string) (type : option CacheSchemaType)
    (inMemory : option bool) (st : t) : Item * t :=
  if negb (Js.truthy_obool inMemory)
  then (IEmptyObject, console_log msg_no_persistence st)
  else
    let cache := getCache st in
    match type with
    | Some ACCOUNT => (or_null (read (accounts cache) key), st)
    | Some CREDENTIAL =>
        match getCredentialType key with
        | Some ID_TOKEN => (or_null (read (idTokens cache) key), st)
        | Some ACCESS_TOKEN => (or_null (read (accessTokens cache) key), st)
        | Some REFRESH_TOKEN => (or_null (read (refreshTokens cache) key), st)
        | None => (INull, st)
        end
    | Some APP_META_DATA => (or_null (read (appMetadata cache) key), st)
    | None => (IEmptyObject, console_log msg_invalid_type st)
    end.

(** [!!section[key]]. *)
Definition present (section : Section) (key : string) : bool :=
  match read section key with
  | Some v => truthy v
  | None => false
  end.

Definition removeItem (key : string) (type : option CacheSchemaType)
    (inMemory : option bool) (st : t) : bool * t :=
  if negb (Js.truthy_obool inMemory)
  then (false, console_log msg_no_persistence st)
  else
    let cache := getCache st in
    let removal : option InMemoryCache * t :=
      match type with
      | Some ACCOUNT =>
          if present (accounts cache) key
          then (Some (mkCache (remove key (accounts cache)) (accessTokens cache)
                        (refreshTokens cache) (appMetadata cache) (idTokens cache)
                        (ownKeys cache)), st)
          else (None, st)
      | Some CREDENTIAL =>
          match getCredentialType key with
          | Some ID_TOKEN =>
              if present (idTokens cache) key
              then (Some (mkCache (accounts cache) (accessTokens cache)
                            (refreshTokens cache) (appMetadata cache)
                            (remove key (idTokens cache)) (ownKeys cache)), st)
              else (None, st)
          | Some ACCESS_TOKEN =>
              if present (accessTokens cache) key
              then (Some (mkCache (accounts cache) (remove key (accessTokens cache))
                            (refreshTokens cache) (appMetadata cache)
                            (idTokens cache) (ownKeys cache)), st)
              else (None, st)
          | Some REFRESH_TOKEN =>
              if present (refreshTokens cache) key
              then (Some (mkCache (accounts cache) (accessTokens cache)
                            (remove key (refreshTokens cache))
                            (appMetadata cache) (idTokens cache) (ownKeys cache)), st)
              else (None, st)
          | None => (None, st)
          end
      | Some APP_META_DATA =>
          if present (appMetadata cache) key
          then (Some (mkCache (accounts cache) (accessTokens cache)
                        (refreshTokens cache) (remove key (appMetadata cache))
                        (idTokens cache) (ownKeys cache)), st)
          else (None, st)
      | None => (None, console_log msg_invalid_type st)
      end in
    match removal with
    | (Some cache', st') => (true, emitChange (setCache cache' st'))
    | (None, st') => (false, st')
    end.

(** [return key ? true : false]. *)
Definition containsKey (key : string) (st : t) : bool :=
  if Js.truthy_string key then true else false.

(** The keys that the two nested [forEach] loops of [getKeys] and
    [clear] visit: for every own key of the cache object, the indices of
    its characters. *)
Definition internal_keys (c : InMemoryCache) : list string :=
  concat (map Js.keys_of_string (cache_keys c)).

Definition getKeys (inMemory : option bool) (st : t) : list string * t :=
  if negb (Js.truthy_obool inMemory)
  then ([], console_log msg_no_persistence st)
  else (internal_keys (getCache st), st).

(** The body of the inner loop of [clear]: [this.removeItem(internalKey)],
    with [type] and [inMemory] absent and the result dropped. *)
Definition clear_step (st : t) (internalKey : string) : t :=
  snd (removeItem internalKey None None st).

Definition clear (inMemory : option bool) (st : t) : t :=
  if negb (Js.truthy_obool inMemory) then console_log msg_no_persistence st
  else
    let cache := getCache st in
    emitChange (fold_left clear_step (internal_keys cache) st).

End WithEntities.

Arguments VString {Entity} s.
Arguments VObject {Entity} e.
Arguments INull {Entity}.
Arguments IEmptyObject {Entity}.
Arguments IValue {Entity} v.
Arguments mkSection {Entity}.
Arguments own {Entity}.
Arguments prototype {Entity}.
Arguments mkCache {Entity}.
Arguments mkStorage {Entity}.
Arguments accounts {Entity}.
Arguments accessTokens {Entity}.
Arguments refreshTokens {Entity}.
Arguments appMetadata {Entity}.
Arguments idTokens {Entity}.
Arguments ownKeys {Entity}.
Arguments inMemoryCache {Entity}.
Arguments changeEmitters {Entity}.
Arguments effects {Entity}.
Arguments truthy {Entity}.
Arguments or_null {Entity}.
Arguments empty_object {Entity}.
Arguments inherited {Entity}.
Arguments read {Entity}.
Arguments write {Entity}.
Arguments remove {Entity}.
Arguments present {Entity}.
Arguments initial {Entity}.
Arguments setItem {Entity}.
Arguments getItem {Entity}.
Arguments removeItem {Entity}.
Arguments containsKey {Entity}.
Arguments getKeys {Entity}.
Arguments getCache {Entity}.
Arguments setCache {Entity}.
Arguments clear {Entity}.
Arguments clear_step {Entity}.
Arguments cache_keys {Entity}.
Arguments internal_keys {Entity}.
Arguments emitChange {Entity}.
Arguments console_log {Entity}.
Arguments registerChangeEmitter {Entity}.

End Storage.

(** ** Helper classes of the common package that [SPAClient] imports *)

Module StringUtils.

(** Modelled from the spec: [StringUtils.isEmpty] is not among the sources;
    a value is empty when it is absent or the empty string. *)
Definition isEmpty (o : option string) : bool :=
  match o with
  | Some s => Js.str_is_empty s
  | None => true
  end.

(** [s.split(" ")] without the empty pieces, one character at a time;
    [cur] is the piece being read. *)
Fixpoint split_go (cur : string) (s : string) : list string :=
  match s with
  | EmptyString => if Js.str_is_empty cur then [] else [cur]
  | String a rest =>
      if Ascii.eqb a " "
      then (if Js.str_is_empty cur then [] else [cur]) ++ split_go "" rest
      else split_go (cur ++ String a "") rest
  end.

(** [s.split(" ")] without the empty pieces. *)
Definition split_spaces (s : string) : list string := split_go "" s.

(** The upper-case hexadecimal digit of a number below sixteen. *)
Definition hex_digit (n : N) : ascii :=
  ascii_of_N (if (n <? 10)%N then 48 + n else 55 + n)%N.

(** The characters [encodeURIComponent] leaves alone. *)
Definition unreserved (a : ascii) : bool :=
  let n := N_of_ascii a in
  ((48 <=? n) && (n <=? 57) || (65 <=? n) && (n <=? 90)
   || (97 <=? n) && (n <=? 122))%N
  || existsb (Ascii.eqb a) (list_ascii_of_string "-_.!~*'()").

(** [encodeURIComponent] on a string of UTF-8 bytes. *)
Fixpoint encodeURIComponent (s : string) : string :=
  match s with
  | EmptyString => EmptyString
  | String a rest =>
      if unreserved a then String a (encodeURIComponent rest)
      else
        let n := N_of_ascii a in
        String "%" (String (hex_digit (n / 16)) (String (hex_digit (n mod 16))
          (encodeURIComponent rest)))
  end.

End StringUtils.

Module ScopeSet.

(** Modelled from the spec: the [ScopeSet] class is not among the sources.
    The spec describes an ordered, de-duplicated set of scope strings tied
    to a client id, to which the client id belongs when the set stands for
    a login request, with a union, a subset test and a serialisation that
    [fromString] reads back. *)
Record t := mk {
  clientId : string;
  scopes : list string;
  scopesRequired : bool
}.

(** Modelled from the spec: adding one scope to the ordered, de-duplicated
    set. *)
Definition add (acc : list string) (s : string) : list string :=
  if existsb (String.eqb s) acc then acc else acc ++ [s].

(** Modelled from the spec: adding several scopes, in their order. *)
Definition add_all (acc : list string) (l : list string) : list string :=
  fold_left add l acc.

(** Modelled from the spec: [new ScopeSet(inputScopes, appClientId,
    scopesRequired)] is not among the sources.  [createUrl] passes
    [!isLoginCall] for [scopesRequired], and a login call adds the client
    id to the scopes: when scopes are not required of the caller, the
    client id is a member. *)
Definition new (inputScopes : list string) (appClientId : string)
    (required : bool) : t :=
  let given :=
    add_all [] (filter (fun s => Js.truthy_string s = true) inputScopes) in
  {| clientId := appClientId;
     scopes := if required then given else add given appClientId;
     scopesRequired := required |}.

(** Modelled from the spec: [appendScopes], the union with further
    scopes; an absent argument adds nothing. *)
Definition appendScopes (newScopes : option (list string)) (s : t) : t :=
  match newScopes with
  | Some l =>
      {| clientId := clientId s;
         scopes := add_all (scopes s)
                     (filter (fun x => Js.truthy_string x = true) l);
         scopesRequired := scopesRequired s |}
  | None => s
  end.

(** Modelled from the spec: [asArray], the scopes in their order. *)
Definition asArray (s : t) : list string := scopes s.

(** Modelled from the spec: [printScopes], the scopes joined by blanks,
    the form [fromString] reads back. *)
Definition printScopes (s : t) : string := String.concat " " (scopes s).

(** Modelled from the spec: [ScopeSet.fromString], the set of the scopes in
    a blank-separated string. *)
Definition fromString (str : string) (appClientId : string)
    (required : bool) : t :=
  new (StringUtils.split_spaces str) appClientId required.

(** Modelled from the spec: membership of one scope. *)
Definition containsScope (s : t) (scope : string) : bool :=
  existsb (String.eqb scope) (scopes s).

(** Modelled from the spec: [containsScopeSet], the subset test: every
    scope of [other] is a scope of [s]. *)
Definition containsScopeSet (s : t) (other : t) : bool :=
  forallb (containsScope s) (scopes other).

(** Modelled from the spec: [isLoginScopeSet]; the set stands for a login
    request when the client id is among its scopes. *)
Definition isLoginScopeSet (s : t) : bool := containsScope s (clientId s).

End ScopeSet.

(** ** Data of the client *)

Module Client.

(** The errors the client raises.  The constructors are named after the
    factory functions of [ClientAuthError], [ClientConfigurationError]
    and [ServerError] that the source calls; [NetworkError] is what a
    failing transport raises and [RuntimeError] what the language itself
    raises ([SyntaxError], [TypeError]). *)
Inductive AuthError :=
| RedirectUriEmptyError
| EmptyTokenRequestError
| InvalidPromptError (prompt : string)
| EndpointDiscoveryIncompleteError (cause : AuthError)
| TokenRequestCannotBeMadeError
| TokenRequestCacheError (cause : AuthError)
| NoTokensFoundError (scopes : string)
| MultipleMatchingTokensInCacheError (scopes : string)
| UserLoginRequiredError
| ServerError (code : string) (description : option string)
| NetworkError (cause : string)
| RuntimeError (message : string).

(** What a call ends with: the value it returns or the error it throws. *)
Inductive Outcome (A : Type) :=
| Returned (a : A)
| Thrown (e : AuthError).
Arguments Returned {A} a.
Arguments Thrown {A} e.

(** The request, response and cache types are declared in files of the
    common package that are not among the sources; each record below has
    the fields that [SPAClient] reads or writes, under the names the source
    uses (with a prefix where two types share a field name). *)

(** [Account]: the class reads [homeAccountIdentifier] and [userName]. *)
Record Account := mkAccount {
  homeAccountIdentifier : string;
  userName : string
}.

(** The claims of a decoded ID token. *)
Definition Claims : Type := list (string * string).

(** [IdToken]: the raw token and its claims. *)
Record IdToken := mkIdToken {
  rawIdToken : string;
  claims : Claims
}.

(** [ClientInfo], the decoded client-info blob. *)
Record ClientInfo := mkClientInfo {
  uid : string;
  utid : string
}.

(** [PkceCodes], a verifier and its challenge. *)
Record PkceCodes := mkPkce {
  verifier : string;
  challenge : string
}.

(** [AuthenticationParameters], the request of [createUrl]. *)
Record AuthenticationParameters := mkAuthParams {
  ap_scopes : option (list string);
  ap_extraScopesToConsent : option (list string);
  ap_authority : option string;
  ap_correlationId : option string;
  ap_userRequestState : option string;
  ap_prompt : option string;
  ap_account : option Account;
  ap_loginHint : option string;
  ap_extraQueryParameters : option (list (string * string))
}.

(** [TokenExchangeParameters], the request cached between the two legs of
    the flow and handed to the token endpoint. *)
Record TokenExchangeParameters := mkExchange {
  te_scopes : option (list string);
  te_resource : option string;
  te_authority : option string;
  te_codeVerifier : option string
}.

(** [TokenRenewParameters], the request of [getValidToken]. *)
Record TokenRenewParameters := mkRenew {
  tr_scopes : option (list string);
  tr_resource : option string;
  tr_authority : option string;
  tr_account : option Account;
  tr_forceRefresh : option bool
}.

(** A renew request seen as the exchange request it extends. *)
Definition renew_as_exchange (r : TokenRenewParameters) : TokenExchangeParameters :=
  {| te_scopes := tr_scopes r;
     te_resource := tr_resource r;
     te_authority := tr_authority r;
     te_codeVerifier := None |}.

(** [request.authority = value]. *)
Definition set_tr_authority (a : option string) (r : TokenRenewParameters)
    : TokenRenewParameters :=
  {| tr_scopes := tr_scopes r;
     tr_resource := tr_resource r;
     tr_authority := a;
     tr_account := tr_account r;
     tr_forceRefresh := tr_forceRefresh r |}.

(** [parsedRequest.authority = value]. *)
Definition set_te_authority (a : option string) (r : TokenExchangeParameters)
    : TokenExchangeParameters :=
  {| te_scopes := te_scopes r;
     te_resource := te_resource r;
     te_authority := a;
     te_codeVerifier := te_codeVerifier r |}.

(** [CodeResponse], what [handleFragmentResponse] hands to
    [acquireToken]. *)
Record CodeResponse := mkCodeResponse {
  code : option string;
  cr_userRequestState : string
}.

(** [TokenResponse], with the fields of the object literal in
    [getValidToken]. *)
Record TokenResponse := mkTokenResponse {
  uniqueId : string;
  tenantId : string;
  tr_scopes_granted : list string;
  tokenType : string;
  idToken : string;
  idTokenClaims : option Claims;
  accessToken : string;
  refreshToken : string;
  expiresOn : Js.Date;
  account : option Account;
  userRequestState : string
}.

(** The body of a token endpoint response. *)
Record ServerAuthorizationTokenResponse := mkServerResponse {
  access_token : string;
  refresh_token : string;
  id_token : string;
  client_info : string;
  expires_in : Z;
  token_type : string;
  scope : string;
  error : option string;
  error_description : option string
}.

(** [AccessTokenCacheItem]: the composite key and the value of a cached
    credential. *)
Record AccessTokenKey := mkKey {
  key_clientId : string;
  key_authority : string;
  key_scopes : string;
  key_homeAccountIdentifier : string;
  key_resource : string
}.

Record AccessTokenValue := mkValue {
  val_accessToken : string;
  val_refreshToken : string;
  val_idToken : string;
  val_tokenType : string;
  val_expiresOnSec : string
}.

Record AccessTokenCacheItem := mkItem {
  key : AccessTokenKey;
  value : AccessTokenValue
}.

(** The endpoints that discovery yields for an authority. *)
Record Endpoints := mkEndpoints {
  ep_authorization : string;
  ep_token : string;
  ep_endSession : string
}.

Record Authority := mkAuthority {
  canonicalAuthority : string;
  tenantDiscoveryResponse : option Endpoints
}.

(** [acquireTokenAuthority] is either the instance kept in
    [this.defaultAuthority] or one that the call has just created. *)
Inductive AuthorityRef :=
| DefaultAuthority
| CreatedAuthority (a : Authority).

(** A form-encoded request to the token endpoint: fields and headers. *)
Record TokenRequestPayload := mkPayload {
  body : list (string * string);
  headers : list (string * string)
}.

Inductive NetworkResult :=
| Responded (response : ServerAuthorizationTokenResponse)
| Failed (cause : string).

(** The calls that leave the client: discovery of an authority's
    endpoints, a POST to a token endpoint, and a query of the token cache. *)
Inductive Event :=
| Discovery (authority : string)
| Post (endpoint : string) (payload : TokenRequestPayload)
| TokenLookup (clientId authority resource homeAccountIdentifier : string).

Definition is_post (e : Event) : bool :=
  match e with
  | Post _ _ => true
  | _ => false
  end.

Definition is_network (e : Event) : bool :=
  match e with
  | Discovery _ | Post _ _ => true
  | TokenLookup _ _ _ _ => false
  end.

(** [redirectUri: string | (() => string)], possibly not configured. *)
Inductive RedirectUri :=
| NotConfigured
| UriString (uri : string)
| UriFunction (f : unit -> string).

(** [ICrypto].  The [nat] is the number of random values drawn so far, so
    that successive calls may differ; a decoder answers [None] where the
    implementation raises. *)
Record ICrypto := mkCrypto {
  createNewGuid : nat -> string;
  generatePkceCodes : nat -> PkceCodes;
  base64Decode : string -> option string
}.

(** [INetworkModule], together with the server behind it: what a POST to
    an endpoint answers, and what discovery finds for an authority. *)
Record INetworkModule := mkNetwork {
  sendPostRequestAsync : string -> TokenRequestPayload -> NetworkResult;
  discover : string -> string + Endpoints
}.

(** What [JSON.parse] makes of a string that is read as
    [TokenExchangeParameters]: an object, whose fields are those of the
    request that it has, or a value that is no object ([null], a number, a
    string or a boolean). *)
Inductive ParsedRequest :=
| NoObject
| RequestObject (request : TokenExchangeParameters).

(** Decoders of the common package that are not among the sources: the
    claims of a raw ID token, the decoded client-info blob, and the account
    made of the two.  Each is handed the crypto object to decode with and
    throws when it cannot decode.  [parseRequest] is [JSON.parse] on the
    decoded request parameters, with [None] for a syntax error. *)
Record Decoders := mkDecoders {
  extractIdToken : ICrypto -> string -> Outcome Claims;
  buildClientInfo : ICrypto -> string -> Outcome ClientInfo;
  createAccount : ICrypto -> IdToken -> ClientInfo -> Outcome Account;
  parseRequest : string -> option ParsedRequest
}.

Record AuthOptions := mkAuthOptions {
  clientId : string;
  redirectUri : RedirectUri
}.

Record SystemOptions := mkSystemOptions {
  tokenRenewalOffsetSeconds : Js.number
}.

Record ClientConfiguration := mkConfig {
  authOptions : AuthOptions;
  systemOptions : SystemOptions;
  cryptoInterface : ICrypto;
  networkInterface : INetworkModule;
  decoders : Decoders
}.

(** The mutable state a call can see: the fields of the client instance,
    the storage behind [cacheStorage] and [cacheManager], the clock, and
    the calls made so far. *)
Record World := mkWorld {
  w_account : option Account;
  w_cacheStorage : gmap string string;
  w_tokenCache : list AccessTokenCacheItem;
  w_defaultAuthority : Authority;
  w_randomDrawn : nat;
  w_nowSeconds : Z;
  w_trace : list Event
}.

Definition set_account (a : option Account) (w : World) : World :=
  mkWorld a (w_cacheStorage w) (w_tokenCache w) (w_defaultAuthority w)
    (w_randomDrawn w) (w_nowSeconds w) (w_trace w).

Definition set_cacheStorage (s : gmap string string) (w : World) : World :=
  mkWorld (w_account w) s (w_tokenCache w) (w_defaultAuthority w)
    (w_randomDrawn w) (w_nowSeconds w) (w_trace w).

Definition set_tokenCache (c : list AccessTokenCacheItem) (w : World) : World :=
  mkWorld (w_account w) (w_cacheStorage w) c (w_defaultAuthority w)
    (w_randomDrawn w) (w_nowSeconds w) (w_trace w).

Definition set_defaultAuthority (a : Authority) (w : World) : World :=
  mkWorld (w_account w) (w_cacheStorage w) (w_tokenCache w) a
    (w_randomDrawn w) (w_nowSeconds w) (w_trace w).

Definition set_randomDrawn (n : nat) (w : World) : World :=
  mkWorld (w_account w) (w_cacheStorage w) (w_tokenCache w)
    (w_defaultAuthority w) n (w_nowSeconds w) (w_trace w).

Definition add_event (e : Event) (w : World) : World :=
  mkWorld (w_account w) (w_cacheStorage w) (w_tokenCache w)
    (w_defaultAuthority w) (w_randomDrawn w) (w_nowSeconds w)
    (w_trace w ++ [e]).

(** *** Computations that may throw *)

Definition M (A : Type) : Type := World -> Outcome A * World.

Definition ret {A} (a : A) : M A := fun w => (Returned a, w).

Definition throw {A} (e : AuthError) : M A := fun w => (Thrown e, w).

(** A call that does not touch the state. *)
Definition lift {A} (o : Outcome A) : M A := fun w => (o, w).

Definition bind {A B} (m : M A) (k : A -> M B) : M B :=
  fun w =>
    match m w with
    | (Returned a, w') => k a w'
    | (Thrown e, w') => (Thrown e, w')
    end.

(** [try { m } catch (e) { handler e }]: what [m] did to the state before
    it threw stays done. *)
Definition try_catch {A} (m : M A) (handler : AuthError -> M A) : M A :=
  fun w =>
    match m w with
    | (Returned a, w') => (Returned a, w')
    | (Thrown e, w') => handler e w'
    end.

Definition get : M World := fun w => (Returned w, w).

Definition modify (f : World -> World) : M unit := fun w => (Returned tt, f w).

Definition emit (e : Event) : M unit := modify (add_event e).

Declare Scope client_scope.
Delimit Scope client_scope with client.
Notation "x <- m ;; k" := (bind m (fun x => k))
  (at level 100, m at next level, right associativity) : client_scope.
Notation "m ;; k" := (bind m (fun _ => k))
  (at level 100, right associativity) : client_scope.
Local Open Scope client_scope.

(** *** Constants of the common package

    Modelled from the spec: [TemporaryCacheKeys], [PersistentCacheKeys]
    and [Constants] are not among the sources; the spec names the entries
    (request parameters, request state, requested authority, persisted ID
    token and client info) and the wire parameters. *)
Definition REQUEST_PARAMS : string := "request.params".
Definition REQUEST_STATE : string := "request.state".
Definition AUTHORITY_KEY : string := "authority".
Definition RESOURCE_DELIM : string := "|".
Definition ID_TOKEN_KEY : string := "idtoken".
Definition CLIENT_INFO_KEY : string := "client.info".
Definition FRAGMENT_RESPONSE_MODE : string := "fragment".
Definition S256_CODE_CHALLENGE_METHOD : string := "S256".

(** *** Helpers of the common package, modelled from the spec *)

(** Modelled from the spec: [ProtocolUtils.setRequestState] is not among
    the sources; the state value embeds the caller's state next to a fresh
    random token. *)
Definition setRequestState (userState : option string) (randomGuid : string)
    : string :=
  if StringUtils.isEmpty userState then randomGuid
  else randomGuid ++ RESOURCE_DELIM ++ Js.or_default userState "".

(** Modelled from the spec: [CacheManager.generateAuthorityKey] is not
    among the sources; the requested authority is kept under a key made
    of the state value. *)
Definition generateAuthorityKey (state : string) : string :=
  AUTHORITY_KEY ++ RESOURCE_DELIM ++ state.

(** Modelled from the spec: [CacheManager.resetTempCacheItems] is not
    among the sources; it removes the Temporary Request State (request
    parameters, request state, and the authority kept for the given state
    value), and is safe when there is nothing to remove. *)
Definition resetTempCacheItems (state : option string) : M unit :=
  modify (fun w =>
    let s := w_cacheStorage w in
    let s := if Js.truthy_ostring state
             then delete (generateAuthorityKey (Js.or_default state "")) s
             else s in
    set_cacheStorage (delete REQUEST_PARAMS (delete REQUEST_STATE s)) w).

(** Modelled from the spec: one criterion of the cache query; the
    authority, resource and home account of the query are optional, and an
    empty criterion matches every entry. *)
Definition criterion_matches (criterion actual : string) : bool :=
  Js.str_is_empty criterion || String.eqb criterion actual.

(** Modelled from the spec: a composite key matches the query when its
    client id, authority, resource and home account identifier do. *)
Definition key_matches (cid authorityUri resourceId homeId : string)
    (k : AccessTokenKey) : bool :=
  criterion_matches cid (key_clientId k)
  && criterion_matches authorityUri (key_authority k)
  && criterion_matches resourceId (key_resource k)
  && criterion_matches homeId (key_homeAccountIdentifier k).

(** Modelled from the spec: the cached entries whose key matches the
    query, in the order of the cache. *)
Definition matching_tokens (cid authorityUri resourceId homeId : string)
    (cache : list AccessTokenCacheItem) : list AccessTokenCacheItem :=
  List.filter (fun item => key_matches cid authorityUri resourceId homeId (key item))
    cache.

(** Modelled from the spec: [CacheManager.getAllAccessTokens] is not among
    the sources; it answers the cached entries that match the client id,
    authority, resource and home account identifier.  The call is
    recorded. *)
Definition getAllAccessTokens (cid authorityUri resourceId homeId : string)
    : M (list AccessTokenCacheItem) :=
  emit (TokenLookup cid authorityUri resourceId homeId) ;;
  w <- get ;;
  ret (matching_tokens cid authorityUri resourceId homeId (w_tokenCache w)).

(** Modelled from the spec: [RequestValidator.validateRedirectUri] is not
    among the sources; the redirect URI must be a non-empty value, or the
    configuration error for an empty redirect URI is thrown. *)
Definition validateRedirectUri (uri : string) : M unit :=
  if Js.str_is_empty uri then throw RedirectUriEmptyError else ret tt.

(** Modelled from the spec: the recognised values of [prompt]. *)
Definition prompt_values : list string :=
  ["login"; "select_account"; "consent"; "none"].

(** Modelled from the spec: [RequestValidator.validatePrompt] is not among
    the sources; a prompt that is none of the recognised values is
    refused. *)
Definition validatePrompt (prompt : string) : M unit :=
  if existsb (String.eqb prompt) prompt_values then ret tt
  else throw (InvalidPromptError prompt).

Module RequestParameterBuilder.

(** Modelled from the spec: the [RequestParameterBuilder] class is not
    among the sources; it collects the query parameters of the wire format
    in the order they are added and joins them. *)
Definition t : Type := list (string * string).

(** Modelled from the spec: [new RequestParameterBuilder()]. *)
Definition empty : t := [].

(** Modelled from the spec: whether a parameter is set. *)
Definition has (name : string) (p : t) : bool :=
  existsb (fun kv => String.eqb name (fst kv)) p.

(** Modelled from the spec: setting a parameter, in place when it is
    already there and at the end otherwise. *)
Definition set (name value : string) (p : t) : t :=
  if has name p
  then map (fun kv => if String.eqb name (fst kv) then (name, value) else kv) p
  else (p ++ [(name, value)])%list.

(** Modelled from the spec: the value of a parameter. *)
Definition lookup (name : string) (p : t) : option string :=
  snd <$> List.find (fun kv => String.eqb name (fst kv)) p.

(** Modelled from the spec: the [add...] methods set the parameters of the
    wire format ([client_id], [scope], [redirect_uri], the correlation id,
    [response_mode], [response_type=code], [code_challenge] and
    [code_challenge_method], [state], [prompt], [login_hint], [nonce]),
    each value URL-encoded. *)
Definition addClientId (cid : string) : t -> t :=
  set "client_id" (StringUtils.encodeURIComponent cid).
Definition addScopes (s : ScopeSet.t) : t -> t :=
  set "scope" (StringUtils.encodeURIComponent (ScopeSet.printScopes s)).
Definition addRedirectUri (uri : string) : t -> t :=
  set "redirect_uri" (StringUtils.encodeURIComponent uri).
Definition addCorrelationId (cid : string) : t -> t :=
  set "client-request-id" (StringUtils.encodeURIComponent cid).
Definition addResponseMode (mode : string) : t -> t :=
  set "response_mode" (StringUtils.encodeURIComponent mode).
Definition addResponseTypeCode : t -> t :=
  set "response_type" "code".
Definition addCodeChallengeParams (codeChallenge method : string) : t -> t :=
  fun p => set "code_challenge_method" (StringUtils.encodeURIComponent method)
             (set "code_challenge" (StringUtils.encodeURIComponent codeChallenge) p).
Definition addState (state : string) : t -> t :=
  set "state" (StringUtils.encodeURIComponent state).
Definition addPrompt (prompt : string) : t -> t :=
  set "prompt" (StringUtils.encodeURIComponent prompt).
Definition addLoginHint (hint : string) : t -> t :=
  set "login_hint" (StringUtils.encodeURIComponent hint).
Definition addNonce (nonce : string) : t -> t :=
  set "nonce" (StringUtils.encodeURIComponent nonce).
(** Modelled from the spec: extra query parameters of the caller never
    override a parameter that is already set. *)
Definition addExtraQueryParameters (eqp : option (list (string * string)))
    (p : t) : t :=
  match eqp with
  | Some l =>
      fold_left (fun acc kv => if has (fst kv) acc then acc else (acc ++ [kv])%list) l p
  | None => p
  end.

(** Modelled from the spec: [createQueryString] joins [name=value] pairs
    with [&]. *)
Definition createQueryString (p : t) : string :=
  String.concat "&" (map (fun kv => fst kv ++ "=" ++ snd kv) p).

End RequestParameterBuilder.

(** Modelled from the spec: [ServerTokenRequestParameters] is not among
    the sources; the form fields are those of the wire format, with
    [grant_type=authorization_code], the code and the PKCE verifier when
    a code response is given, and [grant_type=refresh_token] with the
    refresh token otherwise. *)
Definition ServerTokenRequestParameters (cid : string)
    (tokenRequest : TokenExchangeParameters) (codeResponse : option CodeResponse)
    (redirect : string) (refreshTokenArg : option string) : TokenRequestPayload :=
  let common :=
    [("client_id", cid);
     ("scope", String.concat " " (default [] (te_scopes tokenRequest)));
     ("redirect_uri", redirect)] in
  let grant :=
    match refreshTokenArg with
    | Some rt => [("grant_type", "refresh_token"); ("refresh_token", rt)]
    | None =>
        [("grant_type", "authorization_code");
         ("code", Js.or_default (codeResponse ≫= code) "");
         ("code_verifier", Js.or_default (te_codeVerifier tokenRequest) "")]
    end in
  {| body := common ++ grant;
     headers := [("Content-Type", "application/x-www-form-urlencoded;charset=utf-8")] |}.

(** Modelled from the spec: [AuthorityFactory.createInstance] and the
    [Authority] class are not among the sources; an authority exposes
    [discoveryComplete], [resolveEndpointsAsync] and, once resolved, its
    endpoints.  A new instance has not run discovery. *)
Definition createInstance (authorityUrl : string) : Authority :=
  {| canonicalAuthority := authorityUrl; tenantDiscoveryResponse := None |}.

(** Modelled from the spec: [discoveryComplete], whether the endpoints of
    the authority are known. *)
Definition discoveryComplete (a : Authority) : bool :=
  match tenantDiscoveryResponse a with
  | Some _ => true
  | None => false
  end.

(** Modelled from the spec: the [tokenEndpoint] property, known once
    discovery is complete, which is when the client reads it. *)
Definition tokenEndpoint (a : Authority) : string :=
  match tenantDiscoveryResponse a with
  | Some e => ep_token e
  | None => ""
  end.

(** The authority object behind [acquireTokenAuthority]. *)
Definition deref (r : AuthorityRef) : M Authority :=
  w <- get ;;
  ret (match r with
       | DefaultAuthority => w_defaultAuthority w
       | CreatedAuthority a => a
       end).

(** Equality of composite keys, field by field. *)
Definition key_eqb (a b : AccessTokenKey) : bool :=
  String.eqb (key_clientId a) (key_clientId b)
  && String.eqb (key_authority a) (key_authority b)
  && String.eqb (key_scopes a) (key_scopes b)
  && String.eqb (key_homeAccountIdentifier a) (key_homeAccountIdentifier b)
  && String.eqb (key_resource a) (key_resource b).

(** Modelled from the spec: [ResponseHandler.setResponseIdToken] is not
    among the sources; it populates the ID token of a response. *)
Definition setResponseIdToken (response : TokenResponse) (t : IdToken)
    : TokenResponse :=
  {| uniqueId := uniqueId response;
     tenantId := tenantId response;
     tr_scopes_granted := tr_scopes_granted response;
     tokenType := tokenType response;
     idToken := rawIdToken t;
     idTokenClaims := Some (claims t);
     accessToken := accessToken response;
     refreshToken := refreshToken response;
     expiresOn := expiresOn response;
     account := account response;
     userRequestState := userRequestState response |}.

(** Modelled from the spec:
    [ResponseHandler.validateServerAuthorizationTokenResponse] is not
    among the sources; it fails with a [ServerError] carrying the server's
    code and description whenever the body has an error field. *)
Definition validateServerAuthorizationTokenResponse
    (serverResponse : ServerAuthorizationTokenResponse) : M unit :=
  match error serverResponse with
  | Some errorCode => throw (ServerError errorCode (error_description serverResponse))
  | None => ret tt
  end.

Section WithConfiguration.

(** [this.config] *)
Variable config : ClientConfiguration.

Let appClientId : string := clientId (authOptions config).
Let crypto : ICrypto := cryptoInterface config.
Let net : INetworkModule := networkInterface config.
Let dec : Decoders := decoders config.

(** [this.config.cryptoInterface.createNewGuid()] *)
Definition newGuid : M string :=
  w <- get ;;
  modify (set_randomDrawn (S (w_randomDrawn w))) ;;
  ret (createNewGuid crypto (w_randomDrawn w)).

(** [this.config.cryptoInterface.generatePkceCodes()] *)
Definition newPkceCodes : M PkceCodes :=
  w <- get ;;
  modify (set_randomDrawn (S (w_randomDrawn w))) ;;
  ret (generatePkceCodes crypto (w_randomDrawn w)).

(** Modelled from the spec: [Authority.resolveEndpointsAsync] is not among
    the sources; it is one discovery round trip, which either fills in the
    endpoints of the instance or raises. *)
Definition resolveEndpointsAsync (r : AuthorityRef) : M AuthorityRef :=
  a <- deref r ;;
  emit (Discovery (canonicalAuthority a)) ;;
  match discover net (canonicalAuthority a) with
  | inl cause => throw (NetworkError cause)
  | inr endpoints =>
      let resolved :=
        {| canonicalAuthority := canonicalAuthority a;
           tenantDiscoveryResponse := Some endpoints |} in
      match r with
      | DefaultAuthority =>
          modify (set_defaultAuthority resolved) ;; ret DefaultAuthority
      | CreatedAuthority _ => ret (CreatedAuthority resolved)
      end
  end.

(** [try { await authority.resolveEndpointsAsync(); } catch (e) { throw
    ClientAuthError.createEndpointDiscoveryIncompleteError(e); }] *)
Definition resolveOrFail (r : AuthorityRef) : M AuthorityRef :=
  try_catch (resolveEndpointsAsync r)
    (fun e => throw (EndpointDiscoveryIncompleteError e)).

(** [if (!authority.discoveryComplete()) { ... }] around the above. *)
Definition resolveIfIncomplete (r : AuthorityRef) : M AuthorityRef :=
  a <- deref r ;;
  if negb (discoveryComplete a) then resolveOrFail r else ret r.

(** [authorityUrl ? AuthorityFactory.createInstance(authorityUrl,
    this.networkClient) : this.defaultAuthority] *)
Definition selectAuthority (authorityUrl : option string) : AuthorityRef :=
  if Js.truthy_ostring authorityUrl
  then CreatedAuthority (createInstance (Js.or_default authorityUrl ""))
  else DefaultAuthority.

(** [TimeUtils.nowSeconds()], declared in a file that is not among the
    sources: the clock, in whole seconds. *)
Definition nowSeconds (w : World) : Js.number := Js.of_Z (w_nowSeconds w).

(** Modelled from the spec: [new IdToken(rawIdToken, crypto)] is not among
    the sources; an ID token is its raw form together with the claims
    decoded from it, and there is none when the claims cannot be
    decoded. *)
Definition newIdToken (raw : string) : Outcome IdToken :=
  match extractIdToken dec crypto raw with
  | Returned claims => Returned (mkIdToken raw claims)
  | Thrown e => Thrown e
  end.

(** Modelled from the spec: [ResponseHandler.createTokenResponse] is not
    among the sources; it decodes the ID token (if present) and the
    client-info blob, computes the absolute expiry from [expires_in] and
    the current time, and writes the credential entry under its
    composite key. *)
Definition createTokenResponse
    (serverResponse : ServerAuthorizationTokenResponse)
    (authorityUri resource : option string) (state : option string)
    : M TokenResponse :=
  decodedIdToken <-
    (if Js.str_is_empty (id_token serverResponse) then ret None
     else t <- lift (newIdToken (id_token serverResponse)) ;; ret (Some t)) ;;
  responseAccount <-
    match decodedIdToken with
    | Some t =>
        if Js.str_is_empty (client_info serverResponse) then ret None
        else
          info <- lift (buildClientInfo dec crypto (client_info serverResponse)) ;;
          created <- lift (createAccount dec crypto t info) ;;
          ret (Some created)
    | None => ret None
    end ;;
  w <- get ;;
  let expiresOnSec := (w_nowSeconds w + expires_in serverResponse)%Z in
  let item :=
    {| key := {| key_clientId := appClientId;
                 key_authority := Js.or_default authorityUri "";
                 key_scopes := scope serverResponse;
                 key_homeAccountIdentifier :=
                   from_option homeAccountIdentifier "" responseAccount;
                 key_resource := Js.or_default resource "" |};
       value := {| val_accessToken := access_token serverResponse;
                   val_refreshToken := refresh_token serverResponse;
                   val_idToken := id_token serverResponse;
                   val_tokenType := token_type serverResponse;
                   val_expiresOnSec := pretty expiresOnSec |} |} in
  modify (set_tokenCache
            (List.filter (fun i => negb (key_eqb (key i) (key item))) (w_tokenCache w)
             ++ [item])) ;;
  let response :=
    {| uniqueId := "";
       tenantId := "";
       tr_scopes_granted :=
         ScopeSet.asArray (ScopeSet.fromString (scope serverResponse) appClientId true);
       tokenType := token_type serverResponse;
       idToken := "";
       idTokenClaims := None;
       accessToken := access_token serverResponse;
       refreshToken := refresh_token serverResponse;
       expiresOn := Js.TimeValue (expiresOnSec * 1000);
       account := responseAccount;
       userRequestState := Js.or_default state "" |} in
  ret (match decodedIdToken with
       | Some t => setResponseIdToken response t
       | None => response
       end).

(** *** The methods of [SPAClient] *)

(** [getRedirectUri] *)
Definition getRedirectUri : M string :=
  match redirectUri (authOptions config) with
  | UriFunction f => ret (f tt)
  | UriString uri =>
      if Js.truthy_string uri
      then (if negb (StringUtils.isEmpty (Some uri)) then ret uri
            else throw RedirectUriEmptyError)
      else throw RedirectUriEmptyError
  | NotConfigured => throw RedirectUriEmptyError
  end.

(** [getAccount] *)
Definition getAccount : M (option Account) :=
  w <- get ;;
  match w_account w with
  | Some a => ret (Some a)
  | None =>
      let rawIdToken := w_cacheStorage w !! ID_TOKEN_KEY in
      let rawClientInfo := w_cacheStorage w !! CLIENT_INFO_KEY in
      if negb (StringUtils.isEmpty rawIdToken)
         && negb (StringUtils.isEmpty rawClientInfo)
      then
        idToken <- lift (newIdToken (Js.or_default rawIdToken "")) ;;
        clientInfo <-
          lift (buildClientInfo dec crypto (Js.or_default rawClientInfo "")) ;;
        created <- lift (createAccount dec crypto idToken clientInfo) ;;
        modify (set_account (Some created)) ;;
        ret (Some created)
      else ret None
  end.

(** [createUrl] *)
Definition createUrl (request : option AuthenticationParameters)
    (isLoginCall : bool) : M string :=
  let acquireTokenAuthority := selectAuthority (request ≫= ap_authority) in
  resolveOrFail acquireTokenAuthority ;;
  let parameterBuilder := RequestParameterBuilder.empty in
  let parameterBuilder :=
    RequestParameterBuilder.addClientId appClientId parameterBuilder in
  let scopeset :=
    ScopeSet.new (default [] (request ≫= ap_scopes)) appClientId
      (negb isLoginCall) in
  let scopeset :=
    if isLoginCall
    then ScopeSet.appendScopes (request ≫= ap_extraScopesToConsent) scopeset
    else scopeset in
  let parameterBuilder :=
    RequestParameterBuilder.addScopes scopeset parameterBuilder in
  uri <- getRedirectUri ;;
  validateRedirectUri uri ;;
  uri <- getRedirectUri ;;
  let parameterBuilder :=
    RequestParameterBuilder.addRedirectUri uri parameterBuilder in
  correlationId <-
    (if Js.truthy_ostring (request ≫= ap_correlationId)
     then ret (Js.or_default (request ≫= ap_correlationId) "")
     else newGuid) ;;
  let parameterBuilder :=
    RequestParameterBuilder.addCorrelationId correlationId parameterBuilder in
  let parameterBuilder :=
    RequestParameterBuilder.addResponseMode FRAGMENT_RESPONSE_MODE
      parameterBuilder in
  let parameterBuilder :=
    RequestParameterBuilder.addResponseTypeCode parameterBuilder in
  generatedPkce <- newPkceCodes ;;
  let parameterBuilder :=
    RequestParameterBuilder.addCodeChallengeParams (challenge generatedPkce)
      S256_CODE_CHALLENGE_METHOD parameterBuilder in
  guid <- newGuid ;;
  let state := setRequestState (request ≫= ap_userRequestState) guid in
  let parameterBuilder :=
    RequestParameterBuilder.addState state parameterBuilder in
  parameterBuilder <-
    (if Js.truthy_ostring (request ≫= ap_prompt)
     then
       let prompt := Js.or_default (request ≫= ap_prompt) "" in
       validatePrompt prompt ;;
       ret (RequestParameterBuilder.addPrompt prompt parameterBuilder)
     else ret parameterBuilder) ;;
  let parameterBuilder :=
    match request with
    | Some r =>
        let loginHint :=
          if Js.truthy_ostring (userName <$> ap_account r)
          then Js.or_default (userName <$> ap_account r) ""
          else if Js.truthy_ostring (ap_loginHint r)
               then Js.or_default (ap_loginHint r) ""
               else "" in
        RequestParameterBuilder.addLoginHint loginHint parameterBuilder
    | None => parameterBuilder
    end in
  nonce <- newGuid ;;
  let parameterBuilder :=
    RequestParameterBuilder.addNonce nonce parameterBuilder in
  let parameterBuilder :=
    RequestParameterBuilder.addExtraQueryParameters
      (request ≫= ap_extraQueryParameters) parameterBuilder in
  ret (RequestParameterBuilder.createQueryString parameterBuilder).

Definition createLoginUrl (request : option AuthenticationParameters)
    : M string :=
  createUrl request true.

Definition createAcquireTokenUrl (request : option AuthenticationParameters)
    : M string :=
  createUrl request false.

(** [getCachedRequest].  A missing item reads [null], which the crypto
    providers cannot decode.  The stored item is removed as soon as it is
    parsed; a parsed value that is no object then makes the use of its
    [authority] a [TypeError] ([null] has no properties, and the module is
    strict code, where none can be set on a number, a string or a
    boolean).  Every failure inside the [try] block becomes a
    [TokenRequestCacheError]. *)
Definition getCachedRequest (state : string) : M TokenExchangeParameters :=
  try_catch
    (w <- get ;;
     let encodedTokenRequest := w_cacheStorage w !! REQUEST_PARAMS in
     decoded <-
       match encodedTokenRequest ≫= base64Decode crypto with
       | Some d => ret d
       | None => throw (RuntimeError "base64Decode")
       end ;;
     parsed <-
       match parseRequest dec decoded with
       | Some r => ret r
       | None => throw (RuntimeError "JSON.parse")
       end ;;
     modify (fun w => set_cacheStorage (delete REQUEST_PARAMS (w_cacheStorage w)) w) ;;
     match parsed with
     | NoObject => throw (RuntimeError "TypeError")
     | RequestObject parsedRequest =>
         if StringUtils.isEmpty (te_authority parsedRequest)
         then
           w <- get ;;
           let authorityKey := generateAuthorityKey state in
           let cachedAuthority := w_cacheStorage w !! authorityKey in
           ret (set_te_authority cachedAuthority parsedRequest)
         else ret parsedRequest
     end)
    (fun err => throw (TokenRequestCacheError err)).

(** The scope filter of [getCachedTokens]. *)
Definition scopes_match (requestScopes : ScopeSet.t)
    (cacheItem : AccessTokenCacheItem) : bool :=
  let cachedScopes :=
    ScopeSet.fromString (key_scopes (key cacheItem)) appClientId true in
  ScopeSet.containsScopeSet cachedScopes requestScopes.

(** [getCachedTokens] *)
Definition getCachedTokens (requestScopes : ScopeSet.t)
    (authorityUri : string) (resourceId homeAccountId : option string)
    : M AccessTokenCacheItem :=
  tokenCacheItems <-
    getAllAccessTokens appClientId authorityUri
      (Js.or_default resourceId "") (Js.or_default homeAccountId "") ;;
  if (length tokenCacheItems =? 0)%nat
  then throw (NoTokensFoundError (ScopeSet.printScopes requestScopes))
  else
    let filteredCacheItems :=
      List.filter (scopes_match requestScopes) tokenCacheItems in
    match filteredCacheItems with
    | _ :: _ :: _ =>
        throw (MultipleMatchingTokensInCacheError
                 (ScopeSet.printScopes requestScopes))
    | [single] => ret single
    | [] => throw (NoTokensFoundError (ScopeSet.printScopes requestScopes))
    end.

(** [getTokenResponse] *)
Definition getTokenResponse (endpoint : string)
    (tokenReqParams : TokenRequestPayload)
    (tokenRequest : TokenExchangeParameters)
    (codeResponse : option CodeResponse) : M TokenResponse :=
  emit (Post endpoint tokenReqParams) ;;
  match sendPostRequestAsync net endpoint tokenReqParams with
  | Failed cause => throw (NetworkError cause)
  | Responded acquiredBody =>
      validateServerAuthorizationTokenResponse acquiredBody ;;
      tokenResponse <-
        createTokenResponse acquiredBody (te_authority tokenRequest)
          (te_resource tokenRequest) (cr_userRequestState <$> codeResponse) ;;
      modify (set_account (account tokenResponse)) ;;
      ret tokenResponse
  end.

(** [renewToken] *)
Definition renewToken (refreshTokenRequest : TokenRenewParameters)
    (endpoint : string) (refreshTokenArg : string) : M TokenResponse :=
  redirect <- getRedirectUri ;;
  let tokenReqParams :=
    ServerTokenRequestParameters appClientId
      (renew_as_exchange refreshTokenRequest) None redirect
      (Some refreshTokenArg) in
  getTokenResponse endpoint tokenReqParams
    (renew_as_exchange refreshTokenRequest) None.

(** The [catch] clause shared by [acquireToken] and [getValidToken]:
    reset the temporary cache items, forget the account, re-throw. *)
Definition resetAndRethrow {A} (state : option string) (e : AuthError) : M A :=
  resetTempCacheItems state ;;
  modify (set_account None) ;;
  throw e.

(** The [try] block of [acquireToken]. *)
Definition acquireToken_try (codeResponse : option CodeResponse)
    : M TokenResponse :=
  match codeResponse with
  | None => throw TokenRequestCannotBeMadeError
  | Some cr =>
      if StringUtils.isEmpty (code cr) then throw TokenRequestCannotBeMadeError
      else
        tokenRequest <- getCachedRequest (cr_userRequestState cr) ;;
        acquireTokenAuthority <-
          resolveIfIncomplete (selectAuthority (te_authority tokenRequest)) ;;
        authority <- deref acquireTokenAuthority ;;
        redirect <- getRedirectUri ;;
        let tokenReqParams :=
          ServerTokenRequestParameters appClientId tokenRequest (Some cr)
            redirect None in
        getTokenResponse (tokenEndpoint authority) tokenReqParams tokenRequest
          (Some cr)
  end.

(** [acquireToken]: the token response is awaited inside the [try]
    block, so the [catch] clause sees every failure of the exchange. *)
Definition acquireToken (codeResponse : option CodeResponse) : M TokenResponse :=
  try_catch (acquireToken_try codeResponse)
    (resetAndRethrow (cr_userRequestState <$> codeResponse)).

(** What the [try] block of [getValidToken] returns: a response built
    from the cache, or the promise of a [renewToken] call with these
    arguments. *)
Inductive Completion :=
| Built (response : TokenResponse)
| Renewing (request : TokenRenewParameters) (endpoint : string)
    (refreshTokenArg : string).

(** The response [getValidToken] builds from a cached entry. *)
Definition cachedTokenResponse (cachedTokenItem : AccessTokenCacheItem)
    (requestAccount : option Account) : Outcome TokenResponse :=
  let expirationSec := Js.Number (val_expiresOnSec (value cachedTokenItem)) in
  let cachedScopes :=
    ScopeSet.fromString (key_scopes (key cachedTokenItem)) appClientId true in
  let defaultTokenResponse :=
    {| uniqueId := "";
       tenantId := "";
       tr_scopes_granted := ScopeSet.asArray cachedScopes;
       tokenType := val_tokenType (value cachedTokenItem);
       idToken := "";
       idTokenClaims := None;
       accessToken := val_accessToken (value cachedTokenItem);
       refreshToken := val_refreshToken (value cachedTokenItem);
       expiresOn := Js.new_Date (Js.mul expirationSec (Js.of_Z 1000));
       account := requestAccount;
       userRequestState := "" |} in
  if StringUtils.isEmpty (Some (val_idToken (value cachedTokenItem)))
  then Returned defaultTokenResponse
  else
    match newIdToken (val_idToken (value cachedTokenItem)) with
    | Returned t => Returned (setResponseIdToken defaultTokenResponse t)
    | Thrown e => Thrown e
    end.

(** The test [!request.forceRefresh && expirationSec && expirationSec >
    offsetCurrentTimeSec]. *)
Definition cacheStillValid (request : TokenRenewParameters)
    (cachedTokenItem : AccessTokenCacheItem) (now : Js.number) : bool :=
  let expirationSec := Js.Number (val_expiresOnSec (value cachedTokenItem)) in
  let offsetCurrentTimeSec :=
    Js.add now (tokenRenewalOffsetSeconds (systemOptions config)) in
  negb (Js.truthy_obool (tr_forceRefresh request))
  && Js.truthy_number expirationSec
  && Js.gt expirationSec offsetCurrentTimeSec.

(** What the first half of the [try] block of [getValidToken] settles:
    the account, the requested scopes and the authority. *)
Record Resolved := mkResolved {
  rs_account : option Account;
  rs_scopes : ScopeSet.t;
  rs_authority : Authority
}.

(** The [try] block of [getValidToken] up to the cache lookup: the
    account of the request or of [getAccount], the login check, and the
    authority with its discovery. *)
Definition resolveRenewRequest (request : TokenRenewParameters) : M Resolved :=
  requestAccount <-
    match tr_account request with
    | Some a => ret (Some a)
    | None => getAccount
    end ;;
  let requestScopes :=
    ScopeSet.new (default [] (tr_scopes request)) appClientId true in
  (if ScopeSet.isLoginScopeSet requestScopes
   then match requestAccount with
        | None => throw UserLoginRequiredError
        | Some _ => ret tt
        end
   else ret tt) ;;
  acquireTokenAuthority <-
    resolveIfIncomplete (selectAuthority (tr_authority request)) ;;
  authority <- deref acquireTokenAuthority ;;
  ret (mkResolved requestAccount requestScopes authority).

(** The rest of the [try] block: the cache lookup and the choice
    between the cached entry and a renewal. *)
Definition answerFromCache (request : TokenRenewParameters) (r : Resolved)
    : M Completion :=
  cachedTokenItem <-
    getCachedTokens (rs_scopes r) (canonicalAuthority (rs_authority r))
      (tr_resource request) (homeAccountIdentifier <$> rs_account r) ;;
  w <- get ;;
  if cacheStillValid request cachedTokenItem (nowSeconds w)
  then
    response <- lift (cachedTokenResponse cachedTokenItem (rs_account r)) ;;
    ret (Built response)
  else
    let request :=
      set_tr_authority (Some (key_authority (key cachedTokenItem))) request in
    ret (Renewing request (tokenEndpoint (rs_authority r))
           (val_refreshToken (value cachedTokenItem))).

(** The [try] block of [getValidToken]. *)
Definition getValidToken_try (request : option TokenRenewParameters)
    : M Completion :=
  match request with
  | None => throw EmptyTokenRequestError
  | Some request =>
      r <- resolveRenewRequest request ;;
      answerFromCache request r
  end.

(** [getValidToken].  The renewal branch ends in [return
    this.renewToken(...)], which hands the promise back without
    awaiting it; as the comment in [acquireToken] says, what such a
    promise throws is caught by the caller and not by the [catch]
    clause of this function, which by then has been left. *)
Definition getValidToken (request : option TokenRenewParameters)
    : M TokenResponse :=
  completion <- try_catch (getValidToken_try request) (resetAndRethrow None) ;;
  match completion with
  | Built response => ret response
  | Renewing renewRequest endpoint refreshTokenArg =>
      renewToken renewRequest endpoint refreshTokenArg
  end.

(** *** Logout and cancellation *)

(** [this.config.authOptions.postLogoutRedirectUri], configured like the
    redirect URI. *)
Variable postLogoutRedirectUri : RedirectUri.

(** [AADServerParamKeys.POST_LOGOUT_URI], declared in a file that is not
    among the sources: the name of the logout parameter. *)
Definition POST_LOGOUT_URI : string := "post_logout_redirect_uri".

(** [getPostLogoutRedirectUri].  It does not touch the state; [None] is
    where the source throws the configuration error for an empty
    post-logout redirect URI. *)
Definition getPostLogoutRedirectUri : option string :=
  match postLogoutRedirectUri with
  | UriFunction f => Some (f tt)
  | UriString uri =>
      if Js.truthy_string uri
      then (if negb (StringUtils.isEmpty (Some uri)) then Some uri else None)
      else None
  | NotConfigured => None
  end.

(** Modelled from the spec: [CacheManager.removeAllAccessTokens] is not
    among the sources; it removes the cached access tokens that match the
    client id, authority, resource and home account identifier. *)
Definition removeAllAccessTokens (cid : string) (authorityUri : option string)
    (resourceId homeId : string) : M unit :=
  modify (fun w =>
    set_tokenCache
      (List.filter
         (fun item =>
            negb (key_matches cid (Js.or_default authorityUri "") resourceId homeId
                    (key item)))
         (w_tokenCache w))
      w).

(** Modelled from the spec: [ICacheStorage.clear] as [SPAClient] uses it, a
    full clear of the cache storage. *)
Definition clearCacheStorage : M unit :=
  modify (set_cacheStorage ∅).

(** Modelled from the spec: the [endSessionEndpoint] property of an
    authority, known once discovery is complete. *)
Definition endSessionEndpoint (a : Authority) : string :=
  match tenantDiscoveryResponse a with
  | Some e => ep_endSession e
  | None => ""
  end.

(** The query part of the logout URI: [try { ... = `?${POST_LOGOUT_URI}=` +
    encodeURIComponent(this.getPostLogoutRedirectUri()); } catch (e) {}]
    on a variable that starts as the empty string. *)
Definition postLogoutQuery : string :=
  match getPostLogoutRedirectUri with
  | Some uri => "?" ++ POST_LOGOUT_URI ++ "=" ++ StringUtils.encodeURIComponent uri
  | None => ""
  end.

(** [logout] *)
Definition logout (authorityUri : option string) : M string :=
  currentAccount <- getAccount ;;
  let homeAccountId :=
    match currentAccount with
    | Some a => homeAccountIdentifier a
    | None => ""
    end in
  removeAllAccessTokens appClientId authorityUri "" homeAccountId ;;
  clearCacheStorage ;;
  modify (set_account None) ;;
  let postLogoutRedirect := postLogoutQuery in
  acquireTokenAuthority <- resolveIfIncomplete (selectAuthority authorityUri) ;;
  authority <- deref acquireTokenAuthority ;;
  ret (endSessionEndpoint authority ++ postLogoutRedirect).

(** [cancelRequest] *)
Definition cancelRequest : M unit :=
  w <- get ;;
  let cachedState := w_cacheStorage w !! REQUEST_STATE in
  resetTempCacheItems (Some (Js.or_default cachedState "")).

End WithConfiguration.

End Client.

(** ** The node [ClientApplication] class *)

Module ClientApplication.
Import Client.

(** [Constants.DEFAULT_AUTHORITY], declared in the common package: the
    authority used when the application configures none. *)
Definition DEFAULT_AUTHORITY : string :=
  "https://login.microsoftonline.com/common/".

(** The part of [Configuration] that the class reads: [auth.clientId],
    [auth.authority], [auth.knownAuthorities], [system.networkClient] and
    [system.loggerOptions.piiLoggingEnabled]. *)
Record Configuration := mkConfiguration {
  auth_clientId : string;
  auth_authority : option string;
  auth_knownAuthorities : list string;
  system_networkClient : INetworkModule;
  system_piiLoggingEnabled : bool
}.

(** [libraryInfo] of the configuration handed to the protocol clients. *)
Record LibraryInfo := mkLibraryInfo {
  sku : string;
  version : string;
  cpu : string;
  os : string
}.

(** What [libraryInfo] is built from: [NodeConstants.MSAL_SKU], the version
    of [package.json], and [process.arch] and [process.platform], which
    may be absent. *)
Record Platform := mkPlatform {
  MSAL_SKU : string;
  package_version : string;
  process_arch : option string;
  process_platform : option string
}.

(** The [ClientConfiguration] that [buildOauthClientConfiguration] returns.
    The logger callback, the crypto provider and the storage object are
    handed over by reference and are not read by this class; they have no
    field here. *)
Record OauthClientConfiguration := mkOauth {
  oauth_clientId : string;
  oauth_authority : Authority;
  oauth_knownAuthorities : list string;
  oauth_piiLoggingEnabled : bool;
  oauth_networkInterface : INetworkModule;
  oauth_libraryInfo : LibraryInfo
}.

(** The mutable part of an application object: the lazily created
    [_authority], and the discovery calls made so far. *)
Record t := mkApp {
  _authority : option Authority;
  calls : list Event
}.

Definition initial : t := {| _authority := None; calls := [] |}.

Section WithConfiguration.

(** [this.config] *)
Variable config : Configuration.

(** The process the application runs in. *)
Variable platform : Platform.

(** The protocol clients of the common package, which are not among the
    sources: each is constructed from a configuration and asked with the
    caller's request. *)
Variables AuthorizationUrlRequest AuthorizationCodeRequest RefreshTokenRequest
  AuthenticationResult : Type.
Variable url_authority : AuthorizationUrlRequest -> option string.
Variable code_authority : AuthorizationCodeRequest -> option string.
Variable refresh_authority : RefreshTokenRequest -> option string.
Variable AuthorizationCodeClient_getAuthCodeUrl :
  OauthClientConfiguration -> AuthorizationUrlRequest -> Outcome string.
Variable AuthorizationCodeClient_acquireToken :
  OauthClientConfiguration -> AuthorizationCodeRequest -> Outcome AuthenticationResult.
Variable RefreshTokenClient_acquireToken :
  OauthClientConfiguration -> RefreshTokenRequest -> Outcome AuthenticationResult.

(** [private get authority()]: the instance is created on first use, from
    the configured authority or the default one, and kept. *)
Definition authority (app : t) : Authority * t :=
  match _authority app with
  | Some a => (a, app)
  | None =>
      let created :=
        createInstance (Js.or_default (auth_authority config) DEFAULT_AUTHORITY) in
      (created, {| _authority := Some created; calls := calls app |})
  end.

(** [createAuthority]: the instance created for the given string, or the
    application's own; returned at once when its discovery is complete,
    and after one discovery round trip otherwise.  The round trip fills in
    the endpoints of the instance itself, so what it finds for the
    application's own instance stays in [_authority]. *)
Definition createAuthority (authorityString : option string) (app : t)
    : Outcome Authority * t :=
  let '(own, instance, app) :=
    if Js.truthy_ostring authorityString
    then (false, createInstance (Js.or_default authorityString ""), app)
    else let '(a, app') := authority app in (true, a, app') in
  if discoveryComplete instance then (Returned instance, app)
  else
    let called :=
      {| _authority := _authority app;
         calls := (calls app ++ [Discovery (canonicalAuthority instance)])%list |} in
    match discover (system_networkClient config) (canonicalAuthority instance) with
    | inl cause =>
        (Thrown (EndpointDiscoveryIncompleteError (NetworkError cause)), called)
    | inr endpoints =>
        let resolved :=
          {| canonicalAuthority := canonicalAuthority instance;
             tenantDiscoveryResponse := Some endpoints |} in
        (Returned resolved,
         if own then {| _authority := Some resolved; calls := calls called |}
         else called)
    end.

(** [buildOauthClientConfiguration] *)
Definition buildOauthClientConfiguration (authorityString : option string)
    (app : t) : Outcome OauthClientConfiguration * t :=
  match createAuthority authorityString app with
  | (Returned resolved, app') =>
      (Returned
         {| oauth_clientId := auth_clientId config;
            oauth_authority := resolved;
            oauth_knownAuthorities := auth_knownAuthorities config;
            oauth_piiLoggingEnabled := system_piiLoggingEnabled config;
            oauth_networkInterface := system_networkClient config;
            oauth_libraryInfo :=
              {| sku := MSAL_SKU platform;
                 version := package_version platform;
                 cpu := Js.or_default (process_arch platform) "";
                 os := Js.or_default (process_platform platform) "" |} |},
       app')
  | (Thrown e, app') => (Thrown e, app')
  end.

(** [getAuthCodeUrl] *)
Definition getAuthCodeUrl (request : AuthorizationUrlRequest) (app : t)
    : Outcome string * t :=
  match buildOauthClientConfiguration (url_authority request) app with
  | (Returned authClientConfig, app') =>
      (AuthorizationCodeClient_getAuthCodeUrl authClientConfig request, app')
  | (Thrown e, app') => (Thrown e, app')
  end.

(** [acquireTokenByCode] *)
Definition acquireTokenByCode (request : AuthorizationCodeRequest) (app : t)
    : Outcome AuthenticationResult * t :=
  match buildOauthClientConfiguration (code_authority request) app with
  | (Returned authClientConfig, app') =>
      (AuthorizationCodeClient_acquireToken authClientConfig request, app')
  | (Thrown e, app') => (Thrown e, app')
  end.

(** [acquireTokenByRefreshToken] *)
Definition acquireTokenByRefreshToken (request : RefreshTokenRequest) (app : t)
    : Outcome AuthenticationResult * t :=
  match buildOauthClientConfiguration (refresh_authority request) app with
  | (Returned refreshTokenClientConfig, app') =>
      (RefreshTokenClient_acquireToken refreshTokenClientConfig request, app')
  | (Thrown e, app') => (Thrown e, app')
  end.

End WithConfiguration.

End ClientApplication.

(** ** A concrete client, server and cache on which the model is run *)

Module Scenario.
Import Client.

(** A crypto object whose encoding is the identity on the strings it can
    decode; it cannot decode a string that starts with an exclamation
    mark. *)
Definition plainCrypto : ICrypto :=
  {| createNewGuid := fun n => "guid-" ++ pretty n;
     generatePkceCodes :=
       fun n => {| verifier := "verifier-" ++ pretty n;
                   challenge := "challenge-" ++ pretty n |};
     base64Decode :=
       fun s => match s with
                | String "!" _ => None
                | _ => Some s
                end |}.

(** Decoders that decode with the crypto object and throw when it cannot
    decode, and a parser of cached requests that reads [null] as such, the
    empty string as a syntax error and anything else as the scopes of a
    request. *)
Definition plainDecoders : Decoders :=
  {| extractIdToken :=
       fun crypto raw =>
         match base64Decode crypto raw with
         | Some decoded => Returned [("raw", decoded)]
         | None => Thrown (RuntimeError "base64Decode")
         end;
     buildClientInfo :=
       fun crypto raw =>
         match base64Decode crypto raw with
         | Some decoded => Returned {| uid := decoded; utid := decoded |}
         | None => Thrown (RuntimeError "base64Decode")
         end;
     createAccount :=
       fun _ t info =>
         Returned {| homeAccountIdentifier := uid info ++ "." ++ utid info;
                     userName := rawIdToken t |};
     parseRequest :=
       fun s => if Js.str_is_empty s then None
                else if String.eqb s "null" then Some NoObject
                else Some (RequestObject
                             {| te_scopes := Some (StringUtils.split_spaces s);
                                te_resource := None;
                                te_authority := None;
                                te_codeVerifier := None |}) |}.

Definition endpointsOf (authority : string) : Endpoints :=
  {| ep_authorization := authority ++ "/authorize";
     ep_token := authority ++ "/token";
     ep_endSession := authority ++ "/logout" |}.

Definition grantedBody : ServerAuthorizationTokenResponse :=
  {| access_token := "at-new"; refresh_token := "rt-new"; id_token := "";
     client_info := ""; expires_in := 3600; token_type := "Bearer";
     scope := "read"; error := None; error_description := None |}.

Definition refusedBody : ServerAuthorizationTokenResponse :=
  {| access_token := ""; refresh_token := ""; id_token := "";
     client_info := ""; expires_in := 0; token_type := "";
     scope := ""; error := Some "invalid_grant";
     error_description := Some "refresh token expired" |}.

(** A server whose token endpoint answers [answer] and whose discovery
    succeeds. *)
Definition server (answer : ServerAuthorizationTokenResponse) : INetworkModule :=
  {| sendPostRequestAsync := fun _ _ => Responded answer;
     discover := fun authority => inr (endpointsOf authority) |}.

(** A server whose discovery succeeds and whose token endpoint cannot be
    reached. *)
Definition tokenEndpointDown : INetworkModule :=
{| sendPostRequestAsync := fun _ _ => Failed "timeout";
   discover := fun authority => inr (endpointsOf authority) |}.

(** A server that cannot be reached for discovery. *)
Definition unreachable : INetworkModule :=
  {| sendPostRequestAsync := fun _ _ => Failed "offline";
     discover := fun _ => inl "offline" |}.

Definition configWith (redirect : RedirectUri) (net : INetworkModule)
    : ClientConfiguration :=
  {| authOptions := {| clientId := "app"; redirectUri := redirect |};
     systemOptions := {| tokenRenewalOffsetSeconds := Js.of_Z 300 |};
     cryptoInterface := plainCrypto;
     networkInterface := net;
     decoders := plainDecoders |}.

Definition config : ClientConfiguration :=
  configWith (UriString "https://app/cb") (server grantedBody).

Definition refusingConfig : ClientConfiguration :=
  configWith (UriString "https://app/cb") (server refusedBody).

Definition common : Authority :=
  {| canonicalAuthority := "https://login/common";
     tenantDiscoveryResponse := None |}.

Definition user : Account :=
  {| homeAccountIdentifier := "home"; userName := "user" |}.

Definition entry (refresh expiresOnSec : string) : AccessTokenCacheItem :=
  {| key := {| key_clientId := "app";
               key_authority := "https://login/common";
               key_scopes := "read write";
               key_homeAccountIdentifier := "home";
               key_resource := "" |};
     value := {| val_accessToken := "at"; val_refreshToken := refresh;
                 val_idToken := ""; val_tokenType := "Bearer";
                 val_expiresOnSec := expiresOnSec |} |}.

(** Nobody is signed in and nothing is cached; the clock reads 1000. *)
Definition fresh : World :=
  {| w_account := None; w_cacheStorage := ∅; w_tokenCache := [];
     w_defaultAuthority := common; w_randomDrawn := 0;
     w_nowSeconds := 1000; w_trace := [] |}.

(** [user] is signed in, an interactive request is pending, and the token
    cache holds the given entries; the clock reads 1000. *)
Definition signedIn (entries : list AccessTokenCacheItem) : World :=
  {| w_account := Some user;
     w_cacheStorage := {[ REQUEST_STATE := "pending" ]};
     w_tokenCache := entries;
     w_defaultAuthority := common; w_randomDrawn := 0;
     w_nowSeconds := 1000; w_trace := [] |}.

Definition readRequest : TokenRenewParameters :=
  {| tr_scopes := Some ["read"]; tr_resource := None; tr_authority := None;
     tr_account := None; tr_forceRefresh := None |}.

Definition loginRequest : AuthenticationParameters :=
  {| ap_scopes := Some ["read"]; ap_extraScopesToConsent := None;
     ap_authority := None; ap_correlationId := None;
     ap_userRequestState := None; ap_prompt := None; ap_account := None;
     ap_loginHint := None; ap_extraQueryParameters := None |}.

(** The storage class on natural numbers as objects, with keys that all
    name access tokens.  The object [0] is [Object.prototype]; its members
    are the functions numbered from [100] on.  The object [5] has a
    property [other] of its own; every other object has what it inherits
    from [Object.prototype] and nothing of its own. *)
Definition credentialTypeOf (k : string) : option Storage.CredentialType :=
  Some Storage.ACCESS_TOKEN.

Definition prototypeMembers : list string :=
  ["constructor"; "toString"; "toLocaleString"; "valueOf"; "hasOwnProperty";
   "isPrototypeOf"; "propertyIsEnumerable"; "__defineGetter__";
   "__defineSetter__"; "__lookupGetter__"; "__lookupSetter__"].

Definition memberOf (object : nat) (name : string) : option (Storage.Value nat) :=
  if Nat.eqb object 5 && String.eqb name "other"
  then Some (Storage.VString "leaked")
  else (fun found : nat * string => Storage.VObject (100 + fst found)%nat)
         <$> list_find (fun member => member = name) prototypeMembers.

Definition emptyStorage : Storage.t nat := Storage.initial 0%nat.

Definition storageWithAccount : Storage.t nat :=
  Storage.setItem credentialTypeOf "3" (Storage.VObject 7)
    (Some Storage.ACCOUNT) (Some true) emptyStorage.

(** The common authority after its discovery. *)
Definition commonResolved : Authority :=
{| canonicalAuthority := "https://login/common";
   tenantDiscoveryResponse := Some (endpointsOf "https://login/common") |}.

(** [user] is signed in, the discovery of the default authority is
    complete, and the token cache holds the given entries. *)
Definition signedInResolved (entries : list AccessTokenCacheItem) : World :=
{| w_account := Some user;
   w_cacheStorage := {[ REQUEST_STATE := "pending" ]};
   w_tokenCache := entries;
   w_defaultAuthority := commonResolved; w_randomDrawn := 0;
   w_nowSeconds := 1000; w_trace := [] |}.

(** A client with no redirect URI. *)
Definition configWithoutRedirect : ClientConfiguration :=
configWith NotConfigured (server grantedBody).

(** A code response whose code is empty. *)
Definition emptyCode : CodeResponse :=
{| code := Some ""; cr_userRequestState := "guid-2" |}.

End Scenario.

(** ** What the properties below observe of a run *)

Module Observe.
Import Client.

(** Unfolds the plumbing of a computation so that it runs on the state at
    hand. *)
Ltac run_client :=
  unfold bind, ret, throw, lift, try_catch, get, modify, emit in *; simpl in *.

(** No redirect URI is configured: the value is absent, or empty, or a
    function that returns the empty string. *)
Definition redirect_unconfigured (r : RedirectUri) : bool :=
match r with
| NotConfigured => true
| UriString uri => Js.str_is_empty uri
| UriFunction f => Js.str_is_empty (f tt)
end.

(** The posts to a token endpoint among the calls made so far. *)
Definition posts (w : World) : list Event := List.filter is_post (w_trace w).

(** The network calls (discovery and posts) among the calls made so far. *)
Definition network_calls (w : World) : list Event :=
List.filter is_network (w_trace w).

(** The state the [catch] clause of [acquireToken] and [getValidToken]
    leaves behind when it starts in [w]. *)
Definition after_cleanup (state : option string) (w : World) : World :=
set_account None (snd (resetTempCacheItems state w)).

(** The authority object behind a reference, in a given state. *)
Definition authority_at (r : AuthorityRef) (w : World) : Authority :=
match r with
| DefaultAuthority => w_defaultAuthority w
| CreatedAuthority a => a
end.

(** The cached entries that [getCachedTokens] is left with after its two
    filters, for given criteria and requested scopes. *)
Definition matches (config : ClientConfiguration) (requestScopes : ScopeSet.t)
    (authorityUri : string) (resourceId homeAccountId : option string)
    (w : World) : list AccessTokenCacheItem :=
List.filter (scopes_match config requestScopes)
  (matching_tokens (clientId (authOptions config)) authorityUri
     (Js.or_default resourceId "") (Js.or_default homeAccountId "")
     (w_tokenCache w)).

(** A computation that leaves an observation of the state as it was,
    whether it returns or throws. *)
Definition preserves {X A : Type} (observe : World -> X) (m : M A) : Prop :=
forall w, observe (snd (m w)) = observe w.

(** A computation that leaves an observation of the state as it was
    whenever it throws. *)
Definition untouched_on_failure {X A : Type} (observe : World -> X) (m : M A)
    : Prop :=
forall w e w', m w = (Thrown e, w') -> observe w' = observe w.

(** The five sections of the in-memory cache of [Storage]. *)
Inductive CacheSection :=
| Accounts
| AccessTokens
| RefreshTokens
| AppMetadata
| IdTokens.

#[global] Instance CacheSection_eq_dec : EqDecision CacheSection.
Proof. solve_decision. Defined.

(** The section that the [switch] statements of [Storage] select for a
    type and a key, if any. *)
Definition section_of (getCredentialType : string -> option Storage.CredentialType)
    (type : option Storage.CacheSchemaType) (key : string) : option CacheSection :=
match type with
| Some Storage.ACCOUNT => Some Accounts
| Some Storage.CREDENTIAL =>
    match getCredentialType key with
    | Some Storage.ID_TOKEN => Some IdTokens
    | Some Storage.ACCESS_TOKEN => Some AccessTokens
    | Some Storage.REFRESH_TOKEN => Some RefreshTokens
    | None => None
    end
| Some Storage.APP_META_DATA => Some AppMetadata
| None => None
end.

(** The entries of a section. *)
Definition entries {Entity : Type} (s : CacheSection)
    (c : Storage.InMemoryCache Entity) : Storage.Section Entity :=
match s with
| Accounts => Storage.accounts c
| AccessTokens => Storage.accessTokens c
| RefreshTokens => Storage.refreshTokens c
| AppMetadata => Storage.appMetadata c
| IdTokens => Storage.idTokens c
end.

(** A cache whose five sections inherit from [Object.prototype], as the
    object literals do that the class starts with. *)
Definition plain {Entity : Type} (Object_prototype : Entity)
    (c : Storage.InMemoryCache Entity) : Prop :=
forall s : CacheSection, Storage.prototype (entries s c) = Object_prototype.

(** The calls of the registered emitters that one [emitChange] makes. *)
Definition notifications {Entity : Type} (st : Storage.t Entity)
    : list Storage.Effect :=
map Storage.Emitted (Storage.changeEmitters st).

(** The discovery calls among the calls made so far. *)
Definition is_discovery (e : Event) : bool :=
match e with
| Discovery _ => true
| _ => false
end.

Definition discoveries (w : World) : list Event :=
List.filter is_discovery (w_trace w).

(** The calls other than discovery (posts and token lookups) among the
    calls made so far. *)
Definition other_calls (w : World) : list Event :=
List.filter (fun e => negb (is_discovery e)) (w_trace w).

(** The redirect URI is absent or the empty string: the two cases in which
    [getRedirectUri] throws. *)
Definition redirect_missing (r : RedirectUri) : bool :=
match r with
| NotConfigured => true
| UriString uri => Js.str_is_empty uri
| UriFunction _ => false
end.

End Observe.

(** * Properties of the numbers *)

Section NumberFacts.

Local Open Scope Z_scope.

Lemma scaled_whole (n k : Z) :
  0 <= k -> Js.scaled n 1 (- k) = (n * 2 ^ k, 1).
Proof.
  intros Hk. unfold Js.scaled.
  destruct (0 <=? - k) eqn:H.
  - apply Z.leb_le in H. assert (k = 0) by lia. subst k. simpl.
    f_equal; lia.
  - rewrite Z.opp_involutive. reflexivity.
Qed.

Lemma Qred_inject_Z (n : Z) : Qred (inject_Z n) = inject_Z n.
Proof.
  unfold Qred, inject_Z.
  pose proof (Z.ggcd_gcd n 1) as Hg.
  pose proof (Z.ggcd_correct_divisors n 1) as Hd.
  destruct (Z.ggcd n 1) as [g [aa bb]]. simpl in Hg.
  rewrite Z.gcd_1_r in Hg. subst g.
  destruct Hd as [Ha Hb]. rewrite Z.mul_1_l in Ha, Hb. subst. reflexivity.
Qed.

(** A whole number up to [2 ^ 53] is a double: rounding leaves it as it
    is. *)
Lemma round_positive_whole (n : Z) :
  0 < n <= 2 ^ 53 -> Js.round_positive n 1 = Js.Finite (inject_Z n).
Proof.
  intros [Hpos Hle].
  destruct (Z.eq_dec n (2 ^ 53)) as [-> | Hne]; [vm_compute; reflexivity|].
  assert (Hlt : n < 2 ^ 53) by lia.
  pose proof (Z.log2_spec n Hpos) as [Hlow Hhigh].
  pose proof (Z.log2_nonneg n) as Hnonneg.
  assert (Hlog : Z.log2 n <= 52).
  { destruct (Z_le_gt_dec (Z.log2 n) 52) as [H | H]; [exact H|].
    assert (2 ^ 53 <= 2 ^ Z.log2 n) by (apply Z.pow_le_mono_r; lia). lia. }
  unfold Js.round_positive.
  change (Z.log2 1) with 0. rewrite Z.sub_0_r.
  set (k := 52 - Z.log2 n).
  assert (Hk : 0 <= k) by (unfold k; lia).
  replace (Z.log2 n - 52) with (- k) by (unfold k; lia).
  rewrite (scaled_whole n k Hk). cbv beta iota zeta.
  rewrite Z.div_1_r.
  assert (Hscaled : 2 ^ 52 <= n * 2 ^ k).
  { replace (2 ^ 52) with (2 ^ Z.log2 n * 2 ^ k).
    - apply Z.mul_le_mono_nonneg_r; [apply Z.pow_nonneg; lia | exact Hlow].
    - rewrite <- Z.pow_add_r by lia. f_equal. unfold k. lia. }
  destruct (n * 2 ^ k <? 2 ^ 52) eqn:Hcmp; [apply Z.ltb_lt in Hcmp; lia|].
  rewrite Z.max_l by (unfold k; lia).
  rewrite (scaled_whole n k Hk). cbv beta iota zeta.
  rewrite Z.div_1_r, Z.mod_1_r.
  change (1 <? 2 * 0) with false. change (2 * 0 =? 1) with false.
  cbn [orb andb].
  destruct (0 <=? - k) eqn:Hsign.
  - apply Z.leb_le in Hsign. assert (Hk0 : k = 0) by lia.
    rewrite Hk0. change (- 0) with 0. change (2 ^ 0) with 1. rewrite !Z.mul_1_r.
    destruct (2 ^ 1024 <=? n) eqn:Hbig.
    + apply Z.leb_le in Hbig.
      assert (2 ^ 53 < 2 ^ 1024) by (apply Z.pow_lt_mono_r; lia). lia.
    + reflexivity.
  - rewrite Z.opp_involutive. f_equal.
    assert (H2 : 0 < 2 ^ k) by (apply Z.pow_pos_nonneg; lia).
    rewrite <- (Qred_inject_Z n). apply Qred_complete.
    unfold Qeq, inject_Z. cbn [Qnum Qden].
    rewrite Z2Pos.id by exact H2. lia.
Qed.

Lemma of_Z_whole (z : Z) :
  Z.abs z <= 2 ^ 53 -> Js.of_Z z = Js.Finite (inject_Z z).
Proof.
  intros Hz. unfold Js.of_Z, Js.round. cbn [inject_Z Qnum Qden].
  destruct z as [|p|p].
  - reflexivity.
  - apply round_positive_whole. lia.
  - rewrite (round_positive_whole (Z.pos p)) by lia.
    cbn [Js.negate]. rewrite Qred_opp, Qred_inject_Z. reflexivity.
Qed.

(** The sum of two whole numbers is their sum as long as all three are
    within [2 ^ 53]. *)
Lemma add_whole (a b : Z) :
  Z.abs a <= 2 ^ 53 -> Z.abs b <= 2 ^ 53 -> Z.abs (a + b) <= 2 ^ 53 ->
  Js.add (Js.of_Z a) (Js.of_Z b) = Js.Finite (inject_Z (a + b)).
Proof.
  intros Ha Hb Hab. rewrite !of_Z_whole by assumption. cbn [Js.add].
  rewrite <- (of_Z_whole (a + b)) by assumption.
  unfold Js.of_Z, Js.round. cbn [inject_Z Qplus Qnum Qden].
  rewrite !Z.mul_1_r. reflexivity.
Qed.

(** The falsy numbers are [NaN] and zero. *)
Lemma truthy_number_false (n : Js.number) :
  Js.truthy_number n = false
  <-> n = Js.NaN \/ exists q : Q, n = Js.Finite q /\ (q == 0)%Q.
Proof.
  destruct n as [|negative|q]; simpl.
  - split; [intros _; left; reflexivity | reflexivity].
  - split; [discriminate | intros [H | [q [H _]]]; discriminate].
  - unfold Js.is_zero. rewrite negb_false_iff, Z.eqb_eq. split.
    + intros H. right. exists q. split; [reflexivity|].
      unfold Qeq. rewrite H. reflexivity.
    + intros [H | [q' [H Hq]]]; [discriminate|]. inversion H; subst q'.
      unfold Qeq in Hq. simpl in Hq. lia.
Qed.

(** Between finite numbers [>] is the order of the rationals. *)
Lemma gt_Finite (p q : Q) :
  Js.gt (Js.Finite p) (Js.Finite q) = true <-> (q < p)%Q.
Proof.
  cbn [Js.gt]. rewrite negb_true_iff. split.
  - intros H. apply Qnot_le_lt. intros Hle.
    apply Qle_bool_iff in Hle. congruence.
  - intros H. destruct (Qle_bool p q) eqn:Hle; [|reflexivity].
    apply Qle_bool_iff in Hle. exfalso. exact (Qlt_not_le _ _ H Hle).
Qed.

End NumberFacts.

(** * Properties of the [Storage] class *)

Section StorageFacts.

Context {Entity : Type}.
Variable getCredentialType : string -> option Storage.CredentialType.
Variable Get : Entity -> string -> option (Storage.Value Entity).

Lemma removeItem_not_in_memory (key : string)
    (type : option Storage.CacheSchemaType) (st : Storage.t Entity) :
  Storage.removeItem getCredentialType Get key type None st
  = (false, Storage.console_log Storage.msg_no_persistence st).
Proof. reflexivity. Qed.

Lemma clear_step_cache (st : Storage.t Entity) (k : string) :
  Storage.inMemoryCache (Storage.clear_step getCredentialType Get st k)
  = Storage.inMemoryCache st.
Proof. reflexivity. Qed.

Lemma clear_loop_cache (keys : list string) (st : Storage.t Entity) :
  Storage.inMemoryCache
    (fold_left (Storage.clear_step getCredentialType Get) keys st)
  = Storage.inMemoryCache st.
Proof.
  revert st. induction keys as [|k keys IH]; intros st; simpl.
  - reflexivity.
  - rewrite IH. apply clear_step_cache.
Qed.

Lemma clear_cache (inMemory : option bool) (st : Storage.t Entity) :
  Storage.inMemoryCache (Storage.clear getCredentialType Get inMemory st)
  = Storage.inMemoryCache st.
Proof.
  unfold Storage.clear. destruct (negb (Js.truthy_obool inMemory)).
  - reflexivity.
  - exact (clear_loop_cache _ st).
Qed.

(** [getItem] with [inMemory = true] reads nothing but the cache. *)
Lemma getItem_in_memory_depends_on_cache (key : string)
    (type : option Storage.CacheSchemaType) (st st' : Storage.t Entity) :
  Storage.inMemoryCache st = Storage.inMemoryCache st' ->
  fst (Storage.getItem getCredentialType Get key type (Some true) st)
  = fst (Storage.getItem getCredentialType Get key type (Some true) st').
Proof.
  intros Hc. unfold Storage.getItem, Storage.getCache. simpl. rewrite Hc.
  destruct type as [[]|]; simpl; try reflexivity.
  destruct (getCredentialType key) as [[]|]; reflexivity.
Qed.

(** The positions of the characters of a string are decimal numbers below
    its length. *)
Lemma keys_of_string_positions (name k : string) :
  In k (Js.keys_of_string name) ->
  exists i : nat, (i < Js.str_length name)%nat /\ k = pretty i.
Proof.
  unfold Js.keys_of_string. intros H. apply in_map_iff in H as [i [<- Hi]].
  apply in_seq in Hi. exists i. split; [lia | reflexivity].
Qed.

(** The keys [clear] hands to [removeItem] are positions of characters in
    the own keys of the cache object, none of them a key chosen by a
    caller of [setItem]. *)
Lemma clear_visits_character_positions (c : Storage.InMemoryCache Entity) (k : string) :
  In k (Storage.internal_keys c) ->
  exists (name : string) (i : nat),
    In name (Storage.ownKeys c) /\ (i < Js.str_length name)%nat /\ k = pretty i.
Proof.
  unfold Storage.internal_keys, Storage.cache_keys. intros H.
  apply in_concat in H as [l [Hl Hk]].
  apply in_map_iff in Hl as [name [<- Hname]].
  destruct (keys_of_string_positions name k Hk) as [i [Hi ->]].
  exists name, i. repeat split; assumption.
Qed.

(** C9. [clear] with [inMemory = true] removes no stored entry: whatever
    [getItem(key, type, true)] returned before the call it returns after
    it, for every key and every type, and the five sections of the cache
    are the same maps as before.  Each [removeItem] call of the loop gets
    no [inMemory] argument, so it logs and returns [false]. *)
Theorem clear_in_memory_removes_nothing (key : string)
    (type : option Storage.CacheSchemaType) (st : Storage.t Entity) :
  fst (Storage.getItem getCredentialType Get key type (Some true)
         (Storage.clear getCredentialType Get (Some true) st))
  = fst (Storage.getItem getCredentialType Get key type (Some true) st)
  /\ Storage.inMemoryCache (Storage.clear getCredentialType Get (Some true) st)
     = Storage.inMemoryCache st
  /\ (forall (k : string) (st' : Storage.t Entity),
        fst (Storage.removeItem getCredentialType Get k None None st') = false).
Proof.
  split; [|split].
  - apply getItem_in_memory_depends_on_cache, clear_cache.
  - apply clear_cache.
  - intros k st'. reflexivity.
Qed.

(** C10. [containsKey] answers [true] exactly for the non-empty keys, and
    its answer is the same in every state of the storage: it does not
    look at what is stored. *)
Theorem containsKey_is_key_nonempty (key : string) (st st' : Storage.t Entity) :
  (Storage.containsKey key st = true <-> key <> "")
  /\ Storage.containsKey key st = Storage.containsKey key st'.
Proof.
  split; [|reflexivity].
  unfold Storage.containsKey, Js.truthy_string.
  destruct key; simpl; split; congruence.
Qed.

End StorageFacts.

(** [clear] on a cache that holds an account under the key ["3"], which is
    also one of the positions the loop visits: the account is still there. *)
Example clear_keeps_account :
  fst (Storage.getItem Scenario.credentialTypeOf Scenario.memberOf "3"
         (Some Storage.ACCOUNT) (Some true)
         (Storage.clear Scenario.credentialTypeOf Scenario.memberOf (Some true)
            Scenario.storageWithAccount))
  = Storage.IValue (Storage.VObject 7).
Proof. vm_compute. reflexivity. Qed.

(** A key that was never stored is reported as contained; the empty key is
    not, even on a cache that holds an entry. *)
Example containsKey_never_stored :
  Storage.containsKey "missing" Scenario.emptyStorage = true
  /\ Storage.containsKey "" Scenario.storageWithAccount = false
  /\ fst (Storage.getItem Scenario.credentialTypeOf Scenario.memberOf "missing"
            (Some Storage.ACCOUNT) (Some true) Scenario.emptyStorage)
     = Storage.INull.
Proof. repeat split. Qed.


(** * Properties of the [SPAClient] class *)

Import Client.
Import Observe.
Local Open Scope client_scope.

Section ClientFacts.

Variable config : ClientConfiguration.

Lemma resetAndRethrow_run {A} (state : option string) (e : AuthError) (w : World) :
  @resetAndRethrow A state e w = (Thrown e, after_cleanup state w).
Proof. reflexivity. Qed.

Lemma after_cleanup_account (state : option string) (w : World) :
  w_account (after_cleanup state w) = None.
Proof. reflexivity. Qed.

Lemma after_cleanup_trace (state : option string) (w : World) :
  w_trace (after_cleanup state w) = w_trace w.
Proof. reflexivity. Qed.

Lemma after_cleanup_request_params (state : option string) (w : World) :
  w_cacheStorage (after_cleanup state w) !! REQUEST_PARAMS = None
  /\ w_cacheStorage (after_cleanup state w) !! REQUEST_STATE = None.
Proof.
  unfold after_cleanup, resetTempCacheItems, modify. simpl. split.
  - apply lookup_delete_eq.
  - rewrite lookup_delete_ne by discriminate. apply lookup_delete_eq.
Qed.

(** [getAccount] in one step. *)
Lemma getAccount_run (w : World) :
  getAccount config w
  = match w_account w with
    | Some a => (Returned (Some a), w)
    | None =>
        let rawIdToken := w_cacheStorage w !! ID_TOKEN_KEY in
        let rawClientInfo := w_cacheStorage w !! CLIENT_INFO_KEY in
        if negb (StringUtils.isEmpty rawIdToken)
           && negb (StringUtils.isEmpty rawClientInfo)
        then
          match extractIdToken (decoders config) (cryptoInterface config)
                  (Js.or_default rawIdToken "") with
          | Returned claims =>
              match buildClientInfo (decoders config) (cryptoInterface config)
                      (Js.or_default rawClientInfo "") with
              | Returned info =>
                  match createAccount (decoders config) (cryptoInterface config)
                          (mkIdToken (Js.or_default rawIdToken "") claims) info with
                  | Returned created =>
                      (Returned (Some created), set_account (Some created) w)
                  | Thrown e => (Thrown e, w)
                  end
              | Thrown e => (Thrown e, w)
              end
          | Thrown e => (Thrown e, w)
          end
        else (Returned None, w)
    end.
Proof.
  unfold getAccount. unfold bind at 1. unfold get.
  destruct (w_account w); [reflexivity|]. cbv zeta.
  destruct (negb _ && negb _); [|reflexivity].
  unfold bind at 1. unfold lift at 1. unfold newIdToken.
  destruct (extractIdToken _ _ _); [|reflexivity].
  unfold bind, lift, ret, modify.
  destruct (buildClientInfo _ _ _); [|reflexivity].
  destruct (createAccount _ _ _ _); reflexivity.
Qed.

(** How [getAccount] ends: with the account of the instance; or, when
    there is none, with no account and the state as it was, with a decoded
    account that it has put on the instance, or with the error of a
    decoder and the state as it was.  The decoders are reached only when
    both persisted values are there. *)
Lemma getAccount_cases (w : World) :
  (exists a, w_account w = Some a /\ getAccount config w = (Returned (Some a), w))
  \/ (w_account w = None /\ getAccount config w = (Returned None, w))
  \/ (w_account w = None
      /\ StringUtils.isEmpty (w_cacheStorage w !! ID_TOKEN_KEY) = false
      /\ StringUtils.isEmpty (w_cacheStorage w !! CLIENT_INFO_KEY) = false
      /\ ((exists a,
             getAccount config w = (Returned (Some a), set_account (Some a) w))
          \/ exists e, getAccount config w = (Thrown e, w))).
Proof.
  rewrite getAccount_run. cbv zeta.
  destruct (w_account w) as [cached|] eqn:Hacc.
  - left. exists cached. split; reflexivity.
  - right.
    destruct (StringUtils.isEmpty (w_cacheStorage w !! ID_TOKEN_KEY)) eqn:Hid;
      [left; split; reflexivity|].
    destruct (StringUtils.isEmpty (w_cacheStorage w !! CLIENT_INFO_KEY)) eqn:Hinfo;
      [left; split; reflexivity|].
    right. split; [reflexivity|]. split; [reflexivity|]. split; [reflexivity|].
    cbn [negb andb].
    destruct (extractIdToken _ _ _) as [claims|e]; [|right; eexists; reflexivity].
    destruct (buildClientInfo _ _ _) as [info|e]; [|right; eexists; reflexivity].
    destruct (createAccount _ _ _ _) as [created|e]; [|right; eexists; reflexivity].
    left. eexists. reflexivity.
Qed.

(** [getAccount] changes the state only by putting the account it returns
    on the instance. *)
Lemma getAccount_state (w : World) :
  snd (getAccount config w) = w
  \/ exists a,
       w_account w = None
       /\ getAccount config w = (Returned (Some a), set_account (Some a) w).
Proof.
  destruct (getAccount_cases w)
    as [[a [_ ->]] | [[_ ->] | (Hnone & _ & _ & [[a ->] | [e ->]])]];
    try (left; reflexivity).
  right. exists a. split; [exact Hnone | reflexivity].
Qed.

(** [getAccount] makes no call that leaves the client. *)
Lemma getAccount_trace (w : World) :
  w_trace (snd (getAccount config w)) = w_trace w.
Proof.
  destruct (getAccount_state w) as [-> | [a [_ ->]]]; reflexivity.
Qed.

(** C8. When no account is cached on the instance and the persisted ID
    token or the persisted client info is absent or empty, [getAccount]
    returns the absent account: it does not throw and it leaves the state
    of the client as it was. *)
Theorem getAccount_absent_when_not_logged_in (w : World) :
  w_account w = None ->
  StringUtils.isEmpty (w_cacheStorage w !! ID_TOKEN_KEY) = true
  \/ StringUtils.isEmpty (w_cacheStorage w !! CLIENT_INFO_KEY) = true ->
  getAccount config w = (Returned None, w).
Proof.
  intros Hnone Hempty. unfold getAccount. unfold bind at 1. unfold get.
  rewrite Hnone. destruct Hempty as [-> | ->]; cbn [negb andb].
  - reflexivity.
  - rewrite andb_false_r. reflexivity.
Qed.

(** C7. A request for login scopes with no account in the request and none
    from [getAccount] fails with the user-login-required error; no cache
    lookup, no discovery and no post has been made by then, and the [catch]
    clause has run on the state [getAccount] left. *)
Theorem getValidToken_requires_login (request : TokenRenewParameters) (w : World) :
  ScopeSet.isLoginScopeSet
    (ScopeSet.new (default [] (tr_scopes request))
       (clientId (authOptions config)) true) = true ->
  tr_account request = None ->
  fst (getAccount config w) = Returned None ->
  getValidToken config (Some request) w
  = (Thrown UserLoginRequiredError,
     after_cleanup None (snd (getAccount config w)))
  /\ w_trace (snd (getValidToken config (Some request) w)) = w_trace w.
Proof.
  intros Hlogin Hreq Hacc.
  assert (Hrun : getValidToken config (Some request) w
                 = (Thrown UserLoginRequiredError,
                    after_cleanup None (snd (getAccount config w)))).
  { unfold getValidToken, getValidToken_try, resolveRenewRequest.
    unfold bind at 1. unfold try_catch. unfold bind at 1. unfold bind at 1.
    rewrite Hreq. destruct (getAccount config w) as [o w1] eqn:Hget.
    simpl in Hacc. subst o. rewrite Hlogin. reflexivity. }
  split; [exact Hrun|].
  rewrite Hrun. cbn [snd]. rewrite after_cleanup_trace. apply getAccount_trace.
Qed.

(** What [deref] answers. *)
Lemma deref_run (r : AuthorityRef) (w : World) :
  deref r w = (Returned (authority_at r w), w).
Proof. destruct r; reflexivity. Qed.

(** One discovery round trip: the call is recorded, and either the
    endpoints arrive or the failure is wrapped. *)
Lemma resolveOrFail_run (r : AuthorityRef) (w : World) :
  let name := canonicalAuthority (authority_at r w) in
  resolveOrFail config r w
  = match discover (networkInterface config) name with
    | inl cause =>
        (Thrown (EndpointDiscoveryIncompleteError (NetworkError cause)),
         add_event (Discovery name) w)
    | inr endpoints =>
        let resolved := mkAuthority name (Some endpoints) in
        match r with
        | DefaultAuthority =>
            (Returned DefaultAuthority,
             set_defaultAuthority resolved (add_event (Discovery name) w))
        | CreatedAuthority _ =>
            (Returned (CreatedAuthority resolved), add_event (Discovery name) w)
        end
    end.
Proof.
  unfold resolveOrFail, resolveEndpointsAsync.
  unfold try_catch, bind at 1. rewrite deref_run.
  unfold bind, emit, modify. cbn [fst snd].
  destruct (discover _ _); [reflexivity|].
  destruct r; reflexivity.
Qed.

(** With no redirect URI configured, [getRedirectUri] followed by
    [validateRedirectUri] throws the redirect-URI-empty error. *)
Lemma redirect_check_fails {A} (k : string -> M A) (w : World) :
  redirect_unconfigured (redirectUri (authOptions config)) = true ->
  (uri <- getRedirectUri config ;; validateRedirectUri uri ;; k uri) w
  = (Thrown RedirectUriEmptyError, w).
Proof.
  intros Hno. unfold getRedirectUri, validateRedirectUri.
  destruct (redirectUri (authOptions config)) as [|uri|f]; simpl in Hno.
  - reflexivity.
  - destruct uri; [reflexivity | discriminate].
  - run_client. rewrite Hno. reflexivity.
Qed.

(** The run of [createUrl] when no redirect URI is configured. *)
Lemma createUrl_without_redirect_run (request : option AuthenticationParameters)
    (isLoginCall : bool) (w : World) :
  redirect_unconfigured (redirectUri (authOptions config)) = true ->
  let r := selectAuthority (request ≫= ap_authority) in
  let name := canonicalAuthority (authority_at r w) in
  createUrl config request isLoginCall w
  = match discover (networkInterface config) name with
    | inl cause =>
        (Thrown (EndpointDiscoveryIncompleteError (NetworkError cause)),
         add_event (Discovery name) w)
    | inr endpoints =>
        (Thrown RedirectUriEmptyError,
         match r with
         | DefaultAuthority =>
             set_defaultAuthority (mkAuthority name (Some endpoints))
               (add_event (Discovery name) w)
         | CreatedAuthority _ => add_event (Discovery name) w
         end)
    end.
Proof.
  intros Hno r name. unfold createUrl.
  unfold bind at 1. rewrite resolveOrFail_run. fold r. fold name.
  destruct (discover (networkInterface config) name) as [cause|endpoints].
  - reflexivity.
  - destruct r; cbn zeta; cbn match; rewrite (redirect_check_fails _ _ Hno);
      reflexivity.
Qed.

(** C6, as the code has it.  With no redirect URI configured, [createUrl]
    first makes the discovery call for its authority.  When discovery
    answers, the call fails with the redirect-URI-empty configuration
    error; when discovery fails, it fails with the endpoint-discovery error
    instead.  In both cases the discovery call is the only call made: no
    token endpoint is contacted, no random value is drawn and nothing is
    written to the cache storage. *)
Theorem createUrl_without_redirect_uri (request : option AuthenticationParameters)
    (isLoginCall : bool) (w : World) :
  redirect_unconfigured (redirectUri (authOptions config)) = true ->
  let name :=
    canonicalAuthority
      (authority_at (selectAuthority (request ≫= ap_authority)) w) in
  let result := createUrl config request isLoginCall w in
  fst result
  = match discover (networkInterface config) name with
    | inr _ => Thrown RedirectUriEmptyError
    | inl cause => Thrown (EndpointDiscoveryIncompleteError (NetworkError cause))
    end
  /\ w_trace (snd result) = (w_trace w ++ [Discovery name])%list
  /\ w_randomDrawn (snd result) = w_randomDrawn w
  /\ w_cacheStorage (snd result) = w_cacheStorage w.
Proof.
  intros Hno name result. subst result.
  rewrite (createUrl_without_redirect_run request isLoginCall w Hno). fold name.
  destruct (discover (networkInterface config) name) as [cause|endpoints].
  - repeat split.
  - destruct (selectAuthority (request ≫= ap_authority)); repeat split.
Qed.

(** [getTokenResponse] on an answer with an error field: the post is
    recorded and the validation throws. *)
Lemma getTokenResponse_server_error_run (endpoint : string)
    (payload : TokenRequestPayload) (tokenRequest : TokenExchangeParameters)
    (codeResponse : option CodeResponse)
    (answer : ServerAuthorizationTokenResponse) (errorCode : string) (w : World) :
  sendPostRequestAsync (networkInterface config) endpoint payload = Responded answer ->
  error answer = Some errorCode ->
  getTokenResponse config endpoint payload tokenRequest codeResponse w
  = (Thrown (ServerError errorCode (error_description answer)),
     add_event (Post endpoint payload) w).
Proof.
  intros Hpost Herr.
  unfold getTokenResponse, validateServerAuthorizationTokenResponse.
  unfold bind at 1. unfold emit, modify. rewrite Hpost. unfold bind at 1.
  rewrite Herr. reflexivity.
Qed.

(** C3. When the token endpoint answers with a body that has an error
    field, the exchange fails with a [ServerError] that carries the
    server's code and description.  Recording the post is all that has
    happened by then: the credential cache, the cache storage and the
    current account are what they were.  Both the code path
    ([acquireToken]) and the refresh path ([renewToken]) exchange through
    this function. *)
Theorem getTokenResponse_server_error_writes_nothing (endpoint : string)
    (payload : TokenRequestPayload) (tokenRequest : TokenExchangeParameters)
    (codeResponse : option CodeResponse)
    (answer : ServerAuthorizationTokenResponse) (errorCode : string) (w : World) :
  sendPostRequestAsync (networkInterface config) endpoint payload = Responded answer ->
  error answer = Some errorCode ->
  let result := getTokenResponse config endpoint payload tokenRequest codeResponse w in
  result = (Thrown (ServerError errorCode (error_description answer)),
            add_event (Post endpoint payload) w)
  /\ w_tokenCache (snd result) = w_tokenCache w
  /\ w_cacheStorage (snd result) = w_cacheStorage w
  /\ w_account (snd result) = w_account w.
Proof.
  intros Hpost Herr result. subst result.
  rewrite (getTokenResponse_server_error_run endpoint payload tokenRequest
             codeResponse answer errorCode w Hpost Herr).
  repeat split.
Qed.

(** The refresh path: with a redirect URI at hand, [renewToken] posts the
    refresh token and fails in the same way. *)
Lemma renewToken_server_error_run (request : TokenRenewParameters)
    (endpoint refreshTokenArg uri : string)
    (answer : ServerAuthorizationTokenResponse) (errorCode : string) (w : World) :
  getRedirectUri config w = (Returned uri, w) ->
  let payload :=
    ServerTokenRequestParameters (clientId (authOptions config))
      (renew_as_exchange request) None uri (Some refreshTokenArg) in
  sendPostRequestAsync (networkInterface config) endpoint payload = Responded answer ->
  error answer = Some errorCode ->
  renewToken config request endpoint refreshTokenArg w
  = (Thrown (ServerError errorCode (error_description answer)),
     add_event (Post endpoint payload) w).
Proof.
  intros Huri payload Hpost Herr. unfold renewToken. unfold bind at 1.
  rewrite Huri.
  apply (getTokenResponse_server_error_run endpoint payload
           (renew_as_exchange request) None answer errorCode w Hpost Herr).
Qed.

(** What [getRedirectUri] answers; it never touches the state. *)
Lemma getRedirectUri_state (w : World) : snd (getRedirectUri config w) = w.
Proof.
  unfold getRedirectUri. destruct (redirectUri (authOptions config)) as [|uri|f].
  - reflexivity.
  - destruct uri; reflexivity.
  - reflexivity.
Qed.

Lemma getRedirectUri_configured (w : World) :
  redirect_unconfigured (redirectUri (authOptions config)) = false ->
  exists uri, getRedirectUri config w = (Returned uri, w) /\ uri <> "".
Proof.
  unfold getRedirectUri. destruct (redirectUri (authOptions config)) as [|uri|f];
    simpl; intros H.
  - discriminate.
  - destruct uri; [discriminate|]. eexists. split; [reflexivity|discriminate].
  - exists (f tt). split; [reflexivity|]. destruct (f tt); [discriminate|discriminate].
Qed.

(** With the redirect URI absent or empty, [getRedirectUri] throws. *)
Lemma getRedirectUri_when_missing (w : World) :
  redirect_missing (redirectUri (authOptions config)) = true ->
  getRedirectUri config w = (Thrown RedirectUriEmptyError, w).
Proof.
  unfold getRedirectUri.
  destruct (redirectUri (authOptions config)) as [|uri|f]; simpl.
  - reflexivity.
  - destruct uri; [reflexivity | discriminate].
  - discriminate.
Qed.

(** [getCachedTokens] in one step: it records the lookup, and its answer
    depends on nothing but the entries that pass both filters. *)
Lemma getCachedTokens_run (requestScopes : ScopeSet.t) (authorityUri : string)
    (resourceId homeAccountId : option string) (w : World) :
  getCachedTokens config requestScopes authorityUri resourceId homeAccountId w
  = (match matches config requestScopes authorityUri resourceId homeAccountId w with
     | [] => Thrown (NoTokensFoundError (ScopeSet.printScopes requestScopes))
     | [single] => Returned single
     | _ :: _ :: _ =>
         Thrown (MultipleMatchingTokensInCacheError
                   (ScopeSet.printScopes requestScopes))
     end,
     add_event (TokenLookup (clientId (authOptions config)) authorityUri
                  (Js.or_default resourceId "") (Js.or_default homeAccountId ""))
       w).
Proof.
  unfold getCachedTokens, getAllAccessTokens, matches. run_client.
  destruct (matching_tokens _ _ _ _ (w_tokenCache w)) as [|first rest] eqn:Hall.
  - reflexivity.
  - cbn [length Nat.eqb].
    destruct (List.filter _ (first :: rest)) as [|a [|b l]]; reflexivity.
Qed.

(** [getValidToken] from the cache lookup on, once its request is
    resolved. *)
Lemma getValidToken_after_resolve (request : TokenRenewParameters)
    (w w1 : World) (r : Resolved) :
  resolveRenewRequest config request w = (Returned r, w1) ->
  let authorityUri := canonicalAuthority (rs_authority r) in
  let homeAccountId := homeAccountIdentifier <$> rs_account r in
  let looked :=
    add_event (TokenLookup (clientId (authOptions config)) authorityUri
                 (Js.or_default (tr_resource request) "")
                 (Js.or_default homeAccountId "")) w1 in
  let printed := ScopeSet.printScopes (rs_scopes r) in
  getValidToken config (Some request) w
  = match matches config (rs_scopes r) authorityUri (tr_resource request)
            homeAccountId w1 with
    | [] => (Thrown (NoTokensFoundError printed), after_cleanup None looked)
    | [item] =>
        if cacheStillValid config request item (nowSeconds w1)
        then match cachedTokenResponse config item (rs_account r) with
             | Returned response => (Returned response, looked)
             | Thrown e => (Thrown e, after_cleanup None looked)
             end
        else renewToken config
               (set_tr_authority (Some (key_authority (key item))) request)
               (tokenEndpoint (rs_authority r)) (val_refreshToken (value item))
               looked
    | _ :: _ :: _ =>
        (Thrown (MultipleMatchingTokensInCacheError printed),
         after_cleanup None looked)
    end.
Proof.
  intros Hres authorityUri homeAccountId looked printed.
  unfold getValidToken, getValidToken_try, answerFromCache.
  unfold bind at 1. unfold try_catch. unfold bind at 1. rewrite Hres.
  unfold bind at 1. rewrite getCachedTokens_run.
  fold authorityUri homeAccountId looked printed.
  destruct (matches _ _ _ _ _ w1) as [|item [|second more]].
  - reflexivity.
  - unfold bind at 1. unfold get.
    change (nowSeconds looked) with (nowSeconds w1).
    destruct (cacheStillValid config request item (nowSeconds w1)); [|reflexivity].
    unfold bind, lift, ret.
    destruct (cachedTokenResponse config item (rs_account r)); reflexivity.
  - reflexivity.
Qed.

(** C2. Once the request of [getValidToken] is resolved, the cached entries
    are filtered by client id, authority, resource and home account and
    then by scopes.  When none is left the call fails with the
    no-tokens-found error; when more than one is left it fails with the
    multiple-matching-tokens error; and whenever the call returns a
    response exactly one entry was left, so no entry is ever picked among
    several. *)
Theorem getValidToken_match_count (request : TokenRenewParameters)
    (w w1 : World) (r : Resolved) :
  resolveRenewRequest config request w = (Returned r, w1) ->
  let authorityUri := canonicalAuthority (rs_authority r) in
  let homeAccountId := homeAccountIdentifier <$> rs_account r in
  let found :=
    matches config (rs_scopes r) authorityUri (tr_resource request)
      homeAccountId w1 in
  let looked :=
    add_event (TokenLookup (clientId (authOptions config)) authorityUri
                 (Js.or_default (tr_resource request) "")
                 (Js.or_default homeAccountId "")) w1 in
  let printed := ScopeSet.printScopes (rs_scopes r) in
  (length found = 0%nat ->
   getValidToken config (Some request) w
   = (Thrown (NoTokensFoundError printed), after_cleanup None looked))
  /\ ((1 < length found)%nat ->
      getValidToken config (Some request) w
      = (Thrown (MultipleMatchingTokensInCacheError printed),
         after_cleanup None looked))
  /\ (forall response w',
        getValidToken config (Some request) w = (Returned response, w') ->
        length found = 1%nat).
Proof.
  intros Hres authorityUri homeAccountId found looked printed.
  pose proof (getValidToken_after_resolve request w w1 r Hres) as Hrun.
  cbv zeta in Hrun. fold authorityUri homeAccountId in Hrun.
  fold found looked printed in Hrun.
  destruct found as [|item [|second more]]; cbn [length].
  - split; [intros _; exact Hrun|]. split; [lia|].
    intros response w' Hret. rewrite Hrun in Hret. discriminate.
  - split; [lia|]. split; [lia|]. reflexivity.
  - split; [lia|]. split; [intros _; exact Hrun|].
    intros response w' Hret. rewrite Hrun in Hret. discriminate.
Qed.

(** The test of [getValidToken] spelled out: the refresh is not forced,
    the expiry is a number that is truthy, and it is greater than the
    current time plus the renewal offset. *)
Lemma cacheStillValid_true (request : TokenRenewParameters)
    (item : AccessTokenCacheItem) (now : Js.number) :
  cacheStillValid config request item now = true
  <-> Js.truthy_obool (tr_forceRefresh request) = false
      /\ Js.truthy_number (Js.Number (val_expiresOnSec (value item))) = true
      /\ Js.gt (Js.Number (val_expiresOnSec (value item)))
           (Js.add now (tokenRenewalOffsetSeconds (systemOptions config))) = true.
Proof.
  unfold cacheStillValid.
  destruct (Js.truthy_obool (tr_forceRefresh request)); simpl.
  - split; [discriminate | intros [H _]; discriminate].
  - rewrite andb_true_iff. tauto.
Qed.

(** And its failure: the refresh is forced, or the expiry is missing
    ([NaN] or zero), or it is not greater than the current time plus the
    offset. *)
Lemma cacheStillValid_false (request : TokenRenewParameters)
    (item : AccessTokenCacheItem) (now : Js.number) :
  cacheStillValid config request item now = false
  <-> Js.truthy_obool (tr_forceRefresh request) = true
      \/ Js.truthy_number (Js.Number (val_expiresOnSec (value item))) = false
      \/ Js.gt (Js.Number (val_expiresOnSec (value item)))
           (Js.add now (tokenRenewalOffsetSeconds (systemOptions config))) = false.
Proof.
  unfold cacheStillValid.
  destruct (Js.truthy_obool (tr_forceRefresh request)); simpl.
  - split; [intros _; left; reflexivity | reflexivity].
  - rewrite andb_false_iff. split.
    + intros [H | H]; [right; left | right; right]; exact H.
    + intros [H | [H | H]]; [discriminate | left | right]; exact H.
Qed.

(** The test for a clock and an offset that are whole numbers of seconds
    within [2 ^ 53] and an expiry that reads as a finite number: the
    refresh is not forced, and the expiry is not zero and exceeds the
    current time plus the offset. *)
Lemma cacheStillValid_whole_seconds (request : TokenRenewParameters)
    (item : AccessTokenCacheItem) (now offset : Z) (expiry : Q) :
  tokenRenewalOffsetSeconds (systemOptions config) = Js.of_Z offset ->
  (Z.abs now <= 2 ^ 53)%Z -> (Z.abs offset <= 2 ^ 53)%Z ->
  (Z.abs (now + offset) <= 2 ^ 53)%Z ->
  Js.Number (val_expiresOnSec (value item)) = Js.Finite expiry ->
  cacheStillValid config request item (Js.of_Z now) = true
  <-> Js.truthy_obool (tr_forceRefresh request) = false
      /\ ~ (expiry == 0)%Q
      /\ (inject_Z (now + offset) < expiry)%Q.
Proof.
  intros Hoffset Hnow Hoff Hsum Hexpiry. rewrite cacheStillValid_true.
  rewrite Hoffset, Hexpiry, add_whole by assumption. rewrite gt_Finite.
  assert (Htruthy : Js.truthy_number (Js.Finite expiry) = true
                    <-> ~ (expiry == 0)%Q).
  { split.
    - intros H Hzero.
      assert (Hfalse : Js.truthy_number (Js.Finite expiry) = false)
        by (apply truthy_number_false; right; eauto).
      congruence.
    - intros H. destruct (Js.truthy_number (Js.Finite expiry)) eqn:Ht;
        [reflexivity|].
      apply truthy_number_false in Ht as [Ht | [q [Hq Hzero]]];
        [discriminate|]. inversion Hq; subst q. contradiction. }
  rewrite Htruthy. tauto.
Qed.

(** The response built from a cached entry takes its tokens, token type,
    scopes and expiry from the entry and its account from the request,
    and has an ID token exactly when the entry has a non-empty one.  No
    response is built only when the entry has a non-empty ID token whose
    claims cannot be decoded. *)
Lemma cachedTokenResponse_fields (item : AccessTokenCacheItem)
    (requestAccount : option Account) :
  match cachedTokenResponse config item requestAccount with
  | Returned response =>
      accessToken response = val_accessToken (value item)
      /\ refreshToken response = val_refreshToken (value item)
      /\ tokenType response = val_tokenType (value item)
      /\ tr_scopes_granted response
         = ScopeSet.asArray
             (ScopeSet.fromString (key_scopes (key item))
                (clientId (authOptions config)) true)
      /\ expiresOn response
         = Js.new_Date
             (Js.mul (Js.Number (val_expiresOnSec (value item))) (Js.of_Z 1000))
      /\ idToken response = val_idToken (value item)
      /\ (idTokenClaims response = None <-> val_idToken (value item) = "")
      /\ account response = requestAccount
  | Thrown e =>
      val_idToken (value item) <> ""
      /\ extractIdToken (decoders config) (cryptoInterface config)
           (val_idToken (value item))
         = Thrown e
  end.
Proof.
  unfold cachedTokenResponse, newIdToken. simpl.
  destruct (val_idToken (value item)) as [|c rest] eqn:Hid; simpl.
  - repeat split; reflexivity.
  - destruct (extractIdToken _ _ _) as [claims|e]; simpl.
    + repeat split; try reflexivity; discriminate.
    + split; [discriminate | reflexivity].
Qed.

(** How [createTokenResponse] ends: it throws the error of a decoder and
    leaves the state as it was, or it returns and has changed the
    credential cache only. *)
Lemma createTokenResponse_state
    (serverResponse : ServerAuthorizationTokenResponse)
    (authorityUri resource state : option string) (w : World) :
  match createTokenResponse config serverResponse authorityUri resource state w with
  | (Returned response, w') => exists cache, w' = set_tokenCache cache w
  | (Thrown e, w') => w' = w
  end.
Proof.
  unfold createTokenResponse, newIdToken.
  unfold bind at 1.
  destruct (Js.str_is_empty (id_token serverResponse)).
  - unfold ret at 1. unfold bind at 1. unfold ret at 1.
    unfold bind, get, modify, ret. eexists. reflexivity.
  - unfold bind at 1. unfold lift at 1.
    destruct (extractIdToken _ _ _) as [claims|e]; [|reflexivity].
    unfold ret at 1. unfold ret at 1. unfold bind at 1.
    destruct (Js.str_is_empty (client_info serverResponse)).
    + unfold ret at 1. unfold bind, get, modify, ret. eexists. reflexivity.
    + unfold bind at 1. unfold lift at 1.
      destruct (buildClientInfo _ _ _) as [info|e]; [|reflexivity].
      unfold bind at 1. unfold lift at 1.
      destruct (createAccount _ _ _ _) as [created|e]; [|reflexivity].
      unfold ret at 1. unfold bind, get, modify, ret. eexists. reflexivity.
Qed.

Lemma createTokenResponse_trace
    (serverResponse : ServerAuthorizationTokenResponse)
    (authorityUri resource state : option string) (w : World) :
  w_trace (snd (createTokenResponse config serverResponse authorityUri resource
                  state w))
  = w_trace w.
Proof.
  pose proof (createTokenResponse_state serverResponse authorityUri resource
                state w) as H.
  destruct (createTokenResponse config _ _ _ _ w) as [[response|e] w'].
  - destruct H as [cache ->]. reflexivity.
  - subst w'. reflexivity.
Qed.

(** What [getTokenResponse] adds to the calls made: the post, and nothing
    else. *)
Lemma getTokenResponse_trace (endpoint : string) (payload : TokenRequestPayload)
    (tokenRequest : TokenExchangeParameters) (codeResponse : option CodeResponse)
    (w : World) :
  w_trace (snd (getTokenResponse config endpoint payload tokenRequest codeResponse w))
  = (w_trace w ++ [Post endpoint payload])%list.
Proof.
  unfold getTokenResponse, validateServerAuthorizationTokenResponse.
  unfold bind at 1. unfold emit, modify.
  destruct (sendPostRequestAsync _ _ _) as [answer|cause]; [|reflexivity].
  unfold bind at 1. destruct (error answer); [reflexivity|].
  unfold ret at 1. cbv beta iota. unfold bind at 1.
  pose proof (createTokenResponse_trace answer (te_authority tokenRequest)
                (te_resource tokenRequest) (cr_userRequestState <$> codeResponse)
                (add_event (Post endpoint payload) w)) as Htrace.
  destruct (createTokenResponse config _ _ _ _ _) as [[response|e] w1];
    cbn [snd] in Htrace; [|exact Htrace].
  unfold bind, modify, ret. exact Htrace.
Qed.

Section Unobserved.

(** An observation of the state that setting the account, setting the
    default authority and recording a discovery call do not change. *)
Context {X : Type} (observe : World -> X).
Hypothesis observe_account : forall a w, observe (set_account a w) = observe w.
Hypothesis observe_authority :
  forall a w, observe (set_defaultAuthority a w) = observe w.
Hypothesis observe_discovery :
  forall name w, observe (add_event (Discovery name) w) = observe w.

Lemma getAccount_unobserved (w : World) :
  observe (snd (getAccount config w)) = observe w.
Proof.
  destruct (getAccount_state w) as [-> | [a [_ ->]]]; [reflexivity|].
  apply observe_account.
Qed.

Lemma resolveIfIncomplete_unobserved (r : AuthorityRef) (w : World) :
  observe (snd (resolveIfIncomplete config r w)) = observe w.
Proof.
  unfold resolveIfIncomplete. unfold bind at 1. rewrite deref_run.
  destruct (negb (discoveryComplete (authority_at r w))); [|reflexivity].
  rewrite resolveOrFail_run. cbv zeta.
  destruct (discover _ _); [|destruct r]; cbn [snd];
    rewrite ?observe_authority; apply observe_discovery.
Qed.

(** Resolving the request of [getValidToken] changes nothing but the
    account, the default authority and the record of discovery calls. *)
Lemma resolveRenewRequest_unobserved (request : TokenRenewParameters) (w : World) :
  observe (snd (resolveRenewRequest config request w)) = observe w.
Proof.
  unfold resolveRenewRequest. unfold bind at 1.
  set (m := match tr_account request with
            | Some a => ret (Some a)
            | None => getAccount config
            end).
  assert (Hm : observe (snd (m w)) = observe w).
  { subst m. destruct (tr_account request); [reflexivity|].
    apply getAccount_unobserved. }
  destruct (m w) as [[requestAccount|e] w0]; cbn [snd] in Hm; [|exact Hm].
  unfold bind at 1.
  set (check := if ScopeSet.isLoginScopeSet _ then _ else _).
  assert (Hcheck : snd (check w0) = w0).
  { subst check. destruct (ScopeSet.isLoginScopeSet _); [|reflexivity].
    destruct requestAccount; reflexivity. }
  destruct (check w0) as [[[]|e] w0'] eqn:Hc; cbn [snd] in Hcheck; subst w0'.
  - unfold bind at 1.
    pose proof (resolveIfIncomplete_unobserved
                  (selectAuthority (tr_authority request)) w0) as Hp.
    destruct (resolveIfIncomplete config _ w0) as [[ref|e] w2]; cbn [snd] in Hp.
    + unfold bind. rewrite deref_run. unfold ret. cbn [snd]. congruence.
    + cbn [snd]. congruence.
  - exact Hm.
Qed.

End Unobserved.

Lemma posts_discovery (name : string) (w : World) :
  posts (add_event (Discovery name) w) = posts w.
Proof.
  unfold posts. simpl. rewrite List.filter_app. simpl. apply app_nil_r.
Qed.

(** C1, as the code has it.  Once the request of [getValidToken] is
    resolved and the cache lookup leaves exactly one entry: when the
    refresh is not forced and the expiry of the entry, read as a number, is
    truthy and greater than the current time plus the renewal offset, no
    post to a token endpoint is made and nothing goes over the network
    after the request is resolved; the call returns the response built
    from the entry (its access token, refresh token, token type, scopes
    and expiry, and its ID token when that is not empty), unless the entry
    has a non-empty ID token whose claims cannot be decoded, in which case
    the error of the decoder is thrown after the [catch] clause has run.
    Otherwise (the refresh is forced, or the expiry is missing, that is
    [NaN] or zero, or it is not greater than the current time plus the
    offset) the call is the refresh exchange [renewToken] with the refresh
    token of the entry, whose outcome it returns: with a redirect URI at
    hand that exchange posts the refresh token to the token endpoint, and
    with the redirect URI absent or empty it throws the redirect-URI-empty
    error and nothing is posted. *)
Theorem getValidToken_single_match (request : TokenRenewParameters)
    (w w1 : World) (r : Resolved) (item : AccessTokenCacheItem) :
  resolveRenewRequest config request w = (Returned r, w1) ->
  matches config (rs_scopes r) (canonicalAuthority (rs_authority r))
    (tr_resource request) (homeAccountIdentifier <$> rs_account r) w1 = [item] ->
  let looked :=
    add_event (TokenLookup (clientId (authOptions config))
                 (canonicalAuthority (rs_authority r))
                 (Js.or_default (tr_resource request) "")
                 (Js.or_default (homeAccountIdentifier <$> rs_account r) "")) w1 in
  let expiry := Js.Number (val_expiresOnSec (value item)) in
  let limit :=
    Js.add (nowSeconds w) (tokenRenewalOffsetSeconds (systemOptions config)) in
  let renewRequest :=
    set_tr_authority (Some (key_authority (key item))) request in
  let renewal :=
    renewToken config renewRequest (tokenEndpoint (rs_authority r))
      (val_refreshToken (value item)) looked in
  (Js.truthy_obool (tr_forceRefresh request) = false ->
   Js.truthy_number expiry = true ->
   Js.gt expiry limit = true ->
   posts looked = posts w
   /\ network_calls looked = network_calls w1
   /\ match cachedTokenResponse config item (rs_account r) with
      | Returned response =>
          getValidToken config (Some request) w = (Returned response, looked)
          /\ accessToken response = val_accessToken (value item)
          /\ refreshToken response = val_refreshToken (value item)
          /\ tokenType response = val_tokenType (value item)
          /\ tr_scopes_granted response
             = ScopeSet.asArray
                 (ScopeSet.fromString (key_scopes (key item))
                    (clientId (authOptions config)) true)
          /\ expiresOn response = Js.new_Date (Js.mul expiry (Js.of_Z 1000))
          /\ idToken response = val_idToken (value item)
          /\ (idTokenClaims response = None <-> val_idToken (value item) = "")
      | Thrown e =>
          getValidToken config (Some request) w
          = (Thrown e, after_cleanup None looked)
          /\ val_idToken (value item) <> ""
          /\ extractIdToken (decoders config) (cryptoInterface config)
               (val_idToken (value item))
             = Thrown e
      end)
  /\ (Js.truthy_obool (tr_forceRefresh request) = true
      \/ Js.truthy_number expiry = false
      \/ Js.gt expiry limit = false ->
      getValidToken config (Some request) w = renewal
      /\ (forall uri : string,
            getRedirectUri config looked = (Returned uri, looked) ->
            w_trace (snd renewal)
            = (w_trace looked
               ++ [Post (tokenEndpoint (rs_authority r))
                     (ServerTokenRequestParameters (clientId (authOptions config))
                        (renew_as_exchange renewRequest) None uri
                        (Some (val_refreshToken (value item))))])%list)
      /\ (redirect_missing (redirectUri (authOptions config)) = true ->
          renewal = (Thrown RedirectUriEmptyError, looked))).
Proof.
  intros Hres Hone looked expiry limit renewRequest renewal.
  pose proof (getValidToken_after_resolve request w w1 r Hres) as Hrun.
  cbv zeta in Hrun. rewrite Hone in Hrun.
  fold looked renewRequest renewal in Hrun.
  assert (Hclock : nowSeconds w1 = nowSeconds w).
  { pose proof (resolveRenewRequest_unobserved nowSeconds
                  (fun _ _ => eq_refl) (fun _ _ => eq_refl) (fun _ _ => eq_refl)
                  request w) as H.
    rewrite Hres in H. exact H. }
  assert (Hposts : posts looked = posts w).
  { pose proof (resolveRenewRequest_unobserved posts
                  (fun _ _ => eq_refl) (fun _ _ => eq_refl) posts_discovery
                  request w) as H.
    rewrite Hres in H. cbn [snd] in H. rewrite <- H.
    unfold posts, looked. simpl. rewrite List.filter_app. simpl. apply app_nil_r. }
  rewrite Hclock in Hrun.
  split.
  - intros Hforce Htruthy Hgt.
    assert (Hvalid : cacheStillValid config request item (nowSeconds w) = true).
    { apply cacheStillValid_true. repeat split; assumption. }
    rewrite Hvalid in Hrun.
    split; [exact Hposts|]. split.
    { unfold network_calls, looked. simpl. rewrite List.filter_app. simpl.
      apply app_nil_r. }
    pose proof (cachedTokenResponse_fields item (rs_account r)) as Hfields.
    destruct (cachedTokenResponse config item (rs_account r)) as [response|e].
    + destruct Hfields as (Hat & Hrt & Htt & Hsc & Hexp & Hid & Hclaims & _).
      split; [exact Hrun|]. repeat (split; [assumption|]). exact Hclaims.
    + split; [exact Hrun | exact Hfields].
  - intros Hstale.
    assert (Hvalid : cacheStillValid config request item (nowSeconds w) = false).
    { apply cacheStillValid_false. exact Hstale. }
    rewrite Hvalid in Hrun. split; [exact Hrun|]. split.
    + intros uri Huri. subst renewal. unfold renewToken. unfold bind at 1.
      rewrite Huri. apply getTokenResponse_trace.
    + intros Hmissing. subst renewal. unfold renewToken. unfold bind at 1.
      rewrite (getRedirectUri_when_missing looked Hmissing). reflexivity.
Qed.

(** Every error of [acquireToken] is an error of its [try] block, thrown
    again unchanged after the [catch] clause has reset the temporary cache
    items and the account. *)
Lemma acquireToken_error_cleanup (codeResponse : option CodeResponse)
    (e : AuthError) (w w' : World) :
  acquireToken config codeResponse w = (Thrown e, w')
  <-> exists w1,
        acquireToken_try config codeResponse w = (Thrown e, w1)
        /\ w' = after_cleanup (cr_userRequestState <$> codeResponse) w1.
Proof.
  unfold acquireToken, try_catch.
  destruct (acquireToken_try config codeResponse w) as [[response|e1] w1].
  - split; [discriminate | intros [w2 [H _]]; discriminate].
  - rewrite resetAndRethrow_run. split.
    + intros H. inversion H; subst. eauto.
    + intros [w2 [H ->]]. inversion H; subst. reflexivity.
Qed.

(** The same holds of the errors thrown inside the [try] block of
    [getValidToken]. *)
Lemma getValidToken_try_error_cleanup (request : option TokenRenewParameters)
    (e : AuthError) (w w1 : World) :
  getValidToken_try config request w = (Thrown e, w1) ->
  getValidToken config request w = (Thrown e, after_cleanup None w1).
Proof.
  intros H. unfold getValidToken. unfold bind, try_catch. rewrite H.
  reflexivity.
Qed.

(** But an error of the renewal that [getValidToken] returns without
    awaiting reaches the caller as [renewToken] threw it, in the state
    [renewToken] left. *)
Lemma getValidToken_renewal_error (request : option TokenRenewParameters)
    (renewRequest : TokenRenewParameters) (endpoint refreshTokenArg : string)
    (e : AuthError) (w w1 w2 : World) :
  getValidToken_try config request w
  = (Returned (Renewing renewRequest endpoint refreshTokenArg), w1) ->
  renewToken config renewRequest endpoint refreshTokenArg w1 = (Thrown e, w2) ->
  getValidToken config request w = (Thrown e, w2).
Proof.
  intros Htry Hrenew. unfold getValidToken. unfold bind, try_catch.
  rewrite Htry. exact Hrenew.
Qed.

Section Unwritten.

(** An observation of the state that recording a call, setting the default
    authority and drawing a random value do not change. *)
Context {X : Type} (observe : World -> X).
Hypothesis observe_event : forall e w, observe (add_event e w) = observe w.
Hypothesis observe_authority :
  forall a w, observe (set_defaultAuthority a w) = observe w.
Hypothesis observe_random :
  forall n w, observe (set_randomDrawn n w) = observe w.

Local Abbreviation unwritten := (preserves observe).

Lemma unwritten_ret {A} (a : A) : unwritten (ret a).
Proof. intros w. reflexivity. Qed.

Lemma unwritten_throw {A} (e : AuthError) : unwritten (@throw A e).
Proof. intros w. reflexivity. Qed.

Lemma unwritten_bind {A B} (m : M A) (k : A -> M B) :
  unwritten m -> (forall a, unwritten (k a)) -> unwritten (bind m k).
Proof.
  intros Hm Hk w. unfold bind. specialize (Hm w).
  destruct (m w) as [[a|e] w1]; cbn [snd] in *.
  - rewrite Hk. exact Hm.
  - exact Hm.
Qed.

Lemma unwritten_newGuid : unwritten (newGuid config).
Proof. intros w. unfold newGuid. run_client. apply observe_random. Qed.

Lemma unwritten_newPkceCodes : unwritten (newPkceCodes config).
Proof. intros w. unfold newPkceCodes. run_client. apply observe_random. Qed.

Lemma unwritten_getRedirectUri : unwritten (getRedirectUri config).
Proof. intros w. rewrite getRedirectUri_state. reflexivity. Qed.

Lemma unwritten_resolveOrFail (r : AuthorityRef) :
  unwritten (resolveOrFail config r).
Proof.
  intros w. rewrite resolveOrFail_run. cbv zeta.
  destruct (discover _ _); [|destruct r]; cbn [snd];
    rewrite ?observe_authority; apply observe_event.
Qed.

(** [createUrl] changes nothing but the record of calls, the default
    authority and the count of random values drawn. *)
Lemma createUrl_unwritten (request : option AuthenticationParameters)
    (isLoginCall : bool) :
  unwritten (createUrl config request isLoginCall).
Proof.
  unfold createUrl. cbv zeta.
  apply unwritten_bind; [apply unwritten_resolveOrFail | intros _].
  apply unwritten_bind; [apply unwritten_getRedirectUri | intros uri].
  apply unwritten_bind.
  { unfold validateRedirectUri. destruct (Js.str_is_empty uri);
      [apply unwritten_throw | apply unwritten_ret]. }
  intros _.
  apply unwritten_bind; [apply unwritten_getRedirectUri | intros uri'].
  apply unwritten_bind.
  { destruct (Js.truthy_ostring _); [apply unwritten_ret | apply unwritten_newGuid]. }
  intros correlationId.
  apply unwritten_bind; [apply unwritten_newPkceCodes | intros pkce].
  apply unwritten_bind; [apply unwritten_newGuid | intros guid].
  apply unwritten_bind.
  { destruct (Js.truthy_ostring _); [|apply unwritten_ret].
    apply unwritten_bind; [|intros _; apply unwritten_ret].
    unfold validatePrompt. destruct (existsb _ _);
      [apply unwritten_ret | apply unwritten_throw]. }
  intros builder.
  apply unwritten_bind; [apply unwritten_newGuid | intros nonce].
  apply unwritten_ret.
Qed.

End Unwritten.

(** [createUrl] writes nothing to the cache storage: what [getCachedRequest]
    finds after the call is what it would have found before it, whatever
    request the URL was built for. *)
Lemma createUrl_keeps_cacheStorage (request : option AuthenticationParameters)
    (isLoginCall : bool) (w : World) :
  w_cacheStorage (snd (createUrl config request isLoginCall w)) = w_cacheStorage w.
Proof.
  apply (createUrl_unwritten w_cacheStorage); reflexivity.
Qed.

(** [getCachedRequest] in one step: a stored item that cannot be decoded
    or parsed stays where it is; one that can is removed, whether what was
    parsed is an object or not. *)
Lemma getCachedRequest_run (state : string) (w : World) :
  getCachedRequest config state w
  = match w_cacheStorage w !! REQUEST_PARAMS
          ≫= base64Decode (cryptoInterface config) with
    | None => (Thrown (TokenRequestCacheError (RuntimeError "base64Decode")), w)
    | Some decoded =>
        match parseRequest (decoders config) decoded with
        | None => (Thrown (TokenRequestCacheError (RuntimeError "JSON.parse")), w)
        | Some parsed =>
            let w' :=
              set_cacheStorage (delete REQUEST_PARAMS (w_cacheStorage w)) w in
            match parsed with
            | NoObject =>
                (Thrown (TokenRequestCacheError (RuntimeError "TypeError")), w')
            | RequestObject parsedRequest =>
                (Returned
                   (if StringUtils.isEmpty (te_authority parsedRequest)
                    then set_te_authority
                           (w_cacheStorage w' !! generateAuthorityKey state)
                           parsedRequest
                    else parsedRequest),
                 w')
            end
        end
    end.
Proof.
  unfold getCachedRequest. run_client.
  destruct (w_cacheStorage w !! REQUEST_PARAMS ≫= _); [|reflexivity].
  destruct (parseRequest _ _) as [[|parsedRequest]|]; try reflexivity.
  destruct (StringUtils.isEmpty (te_authority parsedRequest)); reflexivity.
Qed.

(** [getCachedRequest] fails when no request parameters are stored. *)
Lemma getCachedRequest_nothing_stored (state : string) (w : World) :
  w_cacheStorage w !! REQUEST_PARAMS = None ->
  getCachedRequest config state w
  = (Thrown (TokenRequestCacheError (RuntimeError "base64Decode")), w).
Proof.
  intros Hnone. rewrite getCachedRequest_run. rewrite Hnone. reflexivity.
Qed.

(** ** A failed exchange leaves the credential cache alone *)

Lemma untouched_throw {X A} (observe : World -> X) (e : AuthError) :
  untouched_on_failure observe (@throw A e).
Proof. intros w e' w' H. inversion H. reflexivity. Qed.

Lemma untouched_bind {X A B} (observe : World -> X) (m : M A) (k : A -> M B) :
  preserves observe m ->
  (forall a, untouched_on_failure observe (k a)) ->
  untouched_on_failure observe (bind m k).
Proof.
  intros Hm Hk w e w' H. unfold bind in H. specialize (Hm w).
  destruct (m w) as [[a|e1] w1]; cbn [snd] in Hm.
  - rewrite (Hk a w1 e w' H). exact Hm.
  - inversion H; subst. exact Hm.
Qed.

Lemma getCachedRequest_keeps_tokenCache (state : string) :
  preserves w_tokenCache (getCachedRequest config state).
Proof.
  intros w. rewrite getCachedRequest_run.
  destruct (w_cacheStorage w !! REQUEST_PARAMS ≫= _); [|reflexivity].
  destruct (parseRequest _ _) as [[|parsedRequest]|]; reflexivity.
Qed.

Lemma getTokenResponse_failure_keeps_tokenCache (endpoint : string)
    (payload : TokenRequestPayload) (tokenRequest : TokenExchangeParameters)
    (codeResponse : option CodeResponse) :
  untouched_on_failure w_tokenCache
    (getTokenResponse config endpoint payload tokenRequest codeResponse).
Proof.
  intros w e w' H.
  unfold getTokenResponse, validateServerAuthorizationTokenResponse in H.
  unfold bind at 1 in H. unfold emit, modify in H.
  destruct (sendPostRequestAsync _ _ _) as [answer|cause].
  - unfold bind at 1 in H. destruct (error answer).
    + inversion H. reflexivity.
    + unfold ret at 1 in H. cbv beta iota in H. unfold bind at 1 in H.
      pose proof (createTokenResponse_state answer (te_authority tokenRequest)
                    (te_resource tokenRequest)
                    (cr_userRequestState <$> codeResponse)
                    (add_event (Post endpoint payload) w)) as Hstate.
      destruct (createTokenResponse config _ _ _ _ _) as [[response|e1] w1].
      * unfold bind, modify, ret in H. discriminate.
      * inversion H; subst. reflexivity.
  - inversion H. reflexivity.
Qed.

Lemma renewToken_failure_keeps_tokenCache (request : TokenRenewParameters)
    (endpoint refreshTokenArg : string) :
  untouched_on_failure w_tokenCache
    (renewToken config request endpoint refreshTokenArg).
Proof.
  unfold renewToken. apply untouched_bind.
  - intros w. rewrite getRedirectUri_state. reflexivity.
  - intros uri. apply getTokenResponse_failure_keeps_tokenCache.
Qed.

(** Whatever makes [acquireToken] fail, an answer with an error field
    included, the cached credentials are those from before the call. *)
Lemma acquireToken_failure_keeps_tokenCache (codeResponse : option CodeResponse) :
  untouched_on_failure w_tokenCache (acquireToken config codeResponse).
Proof.
  intros w e w' H. apply acquireToken_error_cleanup in H as [w1 [Htry ->]].
  change (w_tokenCache (after_cleanup (cr_userRequestState <$> codeResponse) w1))
    with (w_tokenCache w1).
  revert w e w1 Htry.
  change (untouched_on_failure w_tokenCache (acquireToken_try config codeResponse)).
  unfold acquireToken_try. destruct codeResponse as [cr|]; [|apply untouched_throw].
  destruct (StringUtils.isEmpty (code cr)); [apply untouched_throw|].
  apply untouched_bind; [apply getCachedRequest_keeps_tokenCache | intros tokenRequest].
  apply untouched_bind.
  { intros w. apply (resolveIfIncomplete_unobserved w_tokenCache); reflexivity. }
  intros acquireTokenAuthority.
  apply untouched_bind; [intros w; rewrite deref_run; reflexivity | intros authority].
  apply untouched_bind;
    [intros w; rewrite getRedirectUri_state; reflexivity | intros redirect].
  apply getTokenResponse_failure_keeps_tokenCache.
Qed.

(** The same for [getValidToken]. *)
Lemma getValidToken_failure_keeps_tokenCache (request : option TokenRenewParameters) :
  untouched_on_failure w_tokenCache (getValidToken config request).
Proof.
  assert (Htry : preserves w_tokenCache (getValidToken_try config request)).
  { unfold getValidToken_try. destruct request as [request|]; [|intros w; reflexivity].
    apply unwritten_bind.
    - intros w. apply (resolveRenewRequest_unobserved w_tokenCache); reflexivity.
    - intros r w. unfold answerFromCache. unfold bind at 1.
      rewrite getCachedTokens_run.
      destruct (matches _ _ _ _ _ w) as [|item [|second more]]; try reflexivity.
      run_client. destruct (cacheStillValid _ _ _ _); [|reflexivity].
      destruct (cachedTokenResponse config item (rs_account r)); reflexivity. }
  intros w e w' H. unfold getValidToken in H. unfold bind at 1 in H.
  unfold try_catch in H. specialize (Htry w).
  destruct (getValidToken_try config request w) as [[completion|e1] w1];
    cbn [snd] in Htry.
  - destruct completion as [response|renewRequest endpoint refreshTokenArg].
    + discriminate.
    + rewrite (renewToken_failure_keeps_tokenCache _ _ _ _ _ _ H). exact Htry.
  - rewrite resetAndRethrow_run in H. inversion H; subst. exact Htry.
Qed.

End ClientFacts.

(** * The model run on the concrete client *)

(** The query string [createUrl] builds for a login call with the scopes
    [["read"]]. *)
Example createLoginUrl_query_string :
  fst (createUrl Scenario.config (Some Scenario.loginRequest) true Scenario.fresh)
  = Returned
      ("client_id=app&scope=read%20app&redirect_uri=https%3A%2F%2Fapp%2Fcb"
       ++ "&client-request-id=guid-0&response_mode=fragment&response_type=code"
       ++ "&code_challenge=challenge-1&code_challenge_method=S256&state=guid-2"
       ++ "&login_hint=&nonce=guid-3").
Proof. vm_compute. reflexivity. Qed.

(** C5, on the code.  For a login call with the scopes [["read"]] the query
    string has the client id among the scope values and
    [code_challenge_method=S256], with the state value [guid-2].  But
    [createUrl] writes nothing to the cache storage, for any request and
    any state of the client; so after the call on a fresh client the cache
    storage is still empty, and [getCachedRequest] with the emitted state
    value, and with it [acquireToken] for a code response that echoes that
    value, fails with the token-request-cache error. *)
Theorem createUrl_does_not_persist_request :
  (forall config request isLoginCall w,
     w_cacheStorage (snd (createUrl config request isLoginCall w))
     = w_cacheStorage w)
  /\ (let built :=
        createUrl Scenario.config (Some Scenario.loginRequest) true Scenario.fresh in
      let echoed := {| code := Some "code-1"; cr_userRequestState := "guid-2" |} in
      (exists query,
         fst built = Returned query
         /\ In "app" (ScopeSet.asArray
                        (ScopeSet.appendScopes None
                           (ScopeSet.new ["read"] "app" false)))
         /\ query
            = RequestParameterBuilder.createQueryString
                [("client_id", "app"); ("scope", "read%20app");
                 ("redirect_uri", "https%3A%2F%2Fapp%2Fcb");
                 ("client-request-id", "guid-0"); ("response_mode", "fragment");
                 ("response_type", "code"); ("code_challenge", "challenge-1");
                 ("code_challenge_method", "S256"); ("state", "guid-2");
                 ("login_hint", ""); ("nonce", "guid-3")])
      /\ w_cacheStorage (snd built) = ∅
      /\ fst (getCachedRequest Scenario.config "guid-2" (snd built))
         = Thrown (TokenRequestCacheError (RuntimeError "base64Decode"))
      /\ fst (acquireToken Scenario.config (Some echoed) (snd built))
         = Thrown (TokenRequestCacheError (RuntimeError "base64Decode"))).
Proof.
  split.
  - intros config request isLoginCall w. apply createUrl_keeps_cacheStorage.
  - cbv zeta. split; [|split; [|split]].
    + eexists. split; [vm_compute; reflexivity|]. split.
      * vm_compute. right. left. reflexivity.
      * vm_compute. reflexivity.
    + rewrite createUrl_keeps_cacheStorage. reflexivity.
    + vm_compute. reflexivity.
    + vm_compute. reflexivity.
Qed.

(** Had the request been stored, [getCachedRequest] would find it. *)
Example getCachedRequest_finds_stored_request :
  fst (getCachedRequest Scenario.config "guid-2"
         (set_cacheStorage {[ REQUEST_PARAMS := "read app" ]} Scenario.fresh))
  = Returned {| te_scopes := Some ["read"; "app"]; te_resource := None;
                te_authority := None; te_codeVerifier := None |}.
Proof. vm_compute. reflexivity. Qed.

(** C4, on the code.  [user] is signed in, an interactive request is
    pending, the one cached entry for the requested scope has expired, and
    the token endpoint refuses the refresh token.  [getValidToken] throws
    the server's error, but the [catch] clause has not run: the account is
    still [user] and the pending request state is still stored.  The
    renewal is returned without being awaited, so its failure does not
    pass through the [catch] clause; the same happens when the transport
    itself fails during the renewal. *)
Theorem getValidToken_renewal_error_skips_cleanup :
  let before := Scenario.signedIn [Scenario.entry "rt" "1010"] in
  let result :=
    getValidToken Scenario.refusingConfig (Some Scenario.readRequest) before in
  fst result = Thrown (ServerError "invalid_grant" (Some "refresh token expired"))
  /\ w_account (snd result) = Some Scenario.user
  /\ w_cacheStorage (snd result) !! REQUEST_STATE = Some "pending"
  /\ posts (snd result)
     = [Post "https://login/common/token"
          (ServerTokenRequestParameters "app"
             (renew_as_exchange
                (set_tr_authority (Some "https://login/common") Scenario.readRequest))
             None "https://app/cb" (Some "rt"))]
  /\ (let down :=
        getValidToken
          (Scenario.configWith (UriString "https://app/cb") Scenario.tokenEndpointDown)
          (Some Scenario.readRequest) before in
      fst down = Thrown (NetworkError "timeout")
      /\ w_account (snd down) = Some Scenario.user
      /\ w_cacheStorage (snd down) !! REQUEST_STATE = Some "pending").
Proof.
  cbv zeta. repeat split; vm_compute; reflexivity.
Qed.

(** The same refusal on the code path goes through the [catch] clause of
    [acquireToken]: the account is forgotten and the temporary items are
    removed. *)
Example acquireToken_server_error_cleans_up :
  let pending :=
    set_cacheStorage {[ REQUEST_PARAMS := "read"; REQUEST_STATE := "guid-2" ]}
      (Scenario.signedIn []) in
  let echoed := {| code := Some "code-1"; cr_userRequestState := "guid-2" |} in
  let result := acquireToken Scenario.refusingConfig (Some echoed) pending in
  fst result = Thrown (ServerError "invalid_grant" (Some "refresh token expired"))
  /\ w_account (snd result) = None
  /\ w_cacheStorage (snd result) = ∅
  /\ w_tokenCache (snd result) = [].
Proof.
  cbv zeta. repeat split; vm_compute; reflexivity.
Qed.

(** C6, as stated, fails: with no redirect URI configured, [createUrl] on a
    fresh client has made the discovery call by the time it fails with the
    configuration error, and when discovery cannot be reached it fails with
    the endpoint-discovery error and not with the configuration error. *)
Lemma createUrl_discovers_before_redirect_check :
  let reachable :=
    Scenario.configWith NotConfigured (Scenario.server Scenario.grantedBody) in
  let offline := Scenario.configWith NotConfigured Scenario.unreachable in
  redirect_unconfigured (redirectUri (authOptions reachable)) = true
  /\ fst (createUrl reachable (Some Scenario.loginRequest) true Scenario.fresh)
     = Thrown RedirectUriEmptyError
  /\ network_calls
       (snd (createUrl reachable (Some Scenario.loginRequest) true Scenario.fresh))
     = [Discovery "https://login/common"]
  /\ network_calls
       (snd (createUrl reachable (Some Scenario.loginRequest) true Scenario.fresh))
     <> network_calls Scenario.fresh
  /\ fst (createUrl offline (Some Scenario.loginRequest) true Scenario.fresh)
     = Thrown (EndpointDiscoveryIncompleteError (NetworkError "offline"))
  /\ fst (createUrl offline (Some Scenario.loginRequest) true Scenario.fresh)
     <> Thrown RedirectUriEmptyError.
Proof.
  cbv zeta. repeat split; try (vm_compute; reflexivity);
    vm_compute; discriminate.
Qed.

(** The persisted ID token is there but the client info is not: no account,
    and no exception. *)
Lemma getAccount_absent_when_not_logged_in_witness :
  let w := set_cacheStorage {[ ID_TOKEN_KEY := "raw-id-token" ]} Scenario.fresh in
  w_account w = None
  /\ StringUtils.isEmpty (w_cacheStorage w !! CLIENT_INFO_KEY) = true
  /\ getAccount Scenario.config w = (Returned None, w).
Proof.
  cbv zeta. split; [reflexivity|]. split; [reflexivity|].
  apply (getAccount_absent_when_not_logged_in Scenario.config).
  - reflexivity.
  - right. reflexivity.
Defined.

(** Asking for the client id as a scope on a fresh client: login is
    required, and nothing was looked up or sent. *)
Lemma getValidToken_requires_login_witness :
  let request :=
    {| tr_scopes := Some ["app"]; tr_resource := None; tr_authority := None;
       tr_account := None; tr_forceRefresh := None |} in
  fst (getValidToken Scenario.config (Some request) Scenario.fresh)
  = Thrown UserLoginRequiredError
  /\ w_trace (snd (getValidToken Scenario.config (Some request) Scenario.fresh)) = [].
Proof.
  cbv zeta.
  pose proof (getValidToken_requires_login Scenario.config
                {| tr_scopes := Some ["app"]; tr_resource := None;
                   tr_authority := None; tr_account := None;
                   tr_forceRefresh := None |}
                Scenario.fresh eq_refl eq_refl eq_refl) as [Hrun Htrace].
  split.
  - rewrite Hrun. reflexivity.
  - exact Htrace.
Defined.

(** No redirect URI and a reachable authority: the configuration error
    after one discovery call. *)
Lemma createUrl_without_redirect_uri_witness :
  let config :=
    Scenario.configWith NotConfigured (Scenario.server Scenario.grantedBody) in
  let result := createUrl config (Some Scenario.loginRequest) true Scenario.fresh in
  fst result = Thrown RedirectUriEmptyError
  /\ w_trace (snd result) = [Discovery "https://login/common"]
  /\ w_randomDrawn (snd result) = 0%nat
  /\ w_cacheStorage (snd result) = ∅.
Proof.
  cbv zeta.
  exact (createUrl_without_redirect_uri
           (Scenario.configWith NotConfigured (Scenario.server Scenario.grantedBody))
           (Some Scenario.loginRequest) true Scenario.fresh eq_refl).
Defined.

(** The refusing server on a client with one cached entry: the server's
    error, and the cache and the account as they were. *)
Lemma getTokenResponse_server_error_writes_nothing_witness :
  let w := Scenario.signedIn [Scenario.entry "rt" "1010"] in
  let payload :=
    ServerTokenRequestParameters "app" (renew_as_exchange Scenario.readRequest)
      None "https://app/cb" (Some "rt") in
  let result :=
    getTokenResponse Scenario.refusingConfig "https://login/common/token" payload
      (renew_as_exchange Scenario.readRequest) None w in
  result = (Thrown (ServerError "invalid_grant" (Some "refresh token expired")),
            add_event (Post "https://login/common/token" payload) w)
  /\ w_tokenCache (snd result) = [Scenario.entry "rt" "1010"]
  /\ w_cacheStorage (snd result) = {[ REQUEST_STATE := "pending" ]}
  /\ w_account (snd result) = Some Scenario.user.
Proof.
  cbv zeta.
  exact (getTokenResponse_server_error_writes_nothing Scenario.refusingConfig
           "https://login/common/token"
           (ServerTokenRequestParameters "app"
              (renew_as_exchange Scenario.readRequest) None "https://app/cb"
              (Some "rt"))
           (renew_as_exchange Scenario.readRequest) None Scenario.refusedBody
           "invalid_grant" (Scenario.signedIn [Scenario.entry "rt" "1010"])
           eq_refl eq_refl).
Defined.

(** Two cached entries that differ in their refresh token only, and none at
    all: the two errors of the cache lookup. *)
Lemma getValidToken_match_count_witness :
  fst (getValidToken Scenario.config (Some Scenario.readRequest)
         (Scenario.signedIn [Scenario.entry "rt" "4600"; Scenario.entry "rt2" "4600"]))
  = Thrown (MultipleMatchingTokensInCacheError "read")
  /\ fst (getValidToken Scenario.config (Some Scenario.readRequest)
            (Scenario.signedIn []))
     = Thrown (NoTokensFoundError "read").
Proof.
  split.
  - eassert (Hres : resolveRenewRequest Scenario.config Scenario.readRequest
                      (Scenario.signedIn
                         [Scenario.entry "rt" "4600"; Scenario.entry "rt2" "4600"])
                    = (Returned _, _)) by (vm_compute; reflexivity).
    pose proof (getValidToken_match_count Scenario.config _ _ _ _ Hres)
      as (_ & Hmany & _).
    rewrite Hmany; [reflexivity | vm_compute; lia].
  - eassert (Hres : resolveRenewRequest Scenario.config Scenario.readRequest
                      (Scenario.signedIn [])
                    = (Returned _, _)) by (vm_compute; reflexivity).
    pose proof (getValidToken_match_count Scenario.config _ _ _ _ Hres)
      as (Hnone & _ & _).
    rewrite Hnone; [reflexivity | vm_compute; reflexivity].
Defined.

(** One cached entry, the clock at 1000 and an offset of 300: an entry
    that expires at 4600 is returned from the cache without a post; one
    that expires at 1010 is renewed with its refresh token. *)
Lemma getValidToken_single_match_witness :
  (fst (getValidToken Scenario.config (Some Scenario.readRequest)
          (Scenario.signedIn [Scenario.entry "rt" "4600"]))
   = Returned
       {| uniqueId := ""; tenantId := ""; tr_scopes_granted := ["read"; "write"];
          tokenType := "Bearer"; idToken := ""; idTokenClaims := None;
          accessToken := "at"; refreshToken := "rt";
          expiresOn := Js.TimeValue 4600000;
          account := Some Scenario.user; userRequestState := "" |}
   /\ posts (snd (getValidToken Scenario.config (Some Scenario.readRequest)
                    (Scenario.signedIn [Scenario.entry "rt" "4600"]))) = [])
  /\ (fst (getValidToken Scenario.config (Some Scenario.readRequest)
             (Scenario.signedIn [Scenario.entry "rt" "1010"]))
      = Returned
          {| uniqueId := ""; tenantId := ""; tr_scopes_granted := ["read"];
             tokenType := "Bearer"; idToken := ""; idTokenClaims := None;
             accessToken := "at-new"; refreshToken := "rt-new";
             expiresOn := Js.TimeValue 4600000;
             account := None; userRequestState := "" |}
      /\ posts (snd (getValidToken Scenario.config (Some Scenario.readRequest)
                       (Scenario.signedIn [Scenario.entry "rt" "1010"])))
         = [Post "https://login/common/token"
              (ServerTokenRequestParameters "app"
                 (renew_as_exchange
                    (set_tr_authority (Some "https://login/common")
                       Scenario.readRequest))
                 None "https://app/cb" (Some "rt"))]).
Proof.
  split.
  - eassert (Hres : resolveRenewRequest Scenario.config Scenario.readRequest
                      (Scenario.signedIn [Scenario.entry "rt" "4600"])
                    = (Returned _, _)) by (vm_compute; reflexivity).
    pose proof (getValidToken_single_match Scenario.config _ _ _ _
                  (Scenario.entry "rt" "4600") Hres eq_refl) as [Hfresh _].
    cbv zeta in Hfresh.
    destruct Hfresh as (Hposts & _ & Hrun).
    + reflexivity.
    + vm_compute. reflexivity.
    + vm_compute. reflexivity.
    + match type of Hrun with
      | match ?c with _ => _ end =>
          let v := eval vm_compute in c in change c with v in Hrun
      end.
      destruct Hrun as (Hrun & _).
      rewrite Hrun. split; [reflexivity|]. cbn [snd]. rewrite Hposts. reflexivity.
  - eassert (Hres : resolveRenewRequest Scenario.config Scenario.readRequest
                      (Scenario.signedIn [Scenario.entry "rt" "1010"])
                    = (Returned _, _)) by (vm_compute; reflexivity).
    pose proof (getValidToken_single_match Scenario.config _ _ _ _
                  (Scenario.entry "rt" "1010") Hres eq_refl) as [_ Hstale].
    cbv zeta in Hstale.
    destruct Hstale as (Hrun & _).
    + right. right. vm_compute. reflexivity.
    + rewrite Hrun. split; vm_compute; reflexivity.
Defined.

(** C1, as stated, fails: [user] is signed in, the one cached entry for
    the requested scope expires within the renewal offset, and no redirect
    URI is configured.  The lookup leaves exactly that entry and the
    refresh is due, but no refresh-token exchange is performed:
    [getValidToken] fails with the redirect-URI-empty error and nothing
    has been posted to the token endpoint. *)
Lemma getValidToken_due_renewal_without_redirect_uri :
  let before := Scenario.signedIn [Scenario.entry "rt" "1010"] in
  let request := Scenario.readRequest in
  let result := getValidToken Scenario.configWithoutRedirect (Some request) before in
  (exists r w1,
     resolveRenewRequest Scenario.configWithoutRedirect request before
     = (Returned r, w1)
     /\ matches Scenario.configWithoutRedirect (rs_scopes r)
          (canonicalAuthority (rs_authority r)) (tr_resource request)
          (homeAccountIdentifier <$> rs_account r) w1
        = [Scenario.entry "rt" "1010"])
  /\ Js.truthy_obool (tr_forceRefresh request) = false
  /\ Js.gt (Js.Number "1010")
       (Js.add (nowSeconds before)
          (tokenRenewalOffsetSeconds (systemOptions Scenario.configWithoutRedirect)))
     = false
  /\ fst result = Thrown RedirectUriEmptyError
  /\ posts (snd result) = []
  /\ (forall response, fst result <> Returned response).
Proof.
  cbv zeta. split; [|split; [|split; [|split; [|split]]]].
  - eexists. eexists. split; vm_compute; reflexivity.
  - reflexivity.
  - vm_compute. reflexivity.
  - vm_compute. reflexivity.
  - vm_compute. reflexivity.
  - intros response. vm_compute. discriminate.
Qed.

(** * Further properties of the [Storage] class *)

Section StorageRoundTrips.

Context {Entity : Type}.
Variable getCredentialType : string -> option Storage.CredentialType.
Variable Object_prototype : Entity.
Variable Get : Entity -> string -> option (Storage.Value Entity).

Local Abbreviation setItem := (Storage.setItem getCredentialType).
Local Abbreviation getItem := (Storage.getItem getCredentialType Get).
Local Abbreviation removeItem := (Storage.removeItem getCredentialType Get).
Local Abbreviation clear := (Storage.clear getCredentialType Get).
Local Abbreviation read := (Storage.read Get).

(** Reading a key of a section after a write to it: what was written,
    except that a string written to [__proto__] is dropped when that is
    not an own property. *)
Lemma read_write_same (key : string) (value : Storage.Value Entity)
    (section : Storage.Section Entity) :
  read (Storage.write key value section) key
  = match value with
    | Storage.VObject _ => Some value
    | Storage.VString _ =>
        if decide (key = "__proto__" /\ Storage.own section !! key = None)
        then Some (Storage.VObject (Storage.prototype section))
        else Some value
    end.
Proof.
  unfold Storage.write, Storage.read, Storage.inherited.
  destruct (String.eqb key "__proto__") eqn:Hkey; cbn [andb].
  - apply String.eqb_eq in Hkey.
    destruct (Storage.own section !! key) as [v|] eqn:Hown.
    + rewrite bool_decide_eq_true_2 by eauto. cbn [negb Storage.own].
      rewrite lookup_insert_eq.
      destruct value; [|reflexivity].
      rewrite decide_False by (intros [_ H]; discriminate). reflexivity.
    + rewrite bool_decide_eq_false_2 by (intros [v H]; discriminate).
      cbn [negb]. destruct value; cbn [Storage.own Storage.prototype].
      * rewrite Hown. rewrite decide_True by (split; [exact Hkey | reflexivity]).
        subst key. reflexivity.
      * rewrite Hown. subst key. reflexivity.
  - cbn [Storage.own]. rewrite lookup_insert_eq.
    apply String.eqb_neq in Hkey.
    destruct value; [|reflexivity].
    rewrite decide_False by (intros [H _]; contradiction). reflexivity.
Qed.

(** A write to a key other than [__proto__], or of a string, leaves what
    is read under every other key. *)
Lemma read_write_other (key other : string) (value : Storage.Value Entity)
    (section : Storage.Section Entity) :
  other <> key ->
  key <> "__proto__" \/ (exists text, value = Storage.VString text) ->
  read (Storage.write key value section) other = read section other.
Proof.
  intros Hne Hplain. unfold Storage.write.
  destruct (String.eqb key "__proto__" && _) eqn:Hproto.
  - apply andb_true_iff in Hproto as [Hkey _]. apply String.eqb_eq in Hkey.
    destruct Hplain as [H | [text ->]]; [contradiction | reflexivity].
  - unfold Storage.read, Storage.inherited. cbn [Storage.own Storage.prototype].
    rewrite lookup_insert_ne by congruence. reflexivity.
Qed.

(** Deleting a key leaves what is read under every other key. *)
Lemma read_remove_other (key other : string) (section : Storage.Section Entity) :
  other <> key ->
  read (Storage.remove key section) other = read section other.
Proof.
  intros Hne. unfold Storage.read, Storage.remove, Storage.inherited.
  cbn [Storage.own Storage.prototype].
  rewrite lookup_delete_ne by congruence. reflexivity.
Qed.

(** After a key is deleted the section reads what it inherits under it. *)
Lemma read_remove_same (key : string) (section : Storage.Section Entity) :
  read (Storage.remove key section) key = Storage.inherited Get section key.
Proof.
  unfold Storage.read, Storage.remove, Storage.inherited.
  cbn [Storage.own Storage.prototype]. rewrite lookup_delete_eq. reflexivity.
Qed.

(** What an in-memory [getItem] reads: the selected section under the
    key, or [null]; the empty object when the type is not a known one. *)
Lemma getItem_in_memory_reads_section (key : string)
    (type : option Storage.CacheSchemaType) (st : Storage.t Entity) :
  fst (getItem key type (Some true) st)
  = match type, section_of getCredentialType type key with
    | None, _ => Storage.IEmptyObject
    | Some _, None => Storage.INull
    | Some _, Some s =>
        Storage.or_null (read (entries s (Storage.inMemoryCache st)) key)
    end.
Proof.
  unfold Storage.getItem, section_of. simpl.
  destruct type as [[]|]; simpl; try reflexivity.
  destruct (getCredentialType key) as [[]|]; reflexivity.
Qed.

(** What an in-memory [setItem] writes: the selected section under the
    key and nothing else. *)
Lemma setItem_in_memory_writes_section (key : string) (value : Storage.Value Entity)
    (type : option Storage.CacheSchemaType) (st : Storage.t Entity)
    (s : CacheSection) :
  entries s (Storage.inMemoryCache (setItem key value type (Some true) st))
  = if decide (section_of getCredentialType type key = Some s)
    then Storage.write key value (entries s (Storage.inMemoryCache st))
    else entries s (Storage.inMemoryCache st).
Proof.
  unfold Storage.setItem, section_of. simpl.
  destruct type as [[]|]; simpl;
    try (destruct (getCredentialType key) as [[]|]; simpl);
    destruct s; simpl; try case_decide; try reflexivity; congruence.
Qed.

(** X1. Round trip, in a cache whose sections inherit from
    [Object.prototype]: an in-memory [getItem] right after an in-memory
    [setItem] of the same key and type gives the value back when it is an
    object or a string that is not empty, and [null] when it is the empty
    string, for every key but [__proto__].  A string stored under
    [__proto__] is dropped when the section has no own property of that
    name, and what is read is [Object.prototype].  When the type is a
    credential whose key names no credential kind nothing was stored and
    the answer is [null]; when the type is unknown the answer is the empty
    object. *)
Theorem setItem_getItem_round_trip (key : string) (value : Storage.Value Entity)
    (type : option Storage.CacheSchemaType) (st : Storage.t Entity) :
  plain Object_prototype (Storage.inMemoryCache st) ->
  key <> "__proto__" \/ (exists text, value = Storage.VString text) ->
  fst (getItem key type (Some true) (setItem key value type (Some true) st))
  = match type, section_of getCredentialType type key with
    | None, _ => Storage.IEmptyObject
    | Some _, None => Storage.INull
    | Some _, Some s =>
        if decide (key = "__proto__"
                   /\ Storage.own (entries s (Storage.inMemoryCache st)) !! key
                      = None)
        then Storage.IValue (Storage.VObject Object_prototype)
        else if Storage.truthy value then Storage.IValue value
             else Storage.INull
    end.
Proof.
  intros Hplain Hkey. rewrite getItem_in_memory_reads_section.
  destruct type as [ty|]; [|reflexivity].
  destruct (section_of getCredentialType (Some ty) key) as [s|] eqn:Hs;
    [|reflexivity].
  rewrite setItem_in_memory_writes_section. rewrite Hs.
  rewrite decide_True by reflexivity. rewrite read_write_same.
  rewrite (Hplain s).
  destruct value as [text|e].
  - case_decide; reflexivity.
  - destruct Hkey as [Hkey | [text Htext]]; [|discriminate].
    rewrite decide_False by (intros [H _]; contradiction). reflexivity.
Qed.

(** X2. In a cache whose sections inherit from [Object.prototype], writing
    one key does not change what is read under another key, whatever the
    two types are, as long as the key written is not [__proto__] or what
    is written is a string. *)
Theorem setItem_keeps_other_keys (key other : string) (value : Storage.Value Entity)
    (type otherType : option Storage.CacheSchemaType) (st : Storage.t Entity) :
  plain Object_prototype (Storage.inMemoryCache st) ->
  other <> key ->
  key <> "__proto__" \/ (exists text, value = Storage.VString text) ->
  fst (getItem other otherType (Some true) (setItem key value type (Some true) st))
  = fst (getItem other otherType (Some true) st).
Proof.
  intros _ Hne Hkey. rewrite !getItem_in_memory_reads_section.
  destruct otherType as [ty|]; [|reflexivity].
  destruct (section_of getCredentialType (Some ty) other) as [s|]; [|reflexivity].
  rewrite setItem_in_memory_writes_section. case_decide; [|reflexivity].
  rewrite read_write_other by assumption. reflexivity.
Qed.

(** What an in-memory [removeItem] does to the cache: it deletes the own
    property of the selected section when the section reads a truthy
    value under the key, and nothing else. *)
Lemma removeItem_in_memory_section (key : string)
    (type : option Storage.CacheSchemaType) (st : Storage.t Entity)
    (s : CacheSection) :
  entries s (Storage.inMemoryCache (snd (removeItem key type (Some true) st)))
  = if decide (section_of getCredentialType type key = Some s)
    then (if Storage.present Get (entries s (Storage.inMemoryCache st)) key
          then Storage.remove key (entries s (Storage.inMemoryCache st))
          else entries s (Storage.inMemoryCache st))
    else entries s (Storage.inMemoryCache st).
Proof.
  unfold Storage.removeItem, Storage.getCache, section_of. simpl.
  destruct type as [[]|]; simpl;
    try (destruct (getCredentialType key) as [[]|]; simpl);
    destruct s; simpl; try case_decide; try congruence;
    repeat match goal with
           | |- context [Storage.present ?G ?m ?k] =>
               destruct (Storage.present G m k) eqn:?
           end; reflexivity.
Qed.

(** The answer of an in-memory [removeItem]: whether the selected section
    reads a truthy value under the key. *)
Lemma removeItem_in_memory_answer (key : string)
    (type : option Storage.CacheSchemaType) (st : Storage.t Entity) :
  fst (removeItem key type (Some true) st)
  = match section_of getCredentialType type key with
    | Some s => Storage.present Get (entries s (Storage.inMemoryCache st)) key
    | None => false
    end.
Proof.
  unfold Storage.removeItem, Storage.getCache, section_of. simpl.
  destruct type as [[]|]; simpl;
    try (destruct (getCredentialType key) as [[]|]; simpl);
    repeat match goal with
           | |- context [Storage.present ?G ?m ?k] =>
               destruct (Storage.present G m k) eqn:?
           end; reflexivity.
Qed.

(** An in-memory [removeItem] that answers [false] has changed nothing. *)
Lemma removeItem_in_memory_false (key : string)
    (type : Storage.CacheSchemaType) (st : Storage.t Entity) :
  fst (removeItem key (Some type) (Some true) st) = false ->
  snd (removeItem key (Some type) (Some true) st) = st.
Proof.
  unfold Storage.removeItem, Storage.getCache. simpl.
  destruct type; simpl;
    try (destruct (getCredentialType key) as [[]|]; simpl);
    repeat match goal with
           | |- context [Storage.present ?G ?m ?k] =>
               destruct (Storage.present G m k) eqn:?
           end; simpl; try discriminate; reflexivity.
Qed.

Lemma or_null_value (o : option (Storage.Value Entity)) :
  (exists v, Storage.or_null o = Storage.IValue v)
  <-> match o with
      | Some v => Storage.truthy v = true
      | None => False
      end.
Proof.
  destruct o as [v|]; simpl.
  - destruct (Storage.truthy v); split; try congruence; eauto.
    intros [w H]. discriminate.
  - split; [intros [w H]; discriminate | tauto].
Qed.

(** X3. In a cache whose sections inherit from [Object.prototype], an
    in-memory [removeItem] answers [true] exactly when [getItem] found a
    value under that key and type.  It then has deleted the own property
    of that name, if there was one, and what [getItem] finds afterwards is
    what the section inherits under the key: [null] when it inherits
    nothing, but for a key such as [toString] still the inherited value;
    when there was no own property nothing has been removed at all.  When
    it answers [false] the storage is what it was and no change emitter
    has been called: in particular an entry whose value is the empty
    string is reported as not removed and stays in its section. *)
Theorem removeItem_removes_what_getItem_finds (key : string)
    (type : Storage.CacheSchemaType) (st : Storage.t Entity) :
  plain Object_prototype (Storage.inMemoryCache st) ->
  let result := removeItem key (Some type) (Some true) st in
  (fst result = true
   <-> exists v, fst (getItem key (Some type) (Some true) st) = Storage.IValue v)
  /\ (fst result = true ->
      exists s,
        section_of getCredentialType (Some type) key = Some s
        /\ Storage.own (entries s (Storage.inMemoryCache (snd result))) !! key = None
        /\ fst (getItem key (Some type) (Some true) (snd result))
           = Storage.or_null
               (if String.eqb key "__proto__"
                then Some (Storage.VObject Object_prototype)
                else Get Object_prototype key)
        /\ (Storage.own (entries s (Storage.inMemoryCache st)) !! key = None ->
            Storage.inMemoryCache (snd result) = Storage.inMemoryCache st
            /\ fst (getItem key (Some type) (Some true) (snd result))
               = fst (getItem key (Some type) (Some true) st)))
  /\ (fst result = false ->
      snd result = st
      /\ fst (getItem key (Some type) (Some true) st) = Storage.INull).
Proof.
  intros Hplain. cbv zeta.
  assert (Hanswer :
            fst (removeItem key (Some type) (Some true) st) = true
            <-> exists v,
                  fst (getItem key (Some type) (Some true) st) = Storage.IValue v).
  { rewrite removeItem_in_memory_answer, getItem_in_memory_reads_section.
    destruct (section_of getCredentialType (Some type) key) as [s|].
    - rewrite or_null_value. unfold Storage.present.
      destruct (read (entries s (Storage.inMemoryCache st)) key); [tauto|].
      split; [discriminate | tauto].
    - split; [discriminate | intros [v H]; discriminate]. }
  split; [exact Hanswer|]. split.
  - intros Htrue. rewrite removeItem_in_memory_answer in Htrue.
    destruct (section_of getCredentialType (Some type) key) as [s|] eqn:Hs;
      [|discriminate].
    exists s. split; [reflexivity|].
    assert (Hsection :
              entries s (Storage.inMemoryCache
                           (snd (removeItem key (Some type) (Some true) st)))
              = Storage.remove key (entries s (Storage.inMemoryCache st))).
    { rewrite removeItem_in_memory_section, Hs.
      rewrite decide_True by reflexivity. rewrite Htrue. reflexivity. }
    split; [|split].
    + rewrite Hsection. cbn [Storage.remove Storage.own]. apply lookup_delete_eq.
    + rewrite getItem_in_memory_reads_section, Hs, Hsection.
      rewrite read_remove_same. unfold Storage.inherited. rewrite (Hplain s).
      reflexivity.
    + intros Hown. split.
      * assert (Hsame : Storage.remove key (entries s (Storage.inMemoryCache st))
                        = entries s (Storage.inMemoryCache st)).
        { unfold Storage.remove. rewrite delete_id by exact Hown.
          destruct (entries s (Storage.inMemoryCache st)); reflexivity. }
        clear Hsection Hplain. revert Htrue Hs Hsame.
        unfold Storage.removeItem, Storage.getCache, section_of. simpl.
        destruct (Storage.inMemoryCache st) as [a b c d e keys] eqn:Hcache.
        destruct type; simpl;
          try (destruct (getCredentialType key) as [[]|]; simpl);
          intros Htrue Hs Hsame; inversion Hs; subst s; simpl in *;
          rewrite Htrue; simpl; rewrite Hsame; reflexivity.
      * rewrite !getItem_in_memory_reads_section, Hs, Hsection.
        rewrite read_remove_same. unfold Storage.read. rewrite Hown. reflexivity.
  - intros Hfalse. split; [apply removeItem_in_memory_false; exact Hfalse|].
    rewrite removeItem_in_memory_answer in Hfalse.
    rewrite getItem_in_memory_reads_section.
    destruct (section_of getCredentialType (Some type) key) as [s|];
      [|reflexivity].
    unfold Storage.present in Hfalse. unfold Storage.or_null.
    destruct (read (entries s (Storage.inMemoryCache st)) key); [|reflexivity].
    rewrite Hfalse. reflexivity.
Qed.

(** X4. Removing one key does not change what is read under another key. *)
Theorem removeItem_keeps_other_keys (key other : string)
    (type otherType : option Storage.CacheSchemaType) (st : Storage.t Entity) :
  other <> key ->
  fst (getItem other otherType (Some true) (snd (removeItem key type (Some true) st)))
  = fst (getItem other otherType (Some true) st).
Proof.
  intros Hne. rewrite !getItem_in_memory_reads_section.
  destruct otherType as [ty|]; [|reflexivity].
  destruct (section_of getCredentialType (Some ty) other) as [s|]; [|reflexivity].
  rewrite removeItem_in_memory_section. case_decide; [|reflexivity].
  destruct (Storage.present _ _ _); [|reflexivity].
  rewrite read_remove_other by assumption. reflexivity.
Qed.

(** X5. Without the [inMemory] flag (absent or [false]) nothing is stored,
    read or removed: [setItem], [removeItem] and [clear] leave the cache as
    it was and call no change emitter, [removeItem] answers [false],
    [getItem] answers the empty object whatever is stored, and [getKeys]
    answers no key.  Each call only writes one line to the console. *)
Theorem not_in_memory_is_a_no_op (key : string) (value : Storage.Value Entity)
    (type : option Storage.CacheSchemaType) (inMemory : option bool)
    (st : Storage.t Entity) :
  Js.truthy_obool inMemory = false ->
  let logged := Storage.console_log Storage.msg_no_persistence st in
  setItem key value type inMemory st = logged
  /\ getItem key type inMemory st = (Storage.IEmptyObject, logged)
  /\ removeItem key type inMemory st = (false, logged)
  /\ Storage.getKeys inMemory st = ([], logged)
  /\ clear inMemory st = logged
  /\ Storage.inMemoryCache logged = Storage.inMemoryCache st
  /\ Storage.effects logged
     = (Storage.effects st ++ [Storage.Logged Storage.msg_no_persistence])%list.
Proof.
  intros Hflag. cbv zeta.
  unfold Storage.setItem, Storage.getItem, Storage.removeItem, Storage.getKeys,
    Storage.clear.
  rewrite Hflag. repeat split.
Qed.

(** [setItem] and [removeItem] change sections of the cache object, never
    its own keys. *)
Lemma setItem_ownKeys (key : string) (value : Storage.Value Entity)
    (type : option Storage.CacheSchemaType) (inMemory : option bool)
    (st : Storage.t Entity) :
  Storage.ownKeys (Storage.inMemoryCache (setItem key value type inMemory st))
  = Storage.ownKeys (Storage.inMemoryCache st).
Proof.
  unfold Storage.setItem, Storage.getCache.
  destruct (negb (Js.truthy_obool inMemory)); [reflexivity|].
  destruct type as [[]|]; simpl;
    try (destruct (getCredentialType key) as [[]|]; simpl); reflexivity.
Qed.

Lemma removeItem_ownKeys (key : string)
    (type : option Storage.CacheSchemaType) (inMemory : option bool)
    (st : Storage.t Entity) :
  Storage.ownKeys (Storage.inMemoryCache (snd (removeItem key type inMemory st)))
  = Storage.ownKeys (Storage.inMemoryCache st).
Proof.
  unfold Storage.removeItem, Storage.getCache.
  destruct (negb (Js.truthy_obool inMemory)); [reflexivity|].
  destruct type as [[]|]; simpl;
    try (destruct (getCredentialType key) as [[]|]; simpl);
    repeat match goal with
           | |- context [Storage.present ?G ?m ?k] =>
               destruct (Storage.present G m k) eqn:?
           end; reflexivity.
Qed.

(** The number of keys the loops visit does not depend on the order of the
    own keys of the cache object. *)
Lemma internal_keys_length_permutation (names names' : list string) :
  names ≡ₚ names' ->
  length (concat (map Js.keys_of_string names))
  = length (concat (map Js.keys_of_string names')).
Proof.
  induction 1; simpl; rewrite ?length_app; lia.
Qed.

Lemma internal_keys_in_permutation (names names' : list string) (k : string) :
  names ≡ₚ names' ->
  In k (concat (map Js.keys_of_string names)) ->
  In k (concat (map Js.keys_of_string names')).
Proof.
  intros Hperm Hk. apply in_concat in Hk as [l [Hl Hk]].
  apply in_map_iff in Hl as [name [<- Hname]].
  apply in_concat. exists (Js.keys_of_string name). split; [|exact Hk].
  apply in_map. apply list_elem_of_In. rewrite <- Hperm.
  apply list_elem_of_In. exact Hname.
Qed.

(** X6. [getKeys] with [inMemory = true] does not report the keys of the
    stored entries.  It leaves the storage as it was, and every key it
    reports is the position of a character in one of the own keys of the
    cache object.  What it reports does not change when entries are
    stored or removed or the storage is cleared.  When the own keys of
    the cache object are the five section names, in any order, it reports
    fifty-two keys, each a decimal number below 13. *)
Theorem getKeys_reports_character_positions (key : string)
    (value : Storage.Value Entity) (type : option Storage.CacheSchemaType)
    (inMemory : option bool) (st : Storage.t Entity) :
  let keys := fst (Storage.getKeys (Some true) st) in
  snd (Storage.getKeys (Some true) st) = st
  /\ (forall k,
        In k keys ->
        exists (name : string) (i : nat),
          In name (Storage.ownKeys (Storage.inMemoryCache st))
          /\ (i < Js.str_length name)%nat /\ k = pretty i)
  /\ fst (Storage.getKeys (Some true) (setItem key value type inMemory st)) = keys
  /\ fst (Storage.getKeys (Some true) (snd (removeItem key type inMemory st))) = keys
  /\ fst (Storage.getKeys (Some true) (clear inMemory st)) = keys
  /\ (Storage.ownKeys (Storage.inMemoryCache st) ≡ₚ Storage.section_names ->
      length keys = 52%nat
      /\ forall k, In k keys -> exists i : nat, (i < 13)%nat /\ k = pretty i).
Proof.
  cbv zeta. unfold Storage.getKeys, Storage.getCache, Storage.internal_keys,
    Storage.cache_keys. cbn [Js.truthy_obool negb fst snd].
  split; [reflexivity|]. split.
  { intros k Hk.
    exact (clear_visits_character_positions (Storage.inMemoryCache st) k Hk). }
  split; [rewrite setItem_ownKeys; reflexivity|].
  split; [rewrite removeItem_ownKeys; reflexivity|].
  split; [rewrite (clear_cache getCredentialType Get); reflexivity|].
  intros Hperm. split.
  - rewrite (internal_keys_length_permutation _ _ Hperm). reflexivity.
  - intros k Hk. apply (internal_keys_in_permutation _ _ k Hperm) in Hk.
    apply in_concat in Hk as [l [Hl Hk]].
    apply in_map_iff in Hl as [name [<- Hname]].
    destruct (keys_of_string_positions name k Hk) as [i [Hi ->]].
    exists i. split; [|reflexivity].
    unfold Storage.section_names in Hname. simpl in Hname.
    destruct Hname as [<- | [<- | [<- | [<- | [<- | []]]]]]; simpl in Hi; lia.
Qed.

(** The loop of [clear] writes one line per key it visits, calls no
    emitter and registers none. *)
Lemma clear_loop_effects (keys : list string) (st : Storage.t Entity) :
  Storage.effects (fold_left (Storage.clear_step getCredentialType Get) keys st)
  = (Storage.effects st
     ++ repeat (Storage.Logged Storage.msg_no_persistence) (length keys))%list.
Proof.
  revert st. induction keys as [|k keys IH]; intros st.
  - simpl. rewrite app_nil_r. reflexivity.
  - cbn [fold_left length repeat]. rewrite IH.
    change (Storage.effects (Storage.clear_step getCredentialType Get st k))
      with (Storage.effects st ++ [Storage.Logged Storage.msg_no_persistence])%list.
    rewrite <- app_assoc. reflexivity.
Qed.

Lemma clear_loop_emitters (keys : list string) (st : Storage.t Entity) :
  Storage.changeEmitters
    (fold_left (Storage.clear_step getCredentialType Get) keys st)
  = Storage.changeEmitters st.
Proof.
  revert st. induction keys as [|k keys IH]; intros st; [reflexivity|].
  cbn [fold_left]. rewrite IH. reflexivity.
Qed.

(** X7. An in-memory [setItem] with a known type calls every registered
    change emitter twice, in the order of registration: once from
    [setCache] and once more from [setItem] itself; this also holds for a
    credential whose key names no credential kind, for which nothing is
    stored.  A successful [removeItem] does the same, and an in-memory
    [clear] calls them once, after the lines its loop writes: one line for
    every character of every own key of the cache object, which is
    fifty-two lines when those keys are the five section names, in any
    order. *)
Theorem setItem_notifies_twice (key : string) (value : Storage.Value Entity)
    (type : Storage.CacheSchemaType) (st : Storage.t Entity) :
  Storage.effects (setItem key value (Some type) (Some true) st)
  = (Storage.effects st ++ notifications st ++ notifications st)%list
  /\ (fst (removeItem key (Some type) (Some true) st) = true ->
      Storage.effects (snd (removeItem key (Some type) (Some true) st))
      = (Storage.effects st ++ notifications st ++ notifications st)%list)
  /\ Storage.effects (clear (Some true) st)
     = (Storage.effects st
        ++ repeat (Storage.Logged Storage.msg_no_persistence)
             (length (Storage.internal_keys (Storage.inMemoryCache st)))
        ++ notifications st)%list
  /\ (Storage.ownKeys (Storage.inMemoryCache st) ≡ₚ Storage.section_names ->
      Storage.effects (clear (Some true) st)
      = (Storage.effects st
         ++ repeat (Storage.Logged Storage.msg_no_persistence) 52
         ++ notifications st)%list)
  /\ Storage.changeEmitters (setItem key value (Some type) (Some true) st)
     = Storage.changeEmitters st.
Proof.
  assert (Hclear :
            Storage.effects (clear (Some true) st)
            = (Storage.effects st
               ++ repeat (Storage.Logged Storage.msg_no_persistence)
                    (length (Storage.internal_keys (Storage.inMemoryCache st)))
               ++ notifications st)%list).
  { unfold notifications, Storage.clear, Storage.emitChange, Storage.getCache.
    cbn [Js.truthy_obool negb Storage.effects Storage.changeEmitters].
    rewrite clear_loop_emitters, clear_loop_effects.
    rewrite <- app_assoc. reflexivity. }
  unfold notifications in *. split; [|split; [|split; [|split]]].
  - unfold Storage.setItem. simpl.
    destruct type; simpl;
      try (destruct (getCredentialType key) as [[]|]; simpl);
      rewrite <- app_assoc; reflexivity.
  - unfold Storage.removeItem, Storage.getCache. simpl.
    destruct type; simpl;
      try (destruct (getCredentialType key) as [[]|]; simpl);
      repeat match goal with
             | |- context [Storage.present ?G ?m ?k] =>
                 destruct (Storage.present G m k) eqn:?
             end; simpl; try discriminate; intros _;
      rewrite <- app_assoc; reflexivity.
  - exact Hclear.
  - intros Hperm. rewrite Hclear.
    unfold Storage.internal_keys, Storage.cache_keys.
    rewrite (internal_keys_length_permutation _ _ Hperm). reflexivity.
  - unfold Storage.setItem. simpl.
    destruct type; simpl;
      try (destruct (getCredentialType key) as [[]|]; simpl); reflexivity.
Qed.

End StorageRoundTrips.

(** * Further properties of the [SPAClient] class *)

Section ClientMore.

Variable config : ClientConfiguration.

(** [getCachedRequest] makes no call that leaves the client. *)
Lemma getCachedRequest_keeps_trace (state : string) :
  preserves w_trace (getCachedRequest config state).
Proof.
  intros w. rewrite getCachedRequest_run.
  destruct (w_cacheStorage w !! REQUEST_PARAMS ≫= _); [|reflexivity].
  destruct (parseRequest _ _) as [[|parsedRequest]|]; reflexivity.
Qed.

(** An error of the first half of [getValidToken] is thrown by
    [getValidToken] after its [catch] clause has run. *)
Lemma getValidToken_resolve_error (request : TokenRenewParameters)
    (e : AuthError) (w w1 : World) :
  resolveRenewRequest config request w = (Thrown e, w1) ->
  getValidToken config (Some request) w = (Thrown e, after_cleanup None w1).
Proof.
  intros H. unfold getValidToken. unfold bind at 1. unfold try_catch.
  unfold getValidToken_try. unfold bind at 1. rewrite H. reflexivity.
Qed.

(** X8. [getRedirectUri] never changes the state.  It throws, and then the
    redirect-URI-empty error, exactly when the configured value is absent
    or the empty string; a configured string is returned as it is and is
    not empty; a configured function is called and its value is returned
    unchecked, the empty string included. *)
Theorem getRedirectUri_outcomes (w : World) :
  snd (getRedirectUri config w) = w
  /\ (redirect_missing (redirectUri (authOptions config)) = true
      <-> fst (getRedirectUri config w) = Thrown RedirectUriEmptyError)
  /\ (forall e, fst (getRedirectUri config w) = Thrown e -> e = RedirectUriEmptyError)
  /\ (forall uri,
        redirectUri (authOptions config) = UriString uri ->
        uri <> "" -> fst (getRedirectUri config w) = Returned uri)
  /\ (forall f,
        redirectUri (authOptions config) = UriFunction f ->
        fst (getRedirectUri config w) = Returned (f tt)).
Proof.
  unfold getRedirectUri.
  destruct (redirectUri (authOptions config)) as [|uri|f]; simpl;
    [ | destruct uri; simpl | ];
    repeat split; intros; try congruence;
    try match goal with
        | H : (_, _) = (_, _) |- _ => inversion H; subst; reflexivity
        | H : Thrown _ = Thrown _ |- _ => inversion H; subst; reflexivity
        | H : UriString _ = UriString _ |- _ => inversion H; subst; reflexivity
        | H : UriFunction _ = UriFunction _ |- _ => inversion H; subst; reflexivity
        end.
Qed.

(** X9. When [getAccount] returns an account, that account is the one
    kept on the instance, and from then on [getAccount] returns it without
    changing anything, whatever the cache storage holds.  When it returns
    no account it has changed nothing.  It throws only when no account is
    on the instance and both persisted values are there: what it throws is
    the error of the decoder that failed, and the state is as it was, so
    that the next call decodes again. *)
Theorem getAccount_caches_account (w : World) :
  let first := getAccount config w in
  (forall a,
     fst first = Returned (Some a) ->
     w_account (snd first) = Some a
     /\ forall storage,
          getAccount config (set_cacheStorage storage (snd first))
          = (Returned (Some a), set_cacheStorage storage (snd first)))
  /\ (fst first = Returned None -> snd first = w)
  /\ (forall e,
        fst first = Thrown e ->
        let rawIdToken := Js.or_default (w_cacheStorage w !! ID_TOKEN_KEY) "" in
        let rawClientInfo := Js.or_default (w_cacheStorage w !! CLIENT_INFO_KEY) "" in
        let decoder := decoders config in
        let crypto := cryptoInterface config in
        snd first = w
        /\ w_account w = None
        /\ rawIdToken <> ""
        /\ rawClientInfo <> ""
        /\ (extractIdToken decoder crypto rawIdToken = Thrown e
            \/ buildClientInfo decoder crypto rawClientInfo = Thrown e
            \/ exists claims info,
                 extractIdToken decoder crypto rawIdToken = Returned claims
                 /\ buildClientInfo decoder crypto rawClientInfo = Returned info
                 /\ createAccount decoder crypto (mkIdToken rawIdToken claims) info
                    = Thrown e)).
Proof.
  cbv zeta. rewrite getAccount_run. cbv zeta.
  destruct (w_account w) as [cached|] eqn:Hacc.
  - split; [|split; discriminate].
    intros a H. inversion H; subst. split; [exact Hacc|].
    intros storage. rewrite getAccount_run. cbn [snd]. simpl. rewrite Hacc.
    reflexivity.
  - destruct (w_cacheStorage w !! ID_TOKEN_KEY) as [[|c1 raw]|];
      try (split; [discriminate | split; [reflexivity | discriminate]]).
    destruct (w_cacheStorage w !! CLIENT_INFO_KEY) as [[|c2 info]|];
      try (split; [discriminate | split; [reflexivity | discriminate]]).
    cbn [StringUtils.isEmpty Js.str_is_empty negb andb Js.or_default
         Js.truthy_string].
    destruct (extractIdToken _ _ _) as [claims|e1] eqn:Hclaims.
    + destruct (buildClientInfo _ _ _) as [decoded|e2] eqn:Hinfo.
      * destruct (createAccount _ _ _ _) as [created|e3] eqn:Hcreate.
        -- split; [|split; discriminate].
           intros a H. inversion H; subst. split; [reflexivity|].
           intros storage. rewrite getAccount_run. reflexivity.
        -- split; [discriminate|]. split; [discriminate|].
           intros e H. inversion H; subst.
           repeat split; try discriminate.
           right. right. exists claims, decoded. repeat split; assumption.
      * split; [discriminate|]. split; [discriminate|].
        intros e H. inversion H; subst.
        repeat split; try discriminate. right. left. reflexivity.
    + split; [discriminate|]. split; [discriminate|].
      intros e H. inversion H; subst.
      repeat split; try discriminate. left. reflexivity.
Qed.

(** How [resolveIfIncomplete] ends: with an authority whose discovery is
    complete, or with the endpoint-discovery error around the failure of
    the network. *)
Lemma resolveIfIncomplete_outcome (r : AuthorityRef) (w : World) :
  match resolveIfIncomplete config r w with
  | (Returned ref, w') =>
      discoveryComplete (authority_at ref w') = true
      /\ canonicalAuthority (authority_at ref w')
         = canonicalAuthority (authority_at r w)
  | (Thrown e, w') =>
      exists cause, e = EndpointDiscoveryIncompleteError (NetworkError cause)
  end.
Proof.
  unfold resolveIfIncomplete. unfold bind at 1. rewrite deref_run.
  destruct (discoveryComplete (authority_at r w)) eqn:Hdone; simpl.
  - split; [exact Hdone | reflexivity].
  - rewrite resolveOrFail_run. cbv zeta.
    destruct (discover _ _) as [cause|endpoints]; [eauto|].
    destruct r; simpl; split; reflexivity.
Qed.

(** What [resolveIfIncomplete] adds to the calls made: nothing when the
    discovery of the authority is complete, one discovery call otherwise. *)
Lemma resolveIfIncomplete_trace (r : AuthorityRef) (w : World) :
  w_trace (snd (resolveIfIncomplete config r w))
  = if discoveryComplete (authority_at r w) then w_trace w
    else (w_trace w ++ [Discovery (canonicalAuthority (authority_at r w))])%list.
Proof.
  unfold resolveIfIncomplete. unfold bind at 1. rewrite deref_run.
  destruct (discoveryComplete (authority_at r w)); simpl; [reflexivity|].
  rewrite resolveOrFail_run. cbv zeta.
  destruct (discover _ _); [|destruct r]; reflexivity.
Qed.

Section Logout.

(** [this.config.authOptions.postLogoutRedirectUri] *)
Variable postLogoutRedirectUri : RedirectUri.



End Logout.

(** X11. [cancelRequest] never throws and changes nothing but the cache
    storage, where the request parameters and the request state are gone
    afterwards.  A code that comes back after the cancellation cannot be
    exchanged: [acquireToken] fails without any call to the network,
    with the token-request-cache error or, when the code is absent or
    empty, with the cannot-be-made error. *)
Theorem cancelRequest_forgets_request (w : World) :
  let result := cancelRequest w in
  fst result = Returned tt
  /\ w_account (snd result) = w_account w
  /\ w_tokenCache (snd result) = w_tokenCache w
  /\ w_trace (snd result) = w_trace w
  /\ w_cacheStorage (snd result) !! REQUEST_PARAMS = None
  /\ w_cacheStorage (snd result) !! REQUEST_STATE = None
  /\ (forall codeResponse,
        let exchange := acquireToken config codeResponse (snd result) in
        w_trace (snd exchange) = w_trace w
        /\ (fst exchange = Thrown TokenRequestCannotBeMadeError
            \/ fst exchange
               = Thrown (TokenRequestCacheError (RuntimeError "base64Decode")))).
Proof.
  cbv zeta.
  assert (Hparams : w_cacheStorage (snd (cancelRequest w)) !! REQUEST_PARAMS = None).
  { unfold cancelRequest, resetTempCacheItems. run_client. apply lookup_delete_eq. }
  assert (Htrace : w_trace (snd (cancelRequest w)) = w_trace w) by reflexivity.
  repeat split; try reflexivity; try exact Hparams.
  - unfold cancelRequest, resetTempCacheItems. run_client.
    rewrite lookup_delete_ne by discriminate. apply lookup_delete_eq.
  - unfold acquireToken, try_catch, acquireToken_try.
    destruct codeResponse as [cr|]; [|reflexivity].
    destruct (StringUtils.isEmpty (code cr)); [reflexivity|].
    unfold bind at 1. rewrite (getCachedRequest_nothing_stored config _ _ Hparams).
    reflexivity.
  - unfold acquireToken, try_catch, acquireToken_try.
    destruct codeResponse as [cr|]; [|left; reflexivity].
    destruct (StringUtils.isEmpty (code cr)); [left; reflexivity|].
    right. unfold bind at 1.
    rewrite (getCachedRequest_nothing_stored config _ _ Hparams). reflexivity.
Qed.

(** X12. [getCachedRequest] consumes the stored request.  When it returns,
    the request parameters were stored, decodable and parsed to an object;
    they are removed from the cache storage and nothing else has changed,
    the returned request has the scopes and resource that were stored, and
    its authority is the stored one or, when that is empty, the authority
    cached for the state value; asking again, for any state value, fails.
    When it throws, the error is a token-request-cache error.  The state
    is then untouched when the stored value could not be decoded or
    parsed, so that value stays stored; but a stored value that parses to
    something that is no object has been removed by the time the call
    throws. *)
Theorem getCachedRequest_consumes_request (state : string) (w : World) :
  let removed := set_cacheStorage (delete REQUEST_PARAMS (w_cacheStorage w)) w in
  let decoded :=
    w_cacheStorage w !! REQUEST_PARAMS ≫= base64Decode (cryptoInterface config) in
  match getCachedRequest config state w with
  | (Returned request, w') =>
      w' = removed
      /\ (exists text parsed,
            decoded = Some text
            /\ parseRequest (decoders config) text = Some (RequestObject parsed)
            /\ te_scopes request = te_scopes parsed
            /\ te_resource request = te_resource parsed
            /\ te_codeVerifier request = te_codeVerifier parsed
            /\ te_authority request
               = if StringUtils.isEmpty (te_authority parsed)
                 then w_cacheStorage w' !! generateAuthorityKey state
                 else te_authority parsed)
      /\ (forall again,
            getCachedRequest config again w'
            = (Thrown (TokenRequestCacheError (RuntimeError "base64Decode")), w'))
  | (Thrown e, w') =>
      (exists cause, e = TokenRequestCacheError cause)
      /\ (w' = w
          /\ (decoded = None
              \/ exists text,
                   decoded = Some text
                   /\ parseRequest (decoders config) text = None)
          \/ w' = removed
             /\ exists text,
                  decoded = Some text
                  /\ parseRequest (decoders config) text = Some NoObject)
  end.
Proof.
  cbv zeta. rewrite getCachedRequest_run.
  destruct (w_cacheStorage w !! REQUEST_PARAMS ≫= _) as [text|].
  - destruct (parseRequest (decoders config) text) as [[|parsed]|] eqn:Hparse;
      cbv zeta.
    + split; [eauto|]. right. split; [reflexivity|]. eauto.
    + split; [reflexivity|]. split.
      * exists text, parsed.
        destruct (StringUtils.isEmpty (te_authority parsed)); repeat split;
          assumption.
      * intros again. apply getCachedRequest_nothing_stored. simpl.
        apply lookup_delete_eq.
    + split; [eauto|]. left. split; [reflexivity|]. right. eauto.
  - split; [eauto|]. left. split; [reflexivity|]. left. reflexivity.
Qed.

(** X13. A call without its input fails at once, with the cannot-be-made
    error for [acquireToken] (no code response, or a code that is absent
    or empty) and with the empty-request error for [getValidToken] (no
    request).  No call has left the client and the credential cache is as
    it was, but the [catch] clause has run all the same: the account of
    the instance is forgotten and the stored request parameters are
    removed. *)
Theorem calls_without_input (codeResponse : option CodeResponse) (w : World) :
  StringUtils.isEmpty (codeResponse ≫= code) = true ->
  let exchange := acquireToken config codeResponse w in
  let renewal := getValidToken config None w in
  exchange
  = (Thrown TokenRequestCannotBeMadeError,
     after_cleanup (cr_userRequestState <$> codeResponse) w)
  /\ renewal = (Thrown EmptyTokenRequestError, after_cleanup None w)
  /\ w_account (snd exchange) = None
  /\ w_account (snd renewal) = None
  /\ w_cacheStorage (snd exchange) !! REQUEST_PARAMS = None
  /\ w_cacheStorage (snd renewal) !! REQUEST_PARAMS = None
  /\ w_trace (snd exchange) = w_trace w
  /\ w_trace (snd renewal) = w_trace w
  /\ w_tokenCache (snd exchange) = w_tokenCache w
  /\ w_tokenCache (snd renewal) = w_tokenCache w.
Proof.
  intros Hempty. cbv zeta.
  assert (Hexchange : acquireToken config codeResponse w
                      = (Thrown TokenRequestCannotBeMadeError,
                         after_cleanup (cr_userRequestState <$> codeResponse) w)).
  { unfold acquireToken, try_catch, acquireToken_try.
    destruct codeResponse as [cr|]; [|reflexivity].
    simpl in Hempty. rewrite Hempty. reflexivity. }
  assert (Hrenewal : getValidToken config None w
                     = (Thrown EmptyTokenRequestError, after_cleanup None w))
    by reflexivity.
  rewrite Hexchange, Hrenewal. cbn [snd].
  repeat split; try reflexivity; apply after_cleanup_request_params.
Qed.

(** X14. However [acquireToken] ends, the account of the instance is
    settled by it: when it throws, the account is absent and the request
    parameters and request state are gone from the cache storage, and the
    error is the one its [try] block raised; when it returns, the account
    is the account of the response it returns. *)
Theorem acquireToken_settles_account (codeResponse : option CodeResponse)
    (w : World) :
  match acquireToken config codeResponse w with
  | (Thrown e, w') =>
      w_account w' = None
      /\ w_cacheStorage w' !! REQUEST_PARAMS = None
      /\ w_cacheStorage w' !! REQUEST_STATE = None
      /\ fst (acquireToken_try config codeResponse w) = Thrown e
  | (Returned response, w') =>
      w_account w' = account response
      /\ acquireToken_try config codeResponse w = (Returned response, w')
  end.
Proof.
  destruct (acquireToken config codeResponse w) as [[response|e] w'] eqn:Hrun.
  - assert (Htry : acquireToken_try config codeResponse w = (Returned response, w')).
    { unfold acquireToken, try_catch in Hrun.
      destruct (acquireToken_try config codeResponse w) as [[r|e] w1].
      - exact Hrun.
      - rewrite resetAndRethrow_run in Hrun. discriminate. }
    split; [|exact Htry].
    unfold acquireToken_try in Htry.
    destruct codeResponse as [cr|]; [|discriminate].
    destruct (StringUtils.isEmpty (code cr)); [discriminate|].
    revert Htry.
    repeat (unfold bind at 1;
            match goal with
            | |- context [match ?m ?x with _ => _ end] =>
                destruct (m x) as [[?|?] ?]; [|discriminate]
            end).
    unfold getTokenResponse, validateServerAuthorizationTokenResponse.
    unfold bind at 1. unfold emit, modify.
    destruct (sendPostRequestAsync _ _ _) as [answer|cause]; [|discriminate].
    unfold bind at 1. destruct (error answer); [discriminate|].
    unfold bind at 1. unfold ret at 1. cbv beta iota.
    match goal with
    | |- context [createTokenResponse ?c ?a ?b ?d ?e ?x] =>
        destruct (createTokenResponse c a b d e x) as [[built|?] ?]; [|discriminate]
    end.
    unfold bind, modify, ret. intros H. inversion H; subst. reflexivity.
  - apply acquireToken_error_cleanup in Hrun as [w1 [Htry ->]].
    rewrite Htry. repeat split; try apply after_cleanup_request_params.
Qed.

Lemma other_calls_discovery (name : string) (w : World) :
  other_calls (add_event (Discovery name) w) = other_calls w.
Proof.
  unfold other_calls. simpl. rewrite List.filter_app. simpl. apply app_nil_r.
Qed.

(** The account [getValidToken] works with: the one of the request, or
    else what [getAccount] returns, which is then the account of the
    instance; or the error [getAccount] throws. *)
Lemma requestAccount_run (request : TokenRenewParameters) (w : World) :
  let known :=
    match tr_account request with
    | Some a => ret (Some a)
    | None => getAccount config
    end in
  (exists found w0,
     known w = (Returned found, w0)
     /\ found = match tr_account request with
                | Some a => Some a
                | None => w_account w0
                end
     /\ (w0 = w \/ exists a, w0 = set_account (Some a) w))
  \/ (exists e,
        tr_account request = None
        /\ getAccount config w = (Thrown e, w)
        /\ known w = (Thrown e, w)).
Proof.
  cbv zeta. destruct (tr_account request) as [a|].
  - left. exists (Some a), w. repeat split. left. reflexivity.
  - destruct (getAccount_cases config w)
      as [[a [Hacc Hrun]] | [[Hacc Hrun] | (Hacc & _ & _ & [[a Hrun] | [e Hrun]])]];
      rewrite Hrun.
    + left. exists (Some a), w. repeat split; [congruence | left; reflexivity].
    + left. exists None, w. repeat split; [congruence | left; reflexivity].
    + left. eexists. eexists. split; [reflexivity|]. split; [reflexivity|].
      right. exists a. reflexivity.
    + right. exists e. repeat split.
Qed.

(** The first half of [getValidToken] in one step. *)
Lemma resolveRenewRequest_run (request : TokenRenewParameters) (w : World) :
  let scopes :=
    ScopeSet.new (default [] (tr_scopes request)) (clientId (authOptions config))
      true in
  (exists known w0,
     known = match tr_account request with
             | Some a => Some a
             | None => w_account w0
             end
     /\ (w0 = w \/ exists a, w0 = set_account (Some a) w)
     /\ resolveRenewRequest config request w
        = match known with
          | None =>
              if ScopeSet.isLoginScopeSet scopes
              then (Thrown UserLoginRequiredError, w0)
              else match resolveIfIncomplete config
                           (selectAuthority (tr_authority request)) w0 with
                   | (Returned ref, w1) =>
                       (Returned (mkResolved known scopes (authority_at ref w1)), w1)
                   | (Thrown e, w1) => (Thrown e, w1)
                   end
          | Some _ =>
              match resolveIfIncomplete config
                      (selectAuthority (tr_authority request)) w0 with
              | (Returned ref, w1) =>
                  (Returned (mkResolved known scopes (authority_at ref w1)), w1)
              | (Thrown e, w1) => (Thrown e, w1)
              end
          end)
  \/ (exists e,
        tr_account request = None
        /\ getAccount config w = (Thrown e, w)
        /\ resolveRenewRequest config request w = (Thrown e, w)).
Proof.
  cbv zeta.
  destruct (requestAccount_run request w)
    as [(known & w0 & Hm & Hknown & Hw0) | (e & Hnone & Hget & Hm)].
  - left. exists known, w0. split; [exact Hknown|]. split; [exact Hw0|].
    unfold resolveRenewRequest. unfold bind at 1. rewrite Hm. unfold bind at 1.
    destruct (ScopeSet.isLoginScopeSet _); destruct known as [a|];
      try reflexivity;
      unfold ret at 1; cbv beta iota; unfold bind at 1;
      (destruct (resolveIfIncomplete config _ w0) as [[ref|e] w1]; [|reflexivity]);
      unfold bind; rewrite deref_run; reflexivity.
  - right. exists e. split; [exact Hnone|]. split; [exact Hget|].
    unfold resolveRenewRequest. unfold bind at 1. rewrite Hm. reflexivity.
Qed.

(** X15. The first half of [getValidToken] can only fail with the
    user-login-required error, with the endpoint-discovery error, or, when
    the request names no account, with the error that [getAccount] throws
    when it cannot decode the persisted values; [getValidToken] then
    throws that error after its [catch] clause has run.  When it succeeds,
    the discovery of the authority is complete, a request for login scopes
    has an account, and the account is the one of the request or else the
    one of the instance.  Either way no token lookup and no post has been
    made by then. *)
Theorem getValidToken_before_lookup (request : TokenRenewParameters) (w : World) :
  match resolveRenewRequest config request w with
  | (Thrown e, w1) =>
      (e = UserLoginRequiredError
       \/ (exists cause, e = EndpointDiscoveryIncompleteError (NetworkError cause))
       \/ (tr_account request = None
           /\ getAccount config w = (Thrown e, w)
           /\ w1 = w))
      /\ getValidToken config (Some request) w = (Thrown e, after_cleanup None w1)
      /\ other_calls w1 = other_calls w
  | (Returned r, w1) =>
      discoveryComplete (rs_authority r) = true
      /\ (ScopeSet.isLoginScopeSet (rs_scopes r) = true -> rs_account r <> None)
      /\ rs_account r
         = match tr_account request with
           | Some a => Some a
           | None => w_account w1
           end
      /\ other_calls w1 = other_calls w
  end.
Proof.
  pose proof (getValidToken_resolve_error request) as Hthrow.
  destruct (resolveRenewRequest_run request w)
    as [(known & w0 & Hknown & Hw0 & Hrun) | (e0 & Hnone & Hget & Hrun)].
  2:{ rewrite Hrun. split; [right; right; repeat split; assumption|].
      split; [apply Hthrow; exact Hrun | reflexivity]. }
  cbv zeta in Hrun.
  assert (Hcalls : other_calls w0 = other_calls w)
    by (destruct Hw0 as [-> | [a ->]]; reflexivity).
  assert (Hresolve :
            match resolveIfIncomplete config
                    (selectAuthority (tr_authority request)) w0 with
            | (Returned ref, w1) =>
                discoveryComplete (authority_at ref w1) = true
                /\ w_account w1 = w_account w0
                /\ other_calls w1 = other_calls w
            | (Thrown e, w1) =>
                (exists cause,
                   e = EndpointDiscoveryIncompleteError (NetworkError cause))
                /\ other_calls w1 = other_calls w
            end).
  { pose proof (resolveIfIncomplete_outcome
                  (selectAuthority (tr_authority request)) w0) as Hout.
    pose proof (resolveIfIncomplete_unobserved config w_account
                  (fun _ _ => eq_refl) (fun _ _ => eq_refl)
                  (selectAuthority (tr_authority request)) w0) as Hkeep.
    pose proof (resolveIfIncomplete_unobserved config other_calls
                  (fun _ _ => eq_refl) other_calls_discovery
                  (selectAuthority (tr_authority request)) w0) as Hother.
    destruct (resolveIfIncomplete config _ w0) as [[ref|e] w1];
      cbn [snd] in Hkeep, Hother.
    - split; [apply Hout|]. split; [exact Hkeep | congruence].
    - split; [exact Hout | congruence]. }
  destruct (resolveRenewRequest config request w) as [[r|e] w1] eqn:Hres.
  - destruct known as [a|];
      [|destruct (ScopeSet.isLoginScopeSet _) eqn:Hlogin; [discriminate|]];
      (destruct (resolveIfIncomplete config _ w0) as [[ref|e] w2];
       [|discriminate]);
      inversion Hrun; subst; cbn [rs_authority rs_scopes rs_account];
      destruct Hresolve as (Hdone & Hacc & Hother);
      (split; [exact Hdone|]); (split; [try congruence|]);
      (split; [|exact Hother]);
      try (intros _; discriminate);
      destruct (tr_account request); congruence.
  - split; [|split; [apply Hthrow; exact Hres|]].
    + destruct known as [a|];
        [|destruct (ScopeSet.isLoginScopeSet _);
          [inversion Hrun; left; reflexivity|]];
        (destruct (resolveIfIncomplete config _ w0) as [[ref|e1] w2];
         [discriminate|]);
        inversion Hrun; subst; right; left; apply Hresolve.
    + destruct known as [a|];
        [|destruct (ScopeSet.isLoginScopeSet _);
          [inversion Hrun; subst; exact Hcalls|]];
        (destruct (resolveIfIncomplete config _ w0) as [[ref|e1] w2];
         [discriminate|]);
        inversion Hrun; subst; apply Hresolve.
Qed.

Lemma preserves_try_catch {X A} (observe : World -> X) (m : M A)
    (handler : AuthError -> M A) :
  preserves observe m ->
  (forall e, preserves observe (handler e)) ->
  preserves observe (try_catch m handler).
Proof.
  intros Hm Hh w. unfold try_catch. specialize (Hm w).
  destruct (m w) as [[a|e] w1]; cbn [snd] in *; [exact Hm|].
  rewrite Hh. exact Hm.
Qed.

Lemma getValidToken_try_posts (request : option TokenRenewParameters) :
  preserves posts (getValidToken_try config request).
Proof.
  unfold getValidToken_try. destruct request as [request|]; [|intros w; reflexivity].
  apply unwritten_bind.
  - intros w. apply (resolveRenewRequest_unobserved config posts);
      [reflexivity | reflexivity | apply posts_discovery].
  - intros r w. unfold answerFromCache. unfold bind at 1.
    rewrite getCachedTokens_run.
    assert (Hlook : forall e, is_post e = false ->
                      posts (add_event e w) = posts w).
    { intros e He. unfold posts. simpl. rewrite List.filter_app. simpl.
      rewrite He. apply app_nil_r. }
    destruct (matches _ _ _ _ _ w) as [|item [|second more]];
      try (cbn [snd]; apply Hlook; reflexivity).
    run_client. destruct (cacheStillValid _ _ _ _);
      [destruct (cachedTokenResponse config item (rs_account r))|]; cbn [snd];
      apply (Hlook (TokenLookup _ _ _ _)); reflexivity.
Qed.

(** X16. When the redirect URI is absent or the empty string no token
    endpoint is ever contacted.  [renewToken] throws the redirect-URI-empty
    error and leaves the state as it was; [acquireToken] always fails; and
    neither [acquireToken] nor [getValidToken] posts anything, whatever
    the request and whatever the cache holds. *)
Theorem no_redirect_uri_no_exchange (request : TokenRenewParameters)
    (renewRequest : option TokenRenewParameters) (endpoint refreshTokenArg : string)
    (codeResponse : option CodeResponse) (w : World) :
  redirect_missing (redirectUri (authOptions config)) = true ->
  renewToken config request endpoint refreshTokenArg w
  = (Thrown RedirectUriEmptyError, w)
  /\ (exists e, fst (acquireToken config codeResponse w) = Thrown e)
  /\ posts (snd (acquireToken config codeResponse w)) = posts w
  /\ posts (snd (getValidToken config renewRequest w)) = posts w.
Proof.
  intros Hmissing.
  assert (Hredirect : forall w0,
            getRedirectUri config w0 = (Thrown RedirectUriEmptyError, w0)).
  { intros w0. apply getRedirectUri_when_missing. exact Hmissing. }
  assert (Hrenew : forall r ep rt w0,
            renewToken config r ep rt w0 = (Thrown RedirectUriEmptyError, w0)).
  { intros r ep rt w0. unfold renewToken. unfold bind at 1.
    rewrite Hredirect. reflexivity. }
  assert (Htry : preserves posts (acquireToken_try config codeResponse)
                 /\ forall w0, exists e,
                      fst (acquireToken_try config codeResponse w0) = Thrown e).
  { unfold acquireToken_try. destruct codeResponse as [cr|];
      [|split; [intros w0; reflexivity | intros w0; eexists; reflexivity]].
    destruct (StringUtils.isEmpty (code cr));
      [split; [intros w0; reflexivity | intros w0; eexists; reflexivity]|].
    split.
    - apply unwritten_bind.
      { intros w0. unfold posts.
        rewrite (getCachedRequest_keeps_trace (cr_userRequestState cr) w0).
        reflexivity. }
      intros tokenRequest. apply unwritten_bind.
      { intros w0. apply (resolveIfIncomplete_unobserved config posts);
          [reflexivity | apply posts_discovery]. }
      intros ref. apply unwritten_bind.
      { intros w0. rewrite deref_run. reflexivity. }
      intros authority w0. unfold bind. rewrite Hredirect. reflexivity.
    - intros w0. unfold bind at 1.
      destruct (getCachedRequest config _ w0) as [[r|e] w1]; [|eexists; reflexivity].
      unfold bind at 1.
      destruct (resolveIfIncomplete config _ w1) as [[ref|e] w2];
        [|eexists; reflexivity].
      unfold bind at 1. rewrite deref_run. unfold bind at 1. rewrite Hredirect.
      eexists. reflexivity. }
  destruct Htry as [Hposts Hfails].
  split; [apply Hrenew|]. split; [|split].
  - unfold acquireToken, try_catch. destruct (Hfails w) as [e He].
    destruct (acquireToken_try config codeResponse w) as [o w1].
    cbn [fst] in He. subst o. rewrite resetAndRethrow_run. eexists. reflexivity.
  - apply (preserves_try_catch posts); [exact Hposts|].
    intros e w0. rewrite resetAndRethrow_run. reflexivity.
  - unfold getValidToken. unfold bind at 1.
    pose proof (preserves_try_catch posts (getValidToken_try config renewRequest)
                  (resetAndRethrow None) (getValidToken_try_posts renewRequest)
                  (fun e w0 => eq_refl) w) as Hp.
    destruct (try_catch _ _ w) as [[completion|e] w1]; cbn [snd] in Hp.
    + destruct completion as [response|r ep rt]; [exact Hp|].
      rewrite Hrenew. exact Hp.
    + exact Hp.
Qed.

(** X17. Every call of [getTokenResponse] posts exactly once, to the given
    endpoint with the given parameters, and makes no other call, however
    it ends.  When the transport fails, the failure is thrown as it is and
    nothing but the record of the post has changed; when the call returns,
    the account of the instance is the account of the response. *)
Theorem getTokenResponse_posts_once (endpoint : string)
    (payload : TokenRequestPayload) (tokenRequest : TokenExchangeParameters)
    (codeResponse : option CodeResponse) (w : World) :
  let result :=
    getTokenResponse config endpoint payload tokenRequest codeResponse w in
  w_trace (snd result) = (w_trace w ++ [Post endpoint payload])%list
  /\ (forall cause,
        sendPostRequestAsync (networkInterface config) endpoint payload
        = Failed cause ->
        result = (Thrown (NetworkError cause), add_event (Post endpoint payload) w))
  /\ (forall response,
        fst result = Returned response ->
        w_account (snd result) = account response).
Proof.
  cbv zeta. split; [apply getTokenResponse_trace|]. split.
  - intros cause Hfail. unfold getTokenResponse. unfold bind at 1.
    unfold emit, modify. rewrite Hfail. reflexivity.
  - intros response.
    destruct (getTokenResponse config endpoint payload tokenRequest codeResponse w)
      as [o w'] eqn:Hrun.
    cbn [fst snd]. intros ->. revert Hrun.
    unfold getTokenResponse, validateServerAuthorizationTokenResponse.
    unfold bind at 1. unfold emit, modify.
    destruct (sendPostRequestAsync _ _ _) as [answer|cause]; [|discriminate].
    unfold bind at 1. destruct (error answer); [discriminate|].
    unfold ret at 1. cbv beta iota. unfold bind at 1.
    match goal with
    | |- context [createTokenResponse ?c ?a ?b ?d ?e ?x] =>
        destruct (createTokenResponse c a b d e x) as [[built|?] ?]; [|discriminate]
    end.
    unfold bind, modify, ret. intros H. inversion H; subst. reflexivity.
Qed.

(** X18. [createUrl] makes one discovery call for its authority every time
    it is called, also when the discovery of that authority is already
    complete, and makes no other call.  However it ends, the account of
    the instance, the credential cache and the cache storage are what they
    were: building a URL signs nobody in or out. *)
Theorem createUrl_discovers_every_time (request : option AuthenticationParameters)
    (isLoginCall : bool) (w : World) :
  let name :=
    canonicalAuthority
      (authority_at (selectAuthority (request ≫= ap_authority)) w) in
  let result := createUrl config request isLoginCall w in
  w_trace (snd result) = (w_trace w ++ [Discovery name])%list
  /\ w_account (snd result) = w_account w
  /\ w_tokenCache (snd result) = w_tokenCache w
  /\ w_cacheStorage (snd result) = w_cacheStorage w.
Proof.
  cbv zeta. split; [|split; [|split]];
    try (apply (createUrl_unwritten config (X := _)); reflexivity).
  unfold createUrl. cbv zeta. unfold bind at 1.
  pose proof (resolveOrFail_run config (selectAuthority (request ≫= ap_authority)) w)
    as Hrun. cbv zeta in Hrun.
  destruct (resolveOrFail config _ w) as [[ref|e] w1].
  - assert (Htrace : w_trace w1
                     = (w_trace w
                        ++ [Discovery
                              (canonicalAuthority
                                 (authority_at
                                    (selectAuthority (request ≫= ap_authority)) w))])%list).
    { destruct (discover _ _); [discriminate|].
      destruct (selectAuthority _); inversion Hrun; reflexivity. }
    rewrite <- Htrace. clear Hrun Htrace.
    match goal with
    | |- w_trace (snd (?rest w1)) = _ =>
        revert w1; change (preserves w_trace rest)
    end.
    apply unwritten_bind; [apply unwritten_getRedirectUri | intros uri].
    apply unwritten_bind.
    { unfold validateRedirectUri. destruct (Js.str_is_empty uri);
        [apply unwritten_throw | apply unwritten_ret]. }
    intros _.
    apply unwritten_bind; [apply unwritten_getRedirectUri | intros uri'].
    apply unwritten_bind.
    { destruct (Js.truthy_ostring _);
        [apply unwritten_ret | apply unwritten_newGuid; reflexivity]. }
    intros correlationId.
    apply unwritten_bind; [apply unwritten_newPkceCodes; reflexivity | intros pkce].
    apply unwritten_bind; [apply unwritten_newGuid; reflexivity | intros guid].
    apply unwritten_bind.
    { destruct (Js.truthy_ostring _); [|apply unwritten_ret].
      apply unwritten_bind; [|intros _; apply unwritten_ret].
      unfold validatePrompt. destruct (existsb _ _);
        [apply unwritten_ret | apply unwritten_throw]. }
    intros builder.
    apply unwritten_bind; [apply unwritten_newGuid; reflexivity | intros nonce].
    apply unwritten_ret.
  - destruct (discover _ _); [|destruct (selectAuthority _); discriminate].
    inversion Hrun. reflexivity.
Qed.

(** ** Scope sets and the cache lookup *)






Lemma after_cleanup_discoveries (state : option string) (w : World) :
  discoveries (after_cleanup state w) = discoveries w.
Proof. reflexivity. Qed.

(** What [renewToken] adds to the calls made: nothing, or one post. *)
Lemma renewToken_discoveries (request : TokenRenewParameters)
    (endpoint refreshTokenArg : string) (w : World) :
  discoveries (snd (renewToken config request endpoint refreshTokenArg w))
  = discoveries w.
Proof.
  unfold renewToken. unfold bind at 1.
  pose proof (getRedirectUri_state config w) as Hst.
  destruct (getRedirectUri config w) as [[uri|e] w1]; cbn [snd] in Hst; subst w1.
  - unfold discoveries. rewrite getTokenResponse_trace.
    rewrite List.filter_app. simpl. apply app_nil_r.
  - reflexivity.
Qed.

(** X20. [getValidToken] for the default authority makes no discovery call
    when the discovery of that authority is complete, however the call
    ends. *)
Theorem getValidToken_skips_completed_discovery (request : TokenRenewParameters)
    (w : World) :
  Js.truthy_ostring (tr_authority request) = false ->
  discoveryComplete (w_defaultAuthority w) = true ->
  discoveries (snd (getValidToken config (Some request) w)) = discoveries w.
Proof.
  intros Hdefault Hdone.
  destruct (resolveRenewRequest_run request w)
    as [(known & w0 & _ & Hw0 & Hrun) | (e0 & _ & _ & Hrun)].
  2:{ rewrite (getValidToken_resolve_error request e0 w w Hrun). reflexivity. }
  cbv zeta in Hrun.
  assert (Hd0 : discoveries w0 = discoveries w)
    by (destruct Hw0 as [-> | [a ->]]; reflexivity).
  assert (Hauth : w_defaultAuthority w0 = w_defaultAuthority w)
    by (destruct Hw0 as [-> | [a ->]]; reflexivity).
  assert (Hskip : resolveIfIncomplete config (selectAuthority (tr_authority request)) w0
                  = (Returned DefaultAuthority, w0)).
  { unfold selectAuthority. rewrite Hdefault.
    unfold resolveIfIncomplete. unfold bind at 1. rewrite deref_run.
    cbn [authority_at]. rewrite Hauth, Hdone. reflexivity. }
  rewrite Hskip in Hrun.
  assert (Hlook : forall e w1, is_discovery e = false ->
                    discoveries (add_event e w1) = discoveries w1).
  { intros e w1 He. unfold discoveries. simpl. rewrite List.filter_app. simpl.
    rewrite He. apply app_nil_r. }
  destruct (resolveRenewRequest config request w) as [[r|e] w1] eqn:Hres.
  - assert (w1 = w0)
      by (destruct known; [|destruct (ScopeSet.isLoginScopeSet _)];
          inversion Hrun; reflexivity).
    subst w1.
    rewrite (getValidToken_after_resolve config request w w0 r Hres). cbv zeta.
    destruct (matches _ _ _ _ _ w0) as [|item [|second more]]; cbn [snd].
    + change (discoveries (add_event (TokenLookup (clientId (authOptions config))
                (canonicalAuthority (rs_authority r))
                (Js.or_default (tr_resource request) "")
                (Js.or_default (homeAccountIdentifier <$> rs_account r) "")) w0)
              = discoveries w).
      rewrite Hlook by reflexivity. exact Hd0.
    + destruct (cacheStillValid _ _ _ _); cbn [snd].
      * destruct (cachedTokenResponse config item (rs_account r)); cbn [snd];
          rewrite ?after_cleanup_discoveries; rewrite Hlook by reflexivity;
          exact Hd0.
      * rewrite renewToken_discoveries. rewrite Hlook by reflexivity. exact Hd0.
    + change (discoveries (add_event (TokenLookup (clientId (authOptions config))
                (canonicalAuthority (rs_authority r))
                (Js.or_default (tr_resource request) "")
                (Js.or_default (homeAccountIdentifier <$> rs_account r) "")) w0)
              = discoveries w).
      rewrite Hlook by reflexivity. exact Hd0.
  - assert (w1 = w0)
      by (destruct known; [|destruct (ScopeSet.isLoginScopeSet _)];
          inversion Hrun; reflexivity).
    subst w1.
    rewrite (getValidToken_resolve_error request e w w0 Hres). exact Hd0.
Qed.

End ClientMore.

(** * Properties of the node [ClientApplication] class *)

Section ClientApplicationFacts.

Variable config : ClientApplication.Configuration.
Variable platform : ClientApplication.Platform.

Local Abbreviation createAuthority := (ClientApplication.createAuthority config).

(** How [createAuthority] ends. *)
Lemma createAuthority_complete_or_error (authorityString : option string)
    (app : ClientApplication.t) :
  match createAuthority authorityString app with
  | (Returned a, app') => discoveryComplete a = true
  | (Thrown e, app') =>
      exists cause, e = EndpointDiscoveryIncompleteError (NetworkError cause)
  end.
Proof.
  unfold ClientApplication.createAuthority, ClientApplication.authority.
  destruct (Js.truthy_ostring authorityString).
  - cbn [discoveryComplete createInstance tenantDiscoveryResponse canonicalAuthority].
    destruct (discover _ _) as [cause|endpoints]; [eauto | reflexivity].
  - destruct (ClientApplication._authority app) as [own|].
    + destruct (discoveryComplete own) eqn:Hdone; [exact Hdone|].
      destruct (discover _ _) as [cause|endpoints]; [eauto | reflexivity].
    + cbn [discoveryComplete createInstance tenantDiscoveryResponse canonicalAuthority].
      destruct (discover _ _) as [cause|endpoints]; [eauto | reflexivity].
Qed.


(** X22. The application's own authority is resolved once: after a call
    of [createAuthority] without an authority string has returned, every
    further such call returns the same authority, makes no discovery call
    and changes nothing.  A call that fails has made exactly one discovery
    call. *)
Theorem createAuthority_resolves_once (app : ClientApplication.t) :
  match createAuthority None app with
  | (Returned a, app') =>
      createAuthority None app' = (Returned a, app')
  | (Thrown e, app') =>
      exists name,
        ClientApplication.calls app'
        = (ClientApplication.calls app ++ [Discovery name])%list
  end.
Proof.
  unfold ClientApplication.createAuthority, ClientApplication.authority.
  cbn [Js.truthy_ostring].
  destruct (ClientApplication._authority app) as [own|] eqn:Hown.
  - destruct (discoveryComplete own) eqn:Hdone.
    + rewrite Hown, Hdone. reflexivity.
    + destruct (discover _ _) as [cause|endpoints]; [eexists; reflexivity|].
      reflexivity.
  - cbn [discoveryComplete createInstance tenantDiscoveryResponse canonicalAuthority].
    destruct (discover _ _) as [cause|endpoints]; [eexists; reflexivity|].
    reflexivity.
Qed.

Section ProtocolClients.

Variables AuthorizationUrlRequest AuthorizationCodeRequest RefreshTokenRequest
  AuthenticationResult : Type.
Variable url_authority : AuthorizationUrlRequest -> option string.
Variable code_authority : AuthorizationCodeRequest -> option string.
Variable refresh_authority : RefreshTokenRequest -> option string.
Variable getAuthCodeUrlOf :
  ClientApplication.OauthClientConfiguration -> AuthorizationUrlRequest ->
  Outcome string.
Variable acquireTokenByCodeOf :
  ClientApplication.OauthClientConfiguration -> AuthorizationCodeRequest ->
  Outcome AuthenticationResult.
Variable acquireTokenByRefreshOf :
  ClientApplication.OauthClientConfiguration -> RefreshTokenRequest ->
  Outcome AuthenticationResult.

(** The configuration built for a protocol client has the client id of the
    application and the authority [createAuthority] returned. *)
Lemma buildOauthClientConfiguration_run (authorityString : option string)
    (app : ClientApplication.t) :
  match createAuthority authorityString app with
  | (Returned a, app') =>
      exists built,
        ClientApplication.buildOauthClientConfiguration config platform
          authorityString app
        = (Returned built, app')
        /\ ClientApplication.oauth_clientId built
           = ClientApplication.auth_clientId config
        /\ ClientApplication.oauth_authority built = a
  | (Thrown e, app') =>
      ClientApplication.buildOauthClientConfiguration config platform
        authorityString app
      = (Thrown e, app')
  end.
Proof.
  unfold ClientApplication.buildOauthClientConfiguration.
  destruct (createAuthority authorityString app) as [[a|e] app'].
  - eexists. split; [reflexivity|]. split; reflexivity.
  - reflexivity.
Qed.

(** X23. [getAuthCodeUrl], [acquireTokenByCode] and
    [acquireTokenByRefreshToken] resolve the authority of the request
    before anything else.  When that fails the call fails with the
    endpoint-discovery error and the protocol client is not asked; when it
    succeeds the protocol client is asked once, with the caller's request
    and a configuration that has the client id of the application and an
    authority whose discovery is complete, and its outcome is the outcome
    of the call. *)
Theorem public_calls_resolve_authority_first (urlRequest : AuthorizationUrlRequest)
    (codeRequest : AuthorizationCodeRequest) (refreshRequest : RefreshTokenRequest)
    (app : ClientApplication.t) :
  let answers {Request Result : Type} (authorityOf : Request -> option string)
      (client : ClientApplication.OauthClientConfiguration -> Request -> Outcome Result)
      (request : Request) (outcome : Outcome Result * ClientApplication.t) : Prop :=
    match createAuthority (authorityOf request) app with
    | (Thrown e, app') =>
        outcome = (Thrown e, app')
        /\ exists cause, e = EndpointDiscoveryIncompleteError (NetworkError cause)
    | (Returned a, app') =>
        exists built,
          outcome = (client built request, app')
          /\ ClientApplication.oauth_clientId built
             = ClientApplication.auth_clientId config
          /\ ClientApplication.oauth_authority built = a
          /\ discoveryComplete a = true
    end in
  answers url_authority getAuthCodeUrlOf urlRequest
    (ClientApplication.getAuthCodeUrl config platform AuthorizationUrlRequest
       url_authority getAuthCodeUrlOf urlRequest app)
  /\ answers code_authority acquireTokenByCodeOf codeRequest
       (ClientApplication.acquireTokenByCode config platform
          AuthorizationCodeRequest AuthenticationResult code_authority
          acquireTokenByCodeOf codeRequest app)
  /\ answers refresh_authority acquireTokenByRefreshOf refreshRequest
       (ClientApplication.acquireTokenByRefreshToken config platform
          RefreshTokenRequest AuthenticationResult refresh_authority
          acquireTokenByRefreshOf refreshRequest app).
Proof.
  cbv zeta.
  unfold ClientApplication.getAuthCodeUrl, ClientApplication.acquireTokenByCode,
    ClientApplication.acquireTokenByRefreshToken.
  split; [|split].
  - pose proof (buildOauthClientConfiguration_run (url_authority urlRequest) app) as Hb.
    pose proof (createAuthority_complete_or_error (url_authority urlRequest) app) as Ho.
    destruct (createAuthority (url_authority urlRequest) app) as [[a|e] app'].
    + destruct Hb as (built & -> & Hid & Ha). exists built.
      repeat split; try assumption.
    + rewrite Hb. split; [reflexivity | exact Ho].
  - pose proof (buildOauthClientConfiguration_run (code_authority codeRequest) app)
      as Hb.
    pose proof (createAuthority_complete_or_error (code_authority codeRequest) app) as Ho.
    destruct (createAuthority (code_authority codeRequest) app) as [[a|e] app'].
    + destruct Hb as (built & -> & Hid & Ha). exists built.
      repeat split; try assumption.
    + rewrite Hb. split; [reflexivity | exact Ho].
  - pose proof (buildOauthClientConfiguration_run
                  (refresh_authority refreshRequest) app) as Hb.
    pose proof (createAuthority_complete_or_error
                  (refresh_authority refreshRequest) app) as Ho.
    destruct (createAuthority (refresh_authority refreshRequest) app)
      as [[a|e] app'].
    + destruct Hb as (built & -> & Hid & Ha). exists built.
      repeat split; try assumption.
    + rewrite Hb. split; [reflexivity | exact Ho].
Qed.

End ProtocolClients.

End ClientApplicationFacts.

(** * The further properties run on the concrete client and storage *)

(** The cache of the storage that holds the account ["3"] is one whose
    sections inherit from [Object.prototype]. *)
Example storageWithAccount_plain :
  plain 0%nat (Storage.inMemoryCache Scenario.storageWithAccount).
Proof. intros []; reflexivity. Qed.

(** An account stored under ["3"] is read back; a string stored under
    [__proto__] is not. *)
Lemma setItem_getItem_round_trip_witness :
  fst (Storage.getItem Scenario.credentialTypeOf Scenario.memberOf "3"
         (Some Storage.ACCOUNT) (Some true) Scenario.storageWithAccount)
  = Storage.IValue (Storage.VObject 7)
  /\ fst (Storage.getItem Scenario.credentialTypeOf Scenario.memberOf "__proto__"
            (Some Storage.ACCOUNT) (Some true)
            (Storage.setItem Scenario.credentialTypeOf "__proto__"
               (Storage.VString "text") (Some Storage.ACCOUNT) (Some true)
               Scenario.storageWithAccount))
     = Storage.IValue (Storage.VObject 0).
Proof.
  split.
  - unfold Scenario.storageWithAccount.
    rewrite (setItem_getItem_round_trip Scenario.credentialTypeOf 0%nat
               Scenario.memberOf "3" (Storage.VObject 7) (Some Storage.ACCOUNT)
               Scenario.emptyStorage);
      [reflexivity | intros []; reflexivity | left; discriminate].
  - rewrite (setItem_getItem_round_trip Scenario.credentialTypeOf 0%nat
               Scenario.memberOf "__proto__" (Storage.VString "text")
               (Some Storage.ACCOUNT) Scenario.storageWithAccount);
      [reflexivity | intros []; reflexivity | right; eexists; reflexivity].
Defined.

(** Writing a credential under ["4"] leaves the account ["3"] as it was. *)
Lemma setItem_keeps_other_keys_witness :
  "3" <> "4"
  /\ fst (Storage.getItem Scenario.credentialTypeOf Scenario.memberOf "3"
            (Some Storage.ACCOUNT) (Some true)
            (Storage.setItem Scenario.credentialTypeOf "4" (Storage.VObject 9)
               (Some Storage.CREDENTIAL) (Some true) Scenario.storageWithAccount))
     = Storage.IValue (Storage.VObject 7).
Proof.
  split; [discriminate|].
  rewrite (setItem_keeps_other_keys Scenario.credentialTypeOf 0%nat
             Scenario.memberOf "4" "3" (Storage.VObject 9)
             (Some Storage.CREDENTIAL) (Some Storage.ACCOUNT)
             Scenario.storageWithAccount);
    [reflexivity | intros []; reflexivity | discriminate | left; discriminate].
Defined.

(** Removing the account ["3"] answers [true] and leaves nothing under
    that key; removing [toString], which was never stored, answers [true]
    as well and leaves the inherited function where it was. *)
Lemma removeItem_removes_what_getItem_finds_witness :
  let removeItem :=
    Storage.removeItem Scenario.credentialTypeOf Scenario.memberOf in
  let getItem := Storage.getItem Scenario.credentialTypeOf Scenario.memberOf in
  let account := Some Storage.ACCOUNT in
  let stored := Scenario.storageWithAccount in
  fst (removeItem "3" account (Some true) stored) = true
  /\ fst (getItem "3" account (Some true)
            (snd (removeItem "3" account (Some true) stored)))
     = Storage.INull
  /\ fst (removeItem "toString" account (Some true) stored) = true
  /\ fst (getItem "toString" account (Some true)
            (snd (removeItem "toString" account (Some true) stored)))
     = Storage.IValue (Storage.VObject 101).
Proof.
  cbv zeta.
  pose proof (removeItem_removes_what_getItem_finds Scenario.credentialTypeOf
                0%nat Scenario.memberOf "3" Storage.ACCOUNT
                Scenario.storageWithAccount storageWithAccount_plain)
    as (Hanswer & Hafter & _).
  pose proof (removeItem_removes_what_getItem_finds Scenario.credentialTypeOf
                0%nat Scenario.memberOf "toString" Storage.ACCOUNT
                Scenario.storageWithAccount storageWithAccount_plain)
    as (Hinherited & Hkept & _).
  cbv zeta in *.
  assert (Hremoved : fst (Storage.removeItem Scenario.credentialTypeOf
                            Scenario.memberOf "3" (Some Storage.ACCOUNT)
                            (Some true) Scenario.storageWithAccount) = true)
    by (apply Hanswer; eexists; reflexivity).
  assert (Hfunction : fst (Storage.removeItem Scenario.credentialTypeOf
                             Scenario.memberOf "toString" (Some Storage.ACCOUNT)
                             (Some true) Scenario.storageWithAccount) = true)
    by (apply Hinherited; eexists; reflexivity).
  split; [exact Hremoved|]. split.
  - destruct (Hafter Hremoved) as (s & _ & _ & Hget & _). rewrite Hget.
    reflexivity.
  - split; [exact Hfunction|].
    destruct (Hkept Hfunction) as (s & _ & _ & Hget & _). rewrite Hget.
    reflexivity.
Defined.

(** Removing a key that is not there leaves the account ["3"] as it was. *)
Lemma removeItem_keeps_other_keys_witness :
  "3" <> "4"
  /\ fst (Storage.getItem Scenario.credentialTypeOf Scenario.memberOf "3"
            (Some Storage.ACCOUNT) (Some true)
            (snd (Storage.removeItem Scenario.credentialTypeOf Scenario.memberOf
                    "4" (Some Storage.ACCOUNT) (Some true)
                    Scenario.storageWithAccount)))
     = Storage.IValue (Storage.VObject 7).
Proof.
  split; [discriminate|].
  rewrite (removeItem_keeps_other_keys Scenario.credentialTypeOf Scenario.memberOf
             "4" "3" (Some Storage.ACCOUNT) (Some Storage.ACCOUNT)
             Scenario.storageWithAccount); [reflexivity | discriminate].
Defined.

(** Without the flag the stored account is neither read nor removed. *)
Lemma not_in_memory_is_a_no_op_witness :
  Js.truthy_obool None = false
  /\ fst (Storage.getItem Scenario.credentialTypeOf Scenario.memberOf "3"
            (Some Storage.ACCOUNT) None Scenario.storageWithAccount)
     = Storage.IEmptyObject
  /\ fst (Storage.removeItem Scenario.credentialTypeOf Scenario.memberOf "3"
            (Some Storage.ACCOUNT) None Scenario.storageWithAccount)
     = false
  /\ Storage.inMemoryCache
       (Storage.clear Scenario.credentialTypeOf Scenario.memberOf None
          Scenario.storageWithAccount)
     = Storage.inMemoryCache Scenario.storageWithAccount.
Proof.
  pose proof (not_in_memory_is_a_no_op Scenario.credentialTypeOf Scenario.memberOf
                "3" (Storage.VObject 7) (Some Storage.ACCOUNT) None
                Scenario.storageWithAccount eq_refl)
    as (_ & Hget & Hremove & _ & Hclear & Hcache & _).
  split; [reflexivity|]. split; [rewrite Hget; reflexivity|].
  split; [rewrite Hremove; reflexivity|]. rewrite Hclear. exact Hcache.
Defined.

(** An empty code on a client where [user] is signed in: the exchange
    cannot be made, and [user] is signed out all the same. *)
Lemma calls_without_input_witness :
  StringUtils.isEmpty (Some Scenario.emptyCode ≫= code) = true
  /\ fst (acquireToken Scenario.config (Some Scenario.emptyCode)
            (Scenario.signedIn []))
     = Thrown TokenRequestCannotBeMadeError
  /\ w_account (Scenario.signedIn []) = Some Scenario.user
  /\ w_account (snd (acquireToken Scenario.config (Some Scenario.emptyCode)
                       (Scenario.signedIn [])))
     = None.
Proof.
  pose proof (calls_without_input Scenario.config (Some Scenario.emptyCode)
                (Scenario.signedIn []) eq_refl) as (Hrun & _ & Hacc & _).
  split; [reflexivity|]. split; [rewrite Hrun; reflexivity|].
  split; [reflexivity | exact Hacc].
Defined.

(** No redirect URI and an expired cached entry: the renewal fails with the
    configuration error and nothing is posted. *)
Lemma no_redirect_uri_no_exchange_witness :
  redirect_missing (redirectUri (authOptions Scenario.configWithoutRedirect)) = true
  /\ fst (getValidToken Scenario.configWithoutRedirect (Some Scenario.readRequest)
            (Scenario.signedIn [Scenario.entry "rt" "1010"]))
     = Thrown RedirectUriEmptyError
  /\ posts (snd (getValidToken Scenario.configWithoutRedirect
                   (Some Scenario.readRequest)
                   (Scenario.signedIn [Scenario.entry "rt" "1010"])))
     = [].
Proof.
  pose proof (no_redirect_uri_no_exchange Scenario.configWithoutRedirect
                Scenario.readRequest (Some Scenario.readRequest) "" "" None
                (Scenario.signedIn [Scenario.entry "rt" "1010"]) eq_refl)
    as (_ & _ & _ & Hposts).
  split; [reflexivity|]. split; [vm_compute; reflexivity | exact Hposts].
Defined.

(** With the discovery of the default authority complete, a token served
    from the cache costs no discovery call. *)
Lemma getValidToken_skips_completed_discovery_witness :
  Js.truthy_ostring (tr_authority Scenario.readRequest) = false
  /\ discoveryComplete
       (w_defaultAuthority (Scenario.signedInResolved [Scenario.entry "rt" "4600"]))
     = true
  /\ discoveries
       (snd (getValidToken Scenario.config (Some Scenario.readRequest)
               (Scenario.signedInResolved [Scenario.entry "rt" "4600"])))
     = [].
Proof.
  split; [reflexivity|]. split; [reflexivity|].
  exact (getValidToken_skips_completed_discovery Scenario.config
           Scenario.readRequest
           (Scenario.signedInResolved [Scenario.entry "rt" "4600"])
           eq_refl eq_refl).
Defined.

(** The stored request is returned once; the second call finds nothing. *)
Example getCachedRequest_second_call_fails :
  let stored :=
    set_cacheStorage {[ REQUEST_PARAMS := "read app" ]} Scenario.fresh in
  let first := getCachedRequest Scenario.config "guid-2" stored in
  fst first
  = Returned {| te_scopes := Some ["read"; "app"]; te_resource := None;
                te_authority := None; te_codeVerifier := None |}
  /\ fst (getCachedRequest Scenario.config "guid-2" (snd first))
     = Thrown (TokenRequestCacheError (RuntimeError "base64Decode")).
Proof. cbv zeta. split; vm_compute; reflexivity. Qed.

(** A logout with a configured post-logout redirect URI, and one without. *)
Example logout_uris :
  fst (logout Scenario.config (UriString "https://app/bye") None
         (Scenario.signedIn [Scenario.entry "rt" "4600"]))
  = Returned
      "https://login/common/logout?post_logout_redirect_uri=https%3A%2F%2Fapp%2Fbye"
  /\ fst (logout Scenario.config NotConfigured None
            (Scenario.signedIn [Scenario.entry "rt" "4600"]))
     = Returned "https://login/common/logout".
Proof. split; vm_compute; reflexivity. Qed.

(** A stored value that parses to [null] is removed before the call
    throws; one that cannot be parsed stays where it is. *)
Example getCachedRequest_removes_null :
  let stored := set_cacheStorage {[ REQUEST_PARAMS := "null" ]} Scenario.fresh in
  let result := getCachedRequest Scenario.config "guid-2" stored in
  fst result = Thrown (TokenRequestCacheError (RuntimeError "TypeError"))
  /\ w_cacheStorage (snd result) !! REQUEST_PARAMS = None
  /\ (let undecodable :=
        set_cacheStorage {[ REQUEST_PARAMS := "!" ]} Scenario.fresh in
      getCachedRequest Scenario.config "guid-2" undecodable
      = (Thrown (TokenRequestCacheError (RuntimeError "base64Decode")), undecodable)).
Proof. cbv zeta. repeat split; vm_compute; reflexivity. Qed.

(** A persisted ID token that cannot be decoded: [getAccount] throws, and
    so do [logout], which then has cleared nothing, and a [getValidToken]
    that names no account, after its [catch] clause. *)
Example undecodable_id_token :
  let persisted :=
    set_cacheStorage {[ ID_TOKEN_KEY := "!raw"; CLIENT_INFO_KEY := "info" ]}
      (set_tokenCache [Scenario.entry "rt" "4600"] Scenario.fresh) in
  getAccount Scenario.config persisted
  = (Thrown (RuntimeError "base64Decode"), persisted)
  /\ logout Scenario.config NotConfigured None persisted
     = (Thrown (RuntimeError "base64Decode"), persisted)
  /\ fst (getValidToken Scenario.config (Some Scenario.readRequest) persisted)
     = Thrown (RuntimeError "base64Decode")
  /\ w_cacheStorage
       (snd (getValidToken Scenario.config (Some Scenario.readRequest) persisted))
     = {[ ID_TOKEN_KEY := "!raw"; CLIENT_INFO_KEY := "info" ]}.
Proof. cbv zeta. repeat split; vm_compute; reflexivity. Qed.

(** A cached entry whose ID token cannot be decoded is not served from the
    cache although it has not expired: the error of the decoder is thrown
    and the account is forgotten. *)
Example undecodable_cached_id_token :
  let item :=
    {| key := key (Scenario.entry "rt" "4600");
       value := {| val_accessToken := "at"; val_refreshToken := "rt";
                   val_idToken := "!raw"; val_tokenType := "Bearer";
                   val_expiresOnSec := "4600" |} |} in
  let result :=
    getValidToken Scenario.config (Some Scenario.readRequest)
      (Scenario.signedIn [item]) in
  fst result = Thrown (RuntimeError "base64Decode")
  /\ w_account (snd result) = None
  /\ posts (snd result) = [].
Proof. cbv zeta. repeat split; vm_compute; reflexivity. Qed.

(** What [Number] makes of strings: numeric literals with a sign, a
    fraction, an exponent, a prefix of another base or white space around
    them; the nearest double where the literal is none; zero for the empty
    string; and [NaN] for the rest. *)
Example Number_of_strings :
  Js.Number "4600" = Js.Finite 4600
  /\ Js.Number "1e4" = Js.Finite 10000
  /\ Js.Number " 4600 " = Js.Finite 4600
  /\ Js.Number "4600.5" = Js.Finite (9201 # 2)
  /\ Js.Number "+4600" = Js.Finite 4600
  /\ Js.Number "-.5E1" = Js.Finite (-5)
  /\ Js.Number "0x10" = Js.Finite 16
  /\ Js.Number "Infinity" = Js.Infinity false
  /\ Js.Number "1e400" = Js.Infinity false
  /\ Js.Number "" = Js.Finite 0
  /\ Js.Number "-0" = Js.Finite 0
  /\ Js.Number "9007199254740993" = Js.Finite 9007199254740992
  /\ Js.Number "0.1" = Js.Finite (3602879701896397 # 36028797018963968)
  /\ Js.Number "12px" = Js.NaN
  /\ Js.Number "1,5" = Js.NaN
  /\ Js.Number "-0x10" = Js.NaN
  /\ Js.Number "infinity" = Js.NaN.
Proof. repeat split; vm_compute; reflexivity. Qed.

(** An expiry written with an exponent, with a fraction or with blanks
    around it is read as the number it is: with the clock at 1000 and an
    offset of 300 the entry is served from the cache, and the date of the
    response is the expiry in milliseconds, without the fraction of a
    millisecond.  An expiry of [Infinity] is served as well, with the
    invalid date. *)
Example getValidToken_reads_expiry_as_number :
  let served (expiresOnSec : string) : option Js.Date * list Event :=
    let result :=
      getValidToken Scenario.config (Some Scenario.readRequest)
        (Scenario.signedIn [Scenario.entry "rt" expiresOnSec]) in
    (match fst result with
     | Returned response => Some (expiresOn response)
     | Thrown _ => None
     end, posts (snd result)) in
  served "1e4" = (Some (Js.TimeValue 10000000), [])
  /\ served " 4600 " = (Some (Js.TimeValue 4600000), [])
  /\ served "4600.5" = (Some (Js.TimeValue 4600500), [])
  /\ served "1300.0004" = (Some (Js.TimeValue 1300000), [])
  /\ served "Infinity" = (Some Js.InvalidDate, []).
Proof. cbv zeta. repeat split; vm_compute; reflexivity. Qed.

(** Keys that a plain object inherits.  [toString] is found in an empty
    section; removing it answers [true] and removes nothing.  A string
    stored under [__proto__] is dropped; an object stored there becomes
    what the section inherits from, so that a key of that object is read
    from the section although it was never stored. *)
Example inherited_keys :
  let getItem := Storage.getItem Scenario.credentialTypeOf Scenario.memberOf in
  let setItem := Storage.setItem Scenario.credentialTypeOf in
  let removeItem := Storage.removeItem Scenario.credentialTypeOf Scenario.memberOf in
  let account := Some Storage.ACCOUNT in
  let empty := Scenario.emptyStorage in
  fst (getItem "toString" account (Some true) empty)
  = Storage.IValue (Storage.VObject 101)
  /\ fst (removeItem "toString" account (Some true) empty) = true
  /\ Storage.inMemoryCache (snd (removeItem "toString" account (Some true) empty))
     = Storage.inMemoryCache empty
  /\ fst (getItem "__proto__" account (Some true)
            (setItem "__proto__" (Storage.VString "text") account (Some true) empty))
     = Storage.IValue (Storage.VObject 0)
  /\ fst (getItem "other" account (Some true) empty) = Storage.INull
  /\ fst (getItem "other" account (Some true)
            (setItem "__proto__" (Storage.VObject 5) account (Some true) empty))
     = Storage.IValue (Storage.VString "leaked").
Proof. cbv zeta. repeat split; vm_compute; reflexivity. Qed.
